(** * Cloud-AWS-Codes: the two resource life-cycle scripts

    A shallow embedding of [src/p1.js] and [src/unnamed/part_000].  Both
    files are a linear [async] driver over three AWS SDK clients.  Every
    [await client.send(command)] is an interaction with the provider; the
    embedding threads a world that holds the provider's replies and records
    every call, pause and console line in a trace. *)

From stdpp Require Import base strings gmap list pretty.

Open Scope string_scope.
Open Scope Z_scope.
Open Scope list_scope.

(** ** Values exchanged with the SDK

    The fields are those the scripts read or write.  A property that may be
    absent on the JavaScript object is an [option]; [None] is [undefined]. *)

Record Credentials := { accessKeyId : string; secretAccessKey : string }.

Record InstanceState := { State_Name : option string }.

Record Instance := {
  InstanceId : option string;
  State : option InstanceState
}.

Record Reservation := { Reservation_Instances : option (list Instance) }.

Record Bucket := { Bucket_Name : option string }.

Record S3Object := { Key : option string }.

Record MessageAttributeValue := {
  DataType : option string;
  StringValue : option string
}.

Record Message := {
  MessageAttributes : option (gmap string MessageAttributeValue);
  Body : option string;
  ReceiptHandle : option string
}.

(** The resolved value of [client.send]: one JavaScript object, seen through
    the properties the scripts read from it. *)
Record Response := {
  Instances : option (list Instance);
  Reservations : option (list Reservation);
  Buckets : option (list Bucket);
  QueueUrls : option (list string);
  QueueUrl : option string;
  Attributes : option (gmap string string);
  Messages : option (list Message);
  Contents : option (list S3Object);
  IsTruncated : option bool;
  NextContinuationToken : option string
}.

Definition emptyResponse : Response :=
  {| Instances := None; Reservations := None; Buckets := None;
     QueueUrls := None; QueueUrl := None; Attributes := None;
     Messages := None; Contents := None; IsTruncated := None;
     NextContinuationToken := None |}.

(** The inputs of the [new XCommand({...})] constructors the scripts use. *)
Inductive Command :=
  | RunInstancesCommand (ImageId InstanceType : string) (MinCount MaxCount : Z)
  | DescribeInstancesCommand
  | TerminateInstancesCommand (InstanceIds : list (option string))
  | CreateBucketCommand (Bucket : string)
  | ListBucketsCommand
  | PutObjectCommand (Bucket Key Body : string)
  | DeleteBucketCommand (Bucket : string)
  | ListObjectsV2Command (Bucket : string) (ContinuationToken : option string)
  | DeleteObjectCommand (Bucket : string) (Key : option string)
  | CreateQueueCommand (QueueName : string)
  | ListQueuesCommand
  | SendMessageCommand (QueueUrl : option string) (MessageBody : string)
      (MessageAttributes : gmap string MessageAttributeValue)
  | GetQueueAttributesCommand (QueueUrl : option string)
      (AttributeNames : list string)
  | ReceiveMessageCommand (QueueUrl : option string) (MaxNumberOfMessages : Z)
      (MessageAttributeNames : list string)
  | DeleteMessageCommand (QueueUrl : option string)
      (ReceiptHandle : option string)
  | DeleteQueueCommand (QueueUrl : option string).

Inductive Service := EC2 | S3 | SQS.

(** [new EC2Client({ credentials, region })] and its two siblings. *)
Record Client := {
  service : Service;
  client_credentials : Credentials;
  client_region : string
}.

(** What a script can throw: a [TypeError] from reading a property of
    [undefined], or the rejection of a provider call. *)
Inductive Error :=
  | TypeError
  | Rejected (reason : string).

(** How the promise returned by [client.send] settles. *)
Inductive Settled :=
  | Resolve (response : Response)
  | Reject (reason : string).

(** ** Observable events *)

Inductive Event :=
  | Send (client : Client) (command : Command) (reply : Settled)
  | SetTimeout (ms : Z)
  | ConsoleLog (line : string)
  | ConsoleError (label : string) (error : Error).

(** ** The world

    [replies] is the sequence of provider responses: the [n]-th call issued,
    whatever it is, settles as [replies n].  [clock] is the sequence of
    successive readings of [Date.now()]. *)
Record World := {
  replies : nat -> Settled;
  issued : nat;
  clock : nat -> Z;
  reads : nat
}.

Inductive Outcome (A : Type) :=
  | Returned (a : A)
  | Threw (e : Error)
  | Diverged.
Arguments Returned {A} a.
Arguments Threw {A} e.
Arguments Diverged {A}.

Record Run (A : Type) := mkRun {
  outcome : Outcome A;
  final : World;
  events : list Event
}.
Arguments mkRun {A} _ _ _.
Arguments outcome {A} _.
Arguments final {A} _.
Arguments events {A} _.

(** An [async] function: from the world it starts in to how it ends, the
    world it leaves and the events it produced. *)
Definition M (A : Type) : Type := World -> Run A.

Definition ret {A} (a : A) : M A := fun w => mkRun (Returned a) w [].

Definition bind {A B} (m : M A) (k : A -> M B) : M B := fun w =>
  let r := m w in
  match outcome r with
  | Returned a =>
      let r' := k a (final r) in
      mkRun (outcome r') (final r') (events r ++ events r')
  | Threw e => mkRun (Threw e) (final r) (events r)
  | Diverged => mkRun Diverged (final r) (events r)
  end.

Global Instance M_ret : MRet M := @ret.
Global Instance M_bind : MBind M := fun A B k m => bind m k.

Definition throw {A} (e : Error) : M A := fun w => mkRun (Threw e) w [].

Definition diverge {A} : M A := fun w => mkRun Diverged w [].

Definition emit (e : Event) : M unit := fun w => mkRun (Returned ()) w [e].

(** [try { m } catch (error) { h error }].  Running out of fuel is not an
    exception and is not caught. *)
Definition tryCatch {A} (m : M A) (h : Error -> M A) : M A := fun w =>
  let r := m w in
  match outcome r with
  | Threw e =>
      let r' := h e (final r) in
      mkRun (outcome r') (final r') (events r ++ events r')
  | _ => r
  end.

(** The world after one more provider call has settled. *)
Definition advance (w : World) : World :=
  {| replies := replies w; issued := S (issued w);
     clock := clock w; reads := reads w |}.

(** The world after one more reading of the clock. *)
Definition tick (w : World) : World :=
  {| replies := replies w; issued := issued w;
     clock := clock w; reads := S (reads w) |}.

(** [await client.send(command)]: the call is issued and settles as the
    provider's next reply; a rejection is thrown at the [await]. *)
Definition send (client : Client) (command : Command) : M Response := fun w =>
  let reply := replies w (issued w) in
  match reply with
  | Resolve response =>
      mkRun (Returned response) (advance w) [Send client command reply]
  | Reject reason =>
      mkRun (Threw (Rejected reason)) (advance w) [Send client command reply]
  end.

(** [Date.now()] *)
Definition Date_now : M Z := fun w =>
  mkRun (Returned (clock w (reads w))) (tick w) [].

Definition console_log (line : string) : M unit := emit (ConsoleLog line).

Definition console_error (label : string) (error : Error) : M unit :=
  emit (ConsoleError label error).

(** Reading a property of [x]: a [TypeError] when [x] is [undefined]. *)
Definition defined {A} (x : option A) : M A :=
  match x with
  | Some a => ret a
  | None => throw TypeError
  end.

(** [`${x}`] *)
Definition template (x : option string) : string :=
  match x with
  | Some s => s
  | None => "undefined"
  end.

(** The truth value of a variable that holds a boolean or [undefined]. *)
Definition truthy (x : option bool) : bool :=
  match x with
  | Some b => b
  | None => false
  end.

(** [xs.forEach(f)] and [for (const x of xs) { f x }] *)
Fixpoint forEach {A} (xs : list A) (f : A -> M unit) : M unit :=
  match xs with
  | [] => ret ()
  | x :: xs' => f x;; forEach xs' f
  end.

(** [while (cond s) { s = body s }].  The loop has no bound in the source;
    [fuel] bounds the number of iterations and [Diverged] reports that the
    bound was reached with the condition still true. *)
Fixpoint while {S} (fuel : nat) (cond : S -> bool) (body : S -> M S) (s : S)
  : M S :=
  if cond s then
    match fuel with
    | O => diverge
    | Datatypes.S fuel' => s' ← body s; while fuel' cond body s'
    end
  else ret s.

(** [async function sleep(ms)] is the same in both files. *)
Definition sleep (ms : Z) : M unit := emit (SetTimeout ms).

(** The constants of a script file: [credentials] (imported by [p1.js] from
    a module that is not part of the sources, free in [part_000]), [region]
    and the [ImageId] of [createResources]. *)
Record Config := {
  credentials : Credentials;
  region : string;
  ImageId : string
}.

(** ** [src/p1.js] *)
Module P1.
Section Script.
Variable cfg : Config.

(** The three clients, lines 9-11 of [p1.js] and 10-12 of [part_000]. *)
Definition ec2Client : Client :=
  {| service := EC2; client_credentials := credentials cfg;
     client_region := region cfg |}.
Definition s3Client : Client :=
  {| service := S3; client_credentials := credentials cfg;
     client_region := region cfg |}.
Definition sqsClient : Client :=
  {| service := SQS; client_credentials := credentials cfg;
     client_region := region cfg |}.

(** [createResources], p1.js:18-47 *)
Definition createResources : M (option string * string * option string) :=
  console_log "Creating resources...";;
  ec2Response ← send ec2Client (RunInstancesCommand (ImageId cfg) "t2.micro" 1 1);
  instances ← defined (Instances ec2Response);
  instance0 ← defined (head instances);
  let instanceId := InstanceId instance0 in
  console_log ("EC2 instance created with ID: " +:+ template instanceId);;
  t ← Date_now;
  let bucketName := "my-test-bucket-" +:+ pretty t in
  send s3Client (CreateBucketCommand bucketName);;
  console_log ("S3 bucket created: " +:+ bucketName);;
  t' ← Date_now;
  let queueName := "my-test-queue-" +:+ pretty t' in
  sqsResponse ← send sqsClient (CreateQueueCommand queueName);
  let queueUrl := QueueUrl sqsResponse in
  console_log ("SQS queue created: " +:+ template queueUrl);;
  console_log "Resources created, waiting for 1 minute...";;
  sleep 60000;;
  mret (instanceId, bucketName, queueUrl).

(** [listResources], p1.js:49-77 *)
Definition listResources : M unit :=
  console_log "Listing resources...";;
  ec2Response ← send ec2Client DescribeInstancesCommand;
  console_log "EC2 Instances:";;
  match Reservations ec2Response with
  | Some reservations =>
      forEach reservations (fun reservation =>
        instances ← defined (Reservation_Instances reservation);
        forEach instances (fun instance =>
          state ← defined (State instance);
          if bool_decide (State_Name state = Some "running")
          then console_log ("  " +:+ template (InstanceId instance))
          else mret ()))
  | None => mret ()
  end;;
  s3Response ← send s3Client ListBucketsCommand;
  console_log "S3 Buckets:";;
  match Buckets s3Response with
  | Some buckets =>
      forEach buckets (fun bucket =>
        console_log ("  " +:+ template (Bucket_Name bucket)))
  | None => mret ()
  end;;
  sqsResponse ← send sqsClient ListQueuesCommand;
  console_log "SQS Queues:";;
  match QueueUrls sqsResponse with
  | Some queueUrls =>
      forEach queueUrls (fun queueUrl => console_log ("  " +:+ queueUrl))
  | None => mret ()
  end.

(** [uploadFileToS3], p1.js:79-88 *)
Definition uploadFileToS3 (bucketName : string) : M unit :=
  console_log "Uploading file to S3...";;
  send s3Client (PutObjectCommand bucketName "CSE546test.txt" "");;
  console_log "File uploaded to S3".

(** [sendMessageToSQS], p1.js:90-104 *)
Definition sendMessageToSQS (queueUrl : option string) : M unit :=
  console_log "Sending message to SQS...";;
  send sqsClient
    (SendMessageCommand queueUrl "This is a test message"
       {[ "Title" := {| DataType := Some "String";
                        StringValue := Some "test message" |} ]});;
  console_log "Message sent to SQS".

(** [checkSQSMessages], p1.js:106-113 *)
Definition checkSQSMessages (queueUrl : option string) : M unit :=
  response ← send sqsClient
    (GetQueueAttributesCommand queueUrl ["ApproximateNumberOfMessages"]);
  attributes ← defined (Attributes response);
  console_log ("Number of messages in SQS queue: "
               +:+ template (attributes !! "ApproximateNumberOfMessages")).

(** [receiveSQSMessage], p1.js:115-136 *)
Definition receiveSQSMessage (queueUrl : option string) : M unit :=
  console_log "Receiving message from SQS...";;
  response ← send sqsClient (ReceiveMessageCommand queueUrl 1 ["All"]);
  match Messages response with
  | Some (message :: _) =>
      attributes ← defined (MessageAttributes message);
      title ← defined (attributes !! "Title");
      console_log ("Message title: " +:+ template (StringValue title));;
      console_log ("Message body: " +:+ template (Body message));;
      send sqsClient (DeleteMessageCommand queueUrl (ReceiptHandle message));;
      mret ()
  | _ => console_log "No messages in the queue"
  end.

(** [deleteResources], p1.js:138-178 *)
Definition deleteResources (fuel : nat)
    (instanceId : option string) (bucketName : string)
    (queueUrl : option string) : M unit :=
  console_log "Deleting resources...";;
  while fuel
    (fun '(isTruncated, continuationToken) => truthy isTruncated)
    (fun '(isTruncated, continuationToken) =>
       listResponse ← send s3Client
         (ListObjectsV2Command bucketName continuationToken);
       match Contents listResponse with
       | Some contents =>
           forEach contents (fun object =>
             send s3Client (DeleteObjectCommand bucketName (Key object));;
             console_log ("Deleted object: " +:+ template (Key object)))
       | None => mret ()
       end;;
       mret (IsTruncated listResponse, NextContinuationToken listResponse))
    (Some true, None);;
  send ec2Client (TerminateInstancesCommand [instanceId]);;
  console_log ("EC2 instance " +:+ template instanceId
               +:+ " termination initiated");;
  send s3Client (DeleteBucketCommand bucketName);;
  console_log ("S3 bucket " +:+ bucketName +:+ " deleted");;
  send sqsClient (DeleteQueueCommand queueUrl);;
  console_log ("SQS queue " +:+ template queueUrl +:+ " deleted").

(** [main], p1.js:180-202 *)
Definition main (fuel : nat) : M unit :=
  tryCatch
    ('(instanceId, bucketName, queueUrl) ← createResources;
     listResources;;
     uploadFileToS3 bucketName;;
     sendMessageToSQS queueUrl;;
     checkSQSMessages queueUrl;;
     receiveSQSMessage queueUrl;;
     checkSQSMessages queueUrl;;
     console_log "Waiting for 10 seconds...";;
     sleep 10000;;
     deleteResources fuel instanceId bucketName queueUrl;;
     console_log "Waiting for 1 minute...";;
     sleep 60000;;
     listResources)
    (fun error => console_error "An error occurred:" error).

End Script.

Definition region : string := "us-west-1".
Definition ImageId : string := "ami-0d53d72369335a9d6".

(** The file's top-level statement [main();] with the file's constants. *)
Definition script (credentials : Credentials) (fuel : nat) : M unit :=
  main (Build_Config credentials region ImageId) fuel.

End P1.

(** ** [src/unnamed/part_000]

    The file uses [credentials] without declaring it (the import is
    commented out); like the other constants it is read from [cfg]. *)
Module Part000.
Section Script.
Variable cfg : Config.

(** The three clients, lines 9-11 of [p1.js] and 10-12 of [part_000]. *)
Definition ec2Client : Client :=
  {| service := EC2; client_credentials := credentials cfg;
     client_region := region cfg |}.
Definition s3Client : Client :=
  {| service := S3; client_credentials := credentials cfg;
     client_region := region cfg |}.
Definition sqsClient : Client :=
  {| service := SQS; client_credentials := credentials cfg;
     client_region := region cfg |}.

(** [createResources], part_000:28-60 *)
Definition createResources : M (option string * string * option string) :=
  console_log "Creating resources...";;
  ec2Response ← send ec2Client (RunInstancesCommand (ImageId cfg) "t2.micro" 1 1);
  instances ← defined (Instances ec2Response);
  instance0 ← defined (head instances);
  let instanceId := InstanceId instance0 in
  console_log ("EC2 instance created with ID: " +:+ template instanceId);;
  t ← Date_now;
  let bucketName := "my-test-bucket-" +:+ pretty t in
  send s3Client (CreateBucketCommand bucketName);;
  console_log ("S3 bucket created: " +:+ bucketName);;
  t' ← Date_now;
  let queueName := "my-test-queue-" +:+ pretty t' in
  sqsResponse ← send sqsClient (CreateQueueCommand queueName);
  let queueUrl := QueueUrl sqsResponse in
  console_log ("SQS queue created: " +:+ template queueUrl);;
  console_log "Resources created, waiting for 1 minute...";;
  sleep 60000;;
  mret (instanceId, bucketName, queueUrl).

(** [listResources], part_000:62-90 *)
Definition listResources : M unit :=
  console_log "Listing resources...";;
  ec2Response ← send ec2Client DescribeInstancesCommand;
  console_log "EC2 Instances:";;
  reservations ← defined (Reservations ec2Response);
  forEach reservations (fun reservation =>
    instances ← defined (Reservation_Instances reservation);
    forEach instances (fun instance =>
      console_log ("  " +:+ template (InstanceId instance))));;
  s3Response ← send s3Client ListBucketsCommand;
  console_log "S3 Buckets:";;
  buckets ← defined (Buckets s3Response);
  forEach buckets (fun bucket =>
    console_log ("  " +:+ template (Bucket_Name bucket)));;
  sqsResponse ← send sqsClient ListQueuesCommand;
  console_log "SQS Queues:";;
  queueUrls ← defined (QueueUrls sqsResponse);
  forEach queueUrls (fun queueUrl => console_log ("  " +:+ queueUrl)).

(** [uploadFileToS3], part_000:92-101 *)
Definition uploadFileToS3 (bucketName : string) : M unit :=
  console_log "Uploading file to S3...";;
  send s3Client (PutObjectCommand bucketName "CSE546test.txt" "");;
  console_log "File uploaded to S3".

(** [sendMessageToSQS], part_000:103-117 *)
Definition sendMessageToSQS (queueUrl : option string) : M unit :=
  console_log "Sending message to SQS...";;
  send sqsClient
    (SendMessageCommand queueUrl "This is a test message"
       {[ "Title" := {| DataType := Some "String";
                        StringValue := Some "test message" |} ]});;
  console_log "Message sent to SQS".

(** [checkSQSMessages], part_000:119-126 *)
Definition checkSQSMessages (queueUrl : option string) : M unit :=
  response ← send sqsClient
    (GetQueueAttributesCommand queueUrl ["ApproximateNumberOfMessages"]);
  attributes ← defined (Attributes response);
  console_log ("Number of messages in SQS queue: "
               +:+ template (attributes !! "ApproximateNumberOfMessages")).

(** [receiveSQSMessage], part_000:128-150 *)
Definition receiveSQSMessage (queueUrl : option string) : M unit :=
  console_log "Receiving message from SQS...";;
  response ← send sqsClient (ReceiveMessageCommand queueUrl 1 ["All"]);
  match Messages response with
  | Some (message :: _) =>
      attributes ← defined (MessageAttributes message);
      title ← defined (attributes !! "Title");
      console_log ("Message title: " +:+ template (StringValue title));;
      console_log ("Message body: " +:+ template (Body message));;
      send sqsClient (DeleteMessageCommand queueUrl (ReceiptHandle message));;
      mret ()
  | _ => console_log "No messages in the queue"
  end.

(** [deleteResources], part_000:152-197 *)
Definition deleteResources (fuel : nat)
    (instanceId : option string) (bucketName : string)
    (queueUrl : option string) : M unit :=
  console_log "Deleting resources...";;
  while fuel
    (fun '(isTruncated, continuationToken) => truthy isTruncated)
    (fun '(isTruncated, continuationToken) =>
       listResponse ← send s3Client
         (ListObjectsV2Command bucketName continuationToken);
       match Contents listResponse with
       | Some contents =>
           forEach contents (fun object =>
             send s3Client (DeleteObjectCommand bucketName (Key object));;
             console_log ("Deleted object: " +:+ template (Key object)))
       | None => mret ()
       end;;
       mret (IsTruncated listResponse, NextContinuationToken listResponse))
    (Some true, None);;
  send ec2Client (TerminateInstancesCommand [instanceId]);;
  console_log ("EC2 instance " +:+ template instanceId
               +:+ " termination initiated");;
  send s3Client (DeleteBucketCommand bucketName);;
  console_log ("S3 bucket " +:+ bucketName +:+ " deleted");;
  send sqsClient (DeleteQueueCommand queueUrl);;
  console_log ("SQS queue " +:+ template queueUrl +:+ " deleted").

(** [main], part_000:199-221 *)
Definition main (fuel : nat) : M unit :=
  tryCatch
    ('(instanceId, bucketName, queueUrl) ← createResources;
     listResources;;
     uploadFileToS3 bucketName;;
     sendMessageToSQS queueUrl;;
     checkSQSMessages queueUrl;;
     receiveSQSMessage queueUrl;;
     checkSQSMessages queueUrl;;
     console_log "Waiting for 10 seconds...";;
     sleep 10000;;
     deleteResources fuel instanceId bucketName queueUrl;;
     console_log "Waiting for 20 seconds...";;
     sleep 20000;;
     listResources)
    (fun error => console_error "An error occurred:" error).

End Script.

Definition region : string := "us-east-1".
Definition ImageId : string := "ami-0e86e20dae9224db8".

(** The file's top-level statement [main();] with the file's constants. *)
Definition script (credentials : Credentials) (fuel : nat) : M unit :=
  main (Build_Config credentials region ImageId) fuel.

End Part000.

(** ** The two files side by side *)

Inductive File := p1_js | part_000.

Definition sqsClient_of (f : File) : Config -> Client :=
  match f with p1_js => P1.sqsClient | part_000 => Part000.sqsClient end.
Definition s3Client_of (f : File) : Config -> Client :=
  match f with p1_js => P1.s3Client | part_000 => Part000.s3Client end.
Definition ec2Client_of (f : File) : Config -> Client :=
  match f with p1_js => P1.ec2Client | part_000 => Part000.ec2Client end.
Definition receiveSQSMessage_of (f : File)
  : Config -> option string -> M unit :=
  match f with
  | p1_js => P1.receiveSQSMessage
  | part_000 => Part000.receiveSQSMessage
  end.
Definition deleteResources_of (f : File)
  : Config -> nat -> option string -> string -> option string -> M unit :=
  match f with
  | p1_js => P1.deleteResources
  | part_000 => Part000.deleteResources
  end.
Definition main_of (f : File) : Config -> nat -> M unit :=
  match f with p1_js => P1.main | part_000 => Part000.main end.

(** ** Observations on a trace *)

(** The provider calls of a trace, in the order they were issued. *)
Definition call_of (e : Event) : option (Client * Command) :=
  match e with
  | Send client command _ => Some (client, command)
  | _ => None
  end.
Definition calls (evs : list Event) : list (Client * Command) :=
  omap call_of evs.

(** The receipt handles of the delete-message calls of a trace. *)
Definition ack_of (e : Event) : option (option string) :=
  match e with
  | Send _ (DeleteMessageCommand _ handle) _ => Some handle
  | _ => None
  end.
Definition acks (evs : list Event) : list (option string) := omap ack_of evs.

(** The messages the receive calls of a trace returned. *)
Definition messages_of (e : Event) : list Message :=
  match e with
  | Send _ (ReceiveMessageCommand _ _ _) (Resolve response) =>
      default [] (Messages response)
  | _ => []
  end.
Definition returned_messages (evs : list Event) : list Message :=
  evs ≫= messages_of.

(** [message.MessageAttributes.Title], when both steps are defined. *)
Definition Title (message : Message) : option MessageAttributeValue :=
  attributes ← MessageAttributes message; attributes !! "Title".

(** ** Concrete worlds *)

Definition demo_credentials : Credentials :=
  {| accessKeyId := "AKIDEXAMPLE"; secretAccessKey := "wJalrXUtnFEMI" |}.

Definition demo_config : Config :=
  Build_Config demo_credentials P1.region P1.ImageId.

(** A world whose first replies are [script]; later calls resolve with an
    object without properties. *)
Definition world_of (script : list Settled) : World :=
  {| replies := fun n => default (Resolve emptyResponse) (script !! n);
     issued := 0;
     clock := fun n => 1725000000000 + Z.of_nat n;
     reads := 0 |}.

Definition receiveOutput (messages : option (list Message)) : Response :=
  {| Instances := None; Reservations := None; Buckets := None;
     QueueUrls := None; QueueUrl := None; Attributes := None;
     Messages := messages; Contents := None; IsTruncated := None;
     NextContinuationToken := None |}.

Definition listOutput (contents : option (list S3Object))
    (isTruncated : option bool) (token : option string) : Response :=
  {| Instances := None; Reservations := None; Buckets := None;
     QueueUrls := None; QueueUrl := None; Attributes := None;
     Messages := None; Contents := contents; IsTruncated := isTruncated;
     NextContinuationToken := token |}.

(** The message [sendMessageToSQS] sends, as the queue hands it back. *)
Definition titled_message : Message :=
  {| MessageAttributes :=
       Some {[ "Title" := {| DataType := Some "String";
                             StringValue := Some "test message" |} ]};
     Body := Some "This is a test message";
     ReceiptHandle := Some "AQEBwJnKyrHigUMZj6rYigCgxlaS3SLy0a" |}.

(** A message another producer sent without attributes. *)
Definition untitled_message : Message :=
  {| MessageAttributes := None;
     Body := Some "hello";
     ReceiptHandle := Some "AQEBzWwaftRI0KuVm4tP+/7q1rGgNqicHq" |}.

Definition demo_queueUrl : option string :=
  Some "https://sqs.us-west-1.amazonaws.com/123456789012/my-test-queue-1725000000001".

(** The receive call resolves with one message that has no attributes. *)
Definition world_untitled : World :=
  world_of [Resolve (receiveOutput (Some [untitled_message]))].

(** The receive call resolves with the message the script sent. *)
Definition world_titled : World :=
  world_of [Resolve (receiveOutput (Some [titled_message]))].

(** The receive call resolves without messages. *)
Definition world_empty_queue : World :=
  world_of [Resolve (receiveOutput None)].

(** ** The purge loop of [deleteResources], named

    [purge] is the [while] loop of [deleteResources], [purge_body] one
    iteration and [delete_objects] the [for ... of] inside it; the lemma
    [deleteResources_eq] ties the names to the function. *)

Definition delete_objects (s3Client : Client) (bucketName : string)
    (contents : list S3Object) : M unit :=
  forEach contents (fun object =>
    send s3Client (DeleteObjectCommand bucketName (Key object));;
    console_log ("Deleted object: " +:+ template (Key object))).

Definition purge_cond : option bool * option string -> bool :=
  fun '(isTruncated, continuationToken) => truthy isTruncated.

Definition purge_body (s3Client : Client) (bucketName : string)
  : option bool * option string -> M (option bool * option string) :=
  fun '(isTruncated, continuationToken) =>
    listResponse ← send s3Client
      (ListObjectsV2Command bucketName continuationToken);
    match Contents listResponse with
    | Some contents => delete_objects s3Client bucketName contents
    | None => mret ()
    end;;
    mret (IsTruncated listResponse, NextContinuationToken listResponse).

Definition purge (s3Client : Client) (fuel : nat) (bucketName : string)
  : option bool * option string -> M (option bool * option string) :=
  while fuel purge_cond (purge_body s3Client bucketName).

(** The statements of [deleteResources] after the loop. *)
Definition teardown (ec2Client s3Client sqsClient : Client)
    (instanceId : option string) (bucketName : string)
    (queueUrl : option string) : M unit :=
  send ec2Client (TerminateInstancesCommand [instanceId]);;
  console_log ("EC2 instance " +:+ template instanceId
               +:+ " termination initiated");;
  send s3Client (DeleteBucketCommand bucketName);;
  console_log ("S3 bucket " +:+ bucketName +:+ " deleted");;
  send sqsClient (DeleteQueueCommand queueUrl);;
  console_log ("SQS queue " +:+ template queueUrl +:+ " deleted").

(** The listing pages a trace received, in order. *)
Definition page_of (e : Event) : option Response :=
  match e with
  | Send _ (ListObjectsV2Command _ _) (Resolve page) => Some page
  | _ => None
  end.
Definition pages_of (evs : list Event) : list Response := omap page_of evs.

(** The calls one page gives rise to: the listing call that fetched it with
    the token it was asked with, then one delete call per listed object. *)
Definition page_calls (s3Client : Client) (bucketName : string)
    (token : option string) (page : Response) : list (Client * Command) :=
  (s3Client, ListObjectsV2Command bucketName token)
  :: ((fun object => (s3Client, DeleteObjectCommand bucketName (Key object)))
      <$> default [] (Contents page)).

(** The calls of a purge over [pages]: each listing call carries the
    continuation token of the page before it. *)
Fixpoint purge_calls (s3Client : Client) (bucketName : string)
    (token : option string) (pages : list Response)
  : list (Client * Command) :=
  match pages with
  | [] => []
  | page :: pages' =>
      page_calls s3Client bucketName token page
      ++ purge_calls s3Client bucketName (NextContinuationToken page) pages'
  end.

(** The events the purge loop can produce. *)
Definition purge_event (s3Client : Client) (bucketName : string)
    (e : Event) : Prop :=
  match e with
  | Send client (ListObjectsV2Command bucket _) _
  | Send client (DeleteObjectCommand bucket _) _ =>
      client = s3Client /\ bucket = bucketName
  | ConsoleLog _ => True
  | _ => False
  end.

(** A page that reports more objects to come. *)
Definition truncated (page : Response) : Prop := IsTruncated page = Some true.

(** ** Runs seen from outside *)

(** [r] after the events [evs]. *)
Definition prefix {A} (evs : list Event) (r : Run A) : Run A :=
  mkRun (outcome r) (final r) (evs ++ events r).

(** The bucket-delete call and the call that ends an instance. *)
Definition is_DeleteBucket (e : Event) : Prop :=
  match e with
  | Send _ (DeleteBucketCommand _) _ => True
  | _ => False
  end.

Definition is_Terminate (e : Event) : Prop :=
  match e with
  | Send _ (TerminateInstancesCommand _) _ => True
  | _ => False
  end.

(** A truncation flag that stops the loop: [false] or absent. *)
Definition final_page (page : Response) : Prop :=
  IsTruncated page = Some false \/ IsTruncated page = None.

(** ** Concrete teardowns *)

Definition demo_instanceId : option string := Some "i-0f3a9c1d2e4b5a678".
Definition demo_bucketName : string := "my-test-bucket-1725000000000".

Definition uploaded_object : S3Object := {| Key := Some "CSE546test.txt" |}.

(** The bucket holds the uploaded object; the listing response carries no
    truncation flag. *)
Definition world_absent_flag : World :=
  world_of [Resolve (listOutput (Some [uploaded_object]) None None)].

(** The bucket is listed in two pages: two objects and a continuation
    token, then one object on the last page. *)
Definition world_two_pages : World :=
  world_of
    [ Resolve (listOutput
                 (Some [ {| Key := Some "a.txt" |}; {| Key := Some "b.txt" |} ])
                 (Some true) (Some "1ueGcxLPRx1Tr/XYExHnhbYLgveDs2J"));
      Resolve emptyResponse;
      Resolve emptyResponse;
      Resolve (listOutput (Some [uploaded_object]) (Some false) None) ].

Definition two_pages_events : list Event :=
  Eval vm_compute in
    events (P1.deleteResources demo_config 2 demo_instanceId demo_bucketName
              demo_queueUrl world_two_pages).

(** The bucket is empty. *)
Definition world_empty_bucket : World :=
  world_of [Resolve (listOutput None (Some false) None)].

(** Every listing response is an object without properties. *)
Definition world_bare : World := world_of [].

Definition bare_events : list Event :=
  Eval vm_compute in
    events (P1.deleteResources demo_config 1 demo_instanceId demo_bucketName
              demo_queueUrl world_bare).

(** ** Failures in a trace *)

(** An event that is neither a rejected call nor a line of the error
    handler. *)
Definition quiet (e : Event) : Prop :=
  match e with
  | Send _ _ (Reject _) => False
  | ConsoleError _ _ => False
  | _ => True
  end.

Definition is_rejection (e : Event) : Prop :=
  match e with
  | Send _ _ (Reject _) => True
  | _ => False
  end.

Definition is_ConsoleError (e : Event) : Prop :=
  match e with
  | ConsoleError _ _ => True
  | _ => False
  end.

(** A run in which a rejected call, if there is one, is the last event and
    is what the run threw. *)
Definition disciplined {A} (r : Run A) : Prop :=
  match outcome r with
  | Threw (Rejected reason) =>
      exists pre client command,
        events r = pre ++ [Send client command (Reject reason)] /\
        Forall quiet pre
  | _ => Forall quiet (events r)
  end.

Definition orderly {A} (m : M A) : Prop := forall w, disciplined (m w).

(** ** Concrete runs of [main] *)

Definition runInstancesOutput (instances : list Instance) : Response :=
  {| Instances := Some instances; Reservations := None; Buckets := None;
     QueueUrls := None; QueueUrl := None; Attributes := None;
     Messages := None; Contents := None; IsTruncated := None;
     NextContinuationToken := None |}.

Definition createQueueOutput (queueUrl : string) : Response :=
  {| Instances := None; Reservations := None; Buckets := None;
     QueueUrls := None; QueueUrl := Some queueUrl; Attributes := None;
     Messages := None; Contents := None; IsTruncated := None;
     NextContinuationToken := None |}.

Definition describeInstancesOutput (reservations : option (list Reservation))
  : Response :=
  {| Instances := None; Reservations := reservations; Buckets := None;
     QueueUrls := None; QueueUrl := None; Attributes := None;
     Messages := None; Contents := None; IsTruncated := None;
     NextContinuationToken := None |}.

Definition listBucketsOutput (buckets : list Bucket) : Response :=
  {| Instances := None; Reservations := None; Buckets := Some buckets;
     QueueUrls := None; QueueUrl := None; Attributes := None;
     Messages := None; Contents := None; IsTruncated := None;
     NextContinuationToken := None |}.

Definition listQueuesOutput (queueUrls : list string) : Response :=
  {| Instances := None; Reservations := None; Buckets := None;
     QueueUrls := Some queueUrls; QueueUrl := None; Attributes := None;
     Messages := None; Contents := None; IsTruncated := None;
     NextContinuationToken := None |}.

Definition queueAttributesOutput (depth : string) : Response :=
  {| Instances := None; Reservations := None; Buckets := None;
     QueueUrls := None; QueueUrl := None;
     Attributes := Some {[ "ApproximateNumberOfMessages" := depth ]};
     Messages := None; Contents := None; IsTruncated := None;
     NextContinuationToken := None |}.

Definition demo_instance (state : string) : Instance :=
  {| InstanceId := Some "i-0f3a9c1d2e4b5a678";
     State := Some {| State_Name := Some state |} |}.

Definition demo_queue : string :=
  "https://sqs.us-west-1.amazonaws.com/123456789012/my-test-queue-1725000000001".

(** The replies of a provider that accepts every call of one run. *)
Definition happy_script : list Settled :=
  [ Resolve (runInstancesOutput [demo_instance "pending"]);
    Resolve emptyResponse;
    Resolve (createQueueOutput demo_queue);
    Resolve (describeInstancesOutput
               (Some [ {| Reservation_Instances :=
                            Some [demo_instance "running"] |} ]));
    Resolve (listBucketsOutput [ {| Bucket_Name := Some demo_bucketName |} ]);
    Resolve (listQueuesOutput [demo_queue]);
    Resolve emptyResponse;
    Resolve emptyResponse;
    Resolve (queueAttributesOutput "1");
    Resolve (receiveOutput (Some [titled_message]));
    Resolve emptyResponse;
    Resolve (queueAttributesOutput "0");
    Resolve (listOutput (Some [uploaded_object]) (Some false) None);
    Resolve emptyResponse;
    Resolve emptyResponse;
    Resolve emptyResponse;
    Resolve emptyResponse;
    Resolve (describeInstancesOutput
               (Some [ {| Reservation_Instances :=
                            Some [demo_instance "shutting-down"] |} ]));
    Resolve (listBucketsOutput []);
    Resolve (listQueuesOutput []) ].

Definition world_happy : World := world_of happy_script.

(** The same provider, but the object-delete call of the purge loop is
    rejected. *)
Definition world_delete_rejected : World :=
  world_of (take 13 happy_script ++ [Reject "AccessDenied"]).

Definition rejected_events : list Event :=
  Eval vm_compute in events (P1.main demo_config 1 world_delete_rejected).

(** ** The steps of a run

    What the driver does to the outside: provider calls and pauses, without
    the replies and the console lines. *)

Inductive Step :=
  | Call (client : Client) (command : Command)
  | Pause (ms : Z).

Definition step_of (e : Event) : option Step :=
  match e with
  | Send client command _ => Some (Call client command)
  | SetTimeout ms => Some (Pause ms)
  | _ => None
  end.
Definition steps (evs : list Event) : list Step := omap step_of evs.

(** Every run of [m] that returns has steps that satisfy [P]. *)
Definition traces {A} (m : M A) (P : list Step -> Prop) : Prop :=
  forall w a, outcome (m w) = Returned a -> P (steps (events (m w))).

(** Every run of [m] that returns has exactly the steps [L]. *)
Definition shows {A} (m : M A) (L : list Step) : Prop :=
  traces m (fun L' => L' = L).

(** The pause between teardown and the final listing. *)
Definition final_pause (f : File) : Z :=
  match f with p1_js => 60000 | part_000 => 20000 end.

(** The provider of [world_happy], except that the first description of the
    instances comes back without a [Reservations] property. *)
Definition world_no_reservations : World :=
  world_of (take 3 happy_script
            ++ [Resolve (describeInstancesOutput None)]
            ++ drop 4 happy_script).

(** ** Comparing the two scripts *)

(** A listing response that carries the list the listing routine iterates
    over; for instances, every listed instance carries a [State]. *)
Definition listing_wf (e : Event) : Prop :=
  match e with
  | Send _ DescribeInstancesCommand (Resolve response) =>
      exists reservations,
        Reservations response = Some reservations /\
        Forall (fun reservation =>
                  forall instances,
                    Reservation_Instances reservation = Some instances ->
                    Forall (fun instance => is_Some (State instance)) instances)
          reservations
  | Send _ ListBucketsCommand (Resolve response) => is_Some (Buckets response)
  | Send _ ListQueuesCommand (Resolve response) => is_Some (QueueUrls response)
  | _ => True
  end.

(** Two runs that end the same way, in the same world, after the same
    provider calls. *)
Definition agree {A} (r1 r2 : Run A) : Prop :=
  outcome r1 = outcome r2 /\ final r1 = final r2 /\
  calls (events r1) = calls (events r2).

(** [m2] does as [m1] on every world where the listing responses [m1] gets
    are well formed. *)
Definition sim {A} (m1 m2 : M A) : Prop :=
  forall w, Forall listing_wf (events (m1 w)) -> agree (m1 w) (m2 w).

(** A computation that leaves the world alone and calls nobody. *)
Definition inert {A} (m : M A) : Prop :=
  forall w, final (m w) = w /\ calls (events (m w)) = [].

(** The two ways of printing the instances of one reservation. *)
Definition print_running (instance : Instance) : M unit :=
  state ← defined (State instance);
  if bool_decide (State_Name state = Some "running")
  then console_log ("  " +:+ template (InstanceId instance))
  else mret ().

Definition print_instance (instance : Instance) : M unit :=
  console_log ("  " +:+ template (InstanceId instance)).
(** ** The rest of the scripts: observations *)

Definition createResources_of (f : File)
  : Config -> M (option string * string * option string) :=
  match f with
  | p1_js => P1.createResources
  | part_000 => Part000.createResources
  end.
Definition listResources_of (f : File) : Config -> M unit :=
  match f with p1_js => P1.listResources | part_000 => Part000.listResources end.
Definition uploadFileToS3_of (f : File) : Config -> string -> M unit :=
  match f with
  | p1_js => P1.uploadFileToS3
  | part_000 => Part000.uploadFileToS3
  end.
Definition sendMessageToSQS_of (f : File) : Config -> option string -> M unit :=
  match f with
  | p1_js => P1.sendMessageToSQS
  | part_000 => Part000.sendMessageToSQS
  end.
Definition checkSQSMessages_of (f : File) : Config -> option string -> M unit :=
  match f with
  | p1_js => P1.checkSQSMessages
  | part_000 => Part000.checkSQSMessages
  end.

(** The lines written with [console.log], in order. *)
Definition line_of (e : Event) : option string :=
  match e with
  | ConsoleLog line => Some line
  | _ => None
  end.
Definition console (evs : list Event) : list string := omap line_of evs.

(** The names the creation gives out, read off the world it starts in. *)
Definition bucketName_at (w : World) : string :=
  "my-test-bucket-" +:+ pretty (clock w (reads w)).
Definition queueName_at (w : World) : string :=
  "my-test-queue-" +:+ pretty (clock w (S (reads w))).

(** The RunInstances call succeeds and returns a pending instance without an
    identifier; bucket and queue are created, the queue without a URL in the
    response. *)
Definition world_anonymous : World :=
  world_of
    [ Resolve (runInstancesOutput [ {| InstanceId := None; State := None |} ]);
      Resolve emptyResponse;
      Resolve emptyResponse ].

(** The RunInstances call succeeds with an empty list of instances. *)
Definition world_no_instance : World :=
  world_of [Resolve (runInstancesOutput [])].

(** The instance is created; the bucket is refused. *)
Definition world_bucket_refused : World :=
  world_of [ Resolve (runInstancesOutput [demo_instance "pending"]);
             Reject "BucketAlreadyExists" ].

(** ** Listing: what is printed *)

(** The instances of all reservations, in the order they are visited. *)
Definition listed_instances (reservations : list Reservation) : list Instance :=
  reservations ≫= fun reservation =>
    default [] (Reservation_Instances reservation).

(** [instance.State.Name === 'running'], for an instance that has a state. *)
Definition is_running (instance : Instance) : Prop :=
  State instance ≫= State_Name = Some "running".

Global Instance is_running_dec (instance : Instance) :
  Decision (is_running instance).
Proof. unfold is_running. apply _. Defined.

Definition instance_line (instance : Instance) : string :=
  "  " +:+ template (InstanceId instance).
Definition bucket_line (bucket : Bucket) : string :=
  "  " +:+ template (Bucket_Name bucket).
Definition queue_line (queueUrl : string) : string := "  " +:+ queueUrl.

(** A reservation [p1.js] can print: it has its list of instances and every
    instance has a state. *)
Definition complete_reservation (reservation : Reservation) : Prop :=
  match Reservation_Instances reservation with
  | Some instances => Forall (fun instance => is_Some (State instance)) instances
  | None => False
  end.

Global Instance complete_reservation_dec (reservation : Reservation) :
  Decision (complete_reservation reservation).
Proof.
  unfold complete_reservation.
  destruct (Reservation_Instances reservation); apply _.
Defined.

(** The loop over the reservations, in [p1.js] and in [part_000]. *)
Definition print_reservations_running (reservations : list Reservation)
  : M unit :=
  forEach reservations (fun reservation =>
    instances ← defined (Reservation_Instances reservation);
    forEach instances print_running).

Definition print_reservations (reservations : list Reservation) : M unit :=
  forEach reservations (fun reservation =>
    instances ← defined (Reservation_Instances reservation);
    forEach instances print_instance).



(** An attributes response without the message count. *)
Definition attributesOutput_without_count : Response :=
  {| Instances := None; Reservations := None; Buckets := None;
     QueueUrls := None; QueueUrl := None;
     Attributes := Some {[ "QueueArn" := "arn:aws:sqs:us-west-1:123456789012:my-test-queue-1725000000001" ]};
     Messages := None; Contents := None; IsTruncated := None;
     NextContinuationToken := None |}.

Definition world_no_count : World :=
  world_of [Resolve attributesOutput_without_count].

(** ** Invariants of every run *)

(** Every event of every run of [m] satisfies [P]. *)
Definition always {A} (P : Event -> Prop) (m : M A) : Prop :=
  forall w, Forall P (events (m w)).

(** The service a command belongs to, that is the package it is imported
    from in the first three lines of either file. *)
Definition service_of (command : Command) : Service :=
  match command with
  | RunInstancesCommand _ _ _ _
  | DescribeInstancesCommand
  | TerminateInstancesCommand _ => EC2
  | CreateBucketCommand _
  | ListBucketsCommand
  | PutObjectCommand _ _ _
  | DeleteBucketCommand _
  | ListObjectsV2Command _ _
  | DeleteObjectCommand _ _ => S3
  | CreateQueueCommand _
  | ListQueuesCommand
  | SendMessageCommand _ _ _
  | GetQueueAttributesCommand _ _
  | ReceiveMessageCommand _ _ _
  | DeleteMessageCommand _ _
  | DeleteQueueCommand _ => SQS
  end.

(** A call that goes through the client of its command's service, made from
    the file's credentials and region. *)
Definition routed (cfg : Config) (e : Event) : Prop :=
  match e with
  | Send client command _ =>
      client = {| service := service_of command;
                  client_credentials := credentials cfg;
                  client_region := region cfg |}
  | _ => True
  end.

(** The identifiers a run of [main] works with, read off the world it starts
    in: the [InstanceId] of the first instance of the first reply and the
    [QueueUrl] of the third. *)
Definition instanceId_at (w : World) : option string :=
  match replies w (issued w) with
  | Resolve ec2Response => instance0 ← Instances ec2Response ≫= head;
                           InstanceId instance0
  | Reject _ => None
  end.

Definition queueUrl_at (w : World) : option string :=
  match replies w (2 + issued w)%nat with
  | Resolve sqsResponse => QueueUrl sqsResponse
  | Reject _ => None
  end.

(** A call that names a bucket, a queue or instances names those of [ids].
    The calls that name none are the two that create from scratch
    ([RunInstances], [CreateQueue], which takes a queue name) and the three
    account-wide listings. *)
Definition scoped (ids : option string * string * option string) (e : Event)
  : Prop :=
  let '(instanceId, bucketName, queueUrl) := ids in
  match e with
  | Send _ command _ =>
      match command with
      | CreateBucketCommand bucket
      | PutObjectCommand bucket _ _
      | DeleteBucketCommand bucket
      | ListObjectsV2Command bucket _
      | DeleteObjectCommand bucket _ => bucket = bucketName
      | SendMessageCommand queue _ _
      | GetQueueAttributesCommand queue _
      | ReceiveMessageCommand queue _ _
      | DeleteMessageCommand queue _
      | DeleteQueueCommand queue => queue = queueUrl
      | TerminateInstancesCommand instanceIds => instanceIds = [instanceId]
      | RunInstancesCommand _ _ _ _
      | DescribeInstancesCommand
      | ListBucketsCommand
      | CreateQueueCommand _
      | ListQueuesCommand => True
      end
  | _ => True
  end.

(** ** Termination *)

(** From the [N]-th reply on no reply is a truncated page, and [fuel]
    iterations are enough to get there. *)
Definition late (N fuel : nat) (w : World) : Prop :=
  (forall n page, (N <= n)%nat -> replies w n = Resolve page ->
                  ~ truncated page) /\
  (0 < fuel)%nat /\ (N < issued w + fuel)%nat.

(** From a world in [W], [m] does not run out of fuel and ends in [W]. *)
Definition safe {A} (W : World -> Prop) (m : M A) : Prop :=
  forall w, W w -> outcome (m w) <> Diverged /\ W (final (m w)).


(** [m] never fails on a read of [undefined]. *)
Definition guarded {A} (m : M A) : Prop :=
  forall w, outcome (m w) <> Threw TypeError.

(** Every reply is a truncated page. *)
Definition world_endless : World :=
  {| replies := fun _ => Resolve (listOutput None (Some true) (Some "token"));
     issued := 0;
     clock := fun n => 1725000000000 + Z.of_nat n;
     reads := 0 |}.

(** The first listing call of the purge is rejected. *)
Definition world_no_bucket : World := world_of [Reject "NoSuchBucket"].

(** A run that, if it throws, throws the rejection of the last call it made,
    no earlier call having been rejected. *)
Definition fails_by_rejection {A} (r : Run A) : Prop :=
  forall error, outcome r = Threw error ->
  exists pre client command reason,
    error = Rejected reason /\
    events r = pre ++ [Send client command (Reject reason)] /\
    Forall quiet pre.

Definition is_DeleteQueue (e : Event) : Prop :=
  match e with
  | Send _ (DeleteQueueCommand _) _ => True
  | _ => False
  end.

(** A page of three objects is listed; the first delete call is accepted, the
    second is rejected. *)
Definition three_objects : list S3Object :=
  [ {| Key := Some "a.txt" |}; {| Key := Some "b.txt" |};
    {| Key := Some "c.txt" |} ].

Definition world_second_refused : World :=
  world_of [ Resolve (listOutput (Some three_objects) (Some false) None);
             Resolve emptyResponse;
             Reject "AccessDenied" ].

(** The provider of [world_happy] a minute later. *)
Definition world_later : World :=
  {| replies := replies world_happy;
     issued := 0;
     clock := fun n => 1725000060000 + Z.of_nat n;
     reads := 0 |}.

Definition happy_teardown_events : list Event :=
  Eval vm_compute in
    events (P1.deleteResources demo_config 1 demo_instanceId demo_bucketName
              demo_queueUrl world_empty_bucket).

(** ** The skeleton of a run *)

(** The statements of [main] after the creation, p1.js:183-198 and
    part_000:202-217; [main_of_eq] ties the name to the function. *)
Definition after_creation (f : File) (cfg : Config) (fuel : nat)
  : option string * string * option string -> M unit :=
  match f with
  | p1_js => fun '(instanceId, bucketName, queueUrl) =>
      P1.listResources cfg;;
      P1.uploadFileToS3 cfg bucketName;;
      P1.sendMessageToSQS cfg queueUrl;;
      P1.checkSQSMessages cfg queueUrl;;
      P1.receiveSQSMessage cfg queueUrl;;
      P1.checkSQSMessages cfg queueUrl;;
      console_log "Waiting for 10 seconds...";;
      sleep 10000;;
      P1.deleteResources cfg fuel instanceId bucketName queueUrl;;
      console_log "Waiting for 1 minute...";;
      sleep 60000;;
      P1.listResources cfg
  | part_000 => fun '(instanceId, bucketName, queueUrl) =>
      Part000.listResources cfg;;
      Part000.uploadFileToS3 cfg bucketName;;
      Part000.sendMessageToSQS cfg queueUrl;;
      Part000.checkSQSMessages cfg queueUrl;;
      Part000.receiveSQSMessage cfg queueUrl;;
      Part000.checkSQSMessages cfg queueUrl;;
      console_log "Waiting for 10 seconds...";;
      sleep 10000;;
      Part000.deleteResources cfg fuel instanceId bucketName queueUrl;;
      console_log "Waiting for 20 seconds...";;
      sleep 20000;;
      Part000.listResources cfg
  end.

(** The steps of a run, seen through an observation that keeps some of them. *)
Definition seen {X} (obs : Step -> option X) (evs : list Event) : list X :=
  omap obs (steps evs).

(** Every run of [m] shows an initial part of [L], and all of [L] when it
    returns. *)
Definition exactly {X A} (obs : Step -> option X) (L : list X) (m : M A)
  : Prop :=
  forall w,
    seen obs (events (m w)) `prefix_of` L /\
    forall a, outcome (m w) = Returned a -> seen obs (events (m w)) = L.

(** The steps whose number does not depend on the replies: all but the
    acknowledgement of a received message and the calls of the purge loop. *)
Definition skeleton_of (s : Step) : option Step :=
  match s with
  | Call _ (DeleteMessageCommand _ _)
  | Call _ (ListObjectsV2Command _ _)
  | Call _ (DeleteObjectCommand _ _) => None
  | _ => Some s
  end.

(** The steps of [createResources] when it returns. *)
Definition creation_steps (cfg : Config) (w : World) : list Step :=
  [ Call (P1.ec2Client cfg) (RunInstancesCommand (ImageId cfg) "t2.micro" 1 1);
    Call (P1.s3Client cfg) (CreateBucketCommand (bucketName_at w));
    Call (P1.sqsClient cfg) (CreateQueueCommand (queueName_at w));
    Pause 60000 ].

(** ** Answers a run can work with *)

(** A call that was accepted and whose response carries what the script reads
    from it without a test: the first instance of a [RunInstances] response,
    the lists of the three listing responses as far as the file at hand reads
    them unguarded, the [Attributes] of a queue-attributes response and the
    [Title] attribute of a received message. *)
Definition well_answered (f : File) (e : Event) : Prop :=
  match e with
  | Send _ _ (Reject _) => False
  | Send _ command (Resolve response) =>
      match command with
      | RunInstancesCommand _ _ _ _ => is_Some (Instances response ≫= head)
      | DescribeInstancesCommand =>
          match f with
          | p1_js =>
              Forall complete_reservation (default [] (Reservations response))
          | part_000 =>
              exists reservations,
                Reservations response = Some reservations /\
                Forall (fun reservation =>
                          is_Some (Reservation_Instances reservation))
                  reservations
          end
      | ListBucketsCommand =>
          match f with
          | p1_js => True
          | part_000 => is_Some (Buckets response)
          end
      | ListQueuesCommand =>
          match f with
          | p1_js => True
          | part_000 => is_Some (QueueUrls response)
          end
      | GetQueueAttributesCommand _ _ => is_Some (Attributes response)
      | ReceiveMessageCommand _ _ _ =>
          forall message,
            Messages response ≫= head = Some message -> is_Some (Title message)
      | _ => True
      end
  | _ => True
  end.

(** [m] does not throw in a run in which every call is well answered. *)
Definition smooth {A} (f : File) (m : M A) : Prop :=
  forall w, Forall (well_answered f) (events (m w)) ->
            forall error, outcome (m w) <> Threw error.

Definition happy_events : list Event :=
  Eval vm_compute in events (P1.main demo_config 1 world_happy).

(** ** What the purge deletes *)

(** Every object-delete call of [evs] is for the bucket [bucketName] and names
    the key of an object on a page received earlier in [evs]. *)
Definition deletes_listed (bucketName : string) (evs : list Event) : Prop :=
  forall pre client bucket key reply post,
    evs = pre ++ Send client (DeleteObjectCommand bucket key) reply :: post ->
    bucket = bucketName /\
    exists page contents object,
      page ∈ pages_of pre /\ Contents page = Some contents /\
      object ∈ contents /\ Key object = key.

(** * Properties *)

(** ** Running the combinators *)

Lemma run_bind {A B} (m : M A) (k : A -> M B) (w : World) :
  (m ≫= k) w =
  match outcome (m w) with
  | Returned a => prefix (events (m w)) (k a (final (m w)))
  | Threw e => mkRun (Threw e) (final (m w)) (events (m w))
  | Diverged => mkRun Diverged (final (m w)) (events (m w))
  end.
Proof. reflexivity. Qed.

Lemma prefix_nil {A} (r : Run A) : prefix [] r = r.
Proof. by destruct r. Qed.

Lemma prefix_prefix {A} (evs evs' : list Event) (r : Run A) :
  prefix evs (prefix evs' r) = prefix (evs ++ evs') r.
Proof. unfold prefix. cbn. by rewrite app_assoc. Qed.

Lemma run_emit (e : Event) (w : World) : emit e w = mkRun (Returned ()) w [e].
Proof. reflexivity. Qed.

Lemma run_ret {A} (a : A) (w : World) :
  @mret M _ A a w = mkRun (Returned a) w [].
Proof. reflexivity. Qed.

Lemma run_send (client : Client) (command : Command) (w : World) :
  send client command w =
  match replies w (issued w) with
  | Resolve response =>
      mkRun (Returned response) (advance w)
        [Send client command (Resolve response)]
  | Reject reason =>
      mkRun (Threw (Rejected reason)) (advance w)
        [Send client command (Reject reason)]
  end.
Proof. unfold send. by destruct (replies w (issued w)). Qed.

Lemma bind_emit {B} (e : Event) (k : unit -> M B) (w : World) :
  (emit e ≫= k) w = prefix [e] (k () w).
Proof. reflexivity. Qed.

Lemma bind_ret {A B} (a : A) (k : A -> M B) (w : World) :
  (@mret M _ A a ≫= k) w = k a w.
Proof. rewrite run_bind. cbn. apply prefix_nil. Qed.

Lemma bind_throw {A B} (e : Error) (k : A -> M B) (w : World) :
  (throw e ≫= k) w = mkRun (Threw e) w [].
Proof. reflexivity. Qed.

Lemma bind_defined {A B} (x : option A) (k : A -> M B) (w : World) :
  (defined x ≫= k) w =
  match x with
  | Some a => k a w
  | None => mkRun (Threw TypeError) w []
  end.
Proof. destruct x; [apply bind_ret | reflexivity]. Qed.

Lemma bind_send {B} (client : Client) (command : Command)
    (k : Response -> M B) (w : World) :
  (send client command ≫= k) w =
  match replies w (issued w) with
  | Resolve response =>
      prefix [Send client command (Resolve response)] (k response (advance w))
  | Reject reason =>
      mkRun (Threw (Rejected reason)) (advance w)
        [Send client command (Reject reason)]
  end.
Proof. rewrite run_bind, run_send. by destruct (replies w (issued w)). Qed.

Lemma bind_Date_now {B} (k : Z -> M B) (w : World) :
  (Date_now ≫= k) w = k (clock w (reads w)) (tick w).
Proof. rewrite run_bind. cbn. apply prefix_nil. Qed.

Lemma bind_assoc {A B C} (m : M A) (k : A -> M B) (k' : B -> M C) (w : World) :
  ((m ≫= k) ≫= k') w = (m ≫= fun a => k a ≫= k') w.
Proof.
  rewrite (run_bind (m ≫= k)), (run_bind m k), (run_bind m).
  destruct (outcome (m w)) as [a| |]; [|done..].
  rewrite run_bind. cbn.
  destruct (outcome (k a (final (m w)))) as [b| |]; [|done..].
  by rewrite prefix_prefix.
Qed.

Ltac run_step :=
  first
    [ rewrite bind_assoc
    | rewrite bind_emit
    | rewrite bind_ret
    | rewrite bind_throw
    | rewrite bind_defined
    | rewrite bind_send
    | rewrite bind_Date_now
    | rewrite run_emit
    | rewrite run_ret
    | rewrite run_send
    | rewrite prefix_prefix ].

Ltac run :=
  unfold console_log, console_error, sleep;
  repeat (run_step; cbn beta iota zeta delta [head]).

Ltac case_reply :=
  match goal with
  | |- context [replies ?w (issued ?w)] =>
      let E := fresh "Ereply" in
      destruct (replies w (issued w)) as [?response|?reason] eqn:E
  end.

Ltac observe := cbn [prefix outcome final events app advance tick issued].

(** ** The two files agree outside [listResources] and [main] *)

Lemma receive_eq (f : File) : receiveSQSMessage_of f = P1.receiveSQSMessage.
Proof. destruct f; reflexivity. Qed.

Lemma sqsClient_eq (f : File) : sqsClient_of f = P1.sqsClient.
Proof. destruct f; reflexivity. Qed.

(** ** The queue round trip *)

(** C7: an empty response to the receive call is logged as an empty queue,
    no other provider call follows, and the routine returns normally. *)
Theorem receive_empty_queue (f : File) (cfg : Config) (queueUrl : option string)
    (w : World) (response : Response) :
  replies w (issued w) = Resolve response ->
  Messages response = None \/ Messages response = Some [] ->
  let r := receiveSQSMessage_of f cfg queueUrl w in
  outcome r = Returned () /\
  events r =
    [ ConsoleLog "Receiving message from SQS...";
      Send (sqsClient_of f cfg) (ReceiveMessageCommand queueUrl 1 ["All"])
        (Resolve response);
      ConsoleLog "No messages in the queue" ] /\
  issued (final r) = S (issued w).
Proof.
  intros Hreply Hempty. rewrite receive_eq, sqsClient_eq.
  unfold P1.receiveSQSMessage. run. rewrite Hreply.
  destruct Hempty as [-> | ->]; run; observe; auto.
Qed.

Lemma receive_empty_queue_witness :
  let r := P1.receiveSQSMessage demo_config demo_queueUrl world_empty_queue in
  outcome r = Returned () /\
  events r =
    [ ConsoleLog "Receiving message from SQS...";
      Send (P1.sqsClient demo_config)
        (ReceiveMessageCommand demo_queueUrl 1 ["All"])
        (Resolve (receiveOutput None));
      ConsoleLog "No messages in the queue" ] /\
  issued (final r) = 1%nat.
Proof.
  apply (receive_empty_queue p1_js demo_config demo_queueUrl world_empty_queue
           (receiveOutput None)).
  - reflexivity.
  - left. reflexivity.
Defined.

(** How [receiveSQSMessage] runs, by the reply to the receive call. *)
Lemma receive_run (cfg : Config) (queueUrl : option string) (w : World) :
  let receive := Send (P1.sqsClient cfg) (ReceiveMessageCommand queueUrl 1 ["All"]) in
  let hello := ConsoleLog "Receiving message from SQS..." in
  P1.receiveSQSMessage cfg queueUrl w =
  match replies w (issued w) with
  | Reject reason =>
      mkRun (Threw (Rejected reason)) (advance w) [hello; receive (Reject reason)]
  | Resolve response =>
      prefix [hello; receive (Resolve response)]
        match Messages response with
        | Some (message :: _) =>
            match Title message with
            | None => mkRun (Threw TypeError) (advance w) []
            | Some title =>
                prefix
                  [ ConsoleLog ("Message title: " +:+ template (StringValue title));
                    ConsoleLog ("Message body: " +:+ template (Body message)) ]
                  match replies w (S (issued w)) with
                  | Resolve response' =>
                      mkRun (Returned ()) (advance (advance w))
                        [Send (P1.sqsClient cfg)
                           (DeleteMessageCommand queueUrl (ReceiptHandle message))
                           (Resolve response')]
                  | Reject reason =>
                      mkRun (Threw (Rejected reason)) (advance (advance w))
                        [Send (P1.sqsClient cfg)
                           (DeleteMessageCommand queueUrl (ReceiptHandle message))
                           (Reject reason)]
                  end
            end
        | _ => mkRun (Returned ()) (advance w)
                 [ConsoleLog "No messages in the queue"]
        end
  end.
Proof.
  cbn zeta. unfold P1.receiveSQSMessage, Title. run.
  destruct (replies w (issued w)) as [response|reason]; [|done].
  rewrite prefix_prefix. cbn [app]. f_equal. destruct (Messages response) as [[|message rest]|]; run; try done.
  destruct (MessageAttributes message) as [attributes|]; cbn [mbind option_bind];
    [|done].
  destruct (attributes !! "Title") as [title|]; [|done].
  run. reflexivity.
Qed.

(** C3 (amended): a delete-by-receipt-handle call is issued if and only if
    the receive call returned at least one message and the first of them
    carries a Title attribute; the call then carries that message's receipt
    handle and follows the receive call directly. *)
Theorem receive_then_delete (f : File) (cfg : Config)
    (queueUrl : option string) (w : World) :
  let r := receiveSQSMessage_of f cfg queueUrl w in
  let msgs := returned_messages (events r) in
  (acks (events r) <> [] <->
   exists message, head msgs = Some message /\ is_Some (Title message)) /\
  (forall message, head msgs = Some message -> is_Some (Title message) ->
   calls (events r) =
     [ (sqsClient_of f cfg, ReceiveMessageCommand queueUrl 1 ["All"]);
       (sqsClient_of f cfg,
        DeleteMessageCommand queueUrl (ReceiptHandle message)) ]).
Proof.
  rewrite receive_eq, sqsClient_eq, receive_run. cbn zeta.
  destruct (replies w (issued w)) as [response|reason].
  2:{ cbn. split; [split; [done | intros (? & [=] & _)] | intros ? [=]]. }
  destruct (Messages response) as [[|message rest]|] eqn:EM.
  1,3: cbn; rewrite EM; cbn;
    (split; [split; [done | intros (? & [=] & _)] | intros ? [=]]).
  destruct (Title message) as [title|] eqn:ET.
  - destruct (replies w (S (issued w))); cbn; rewrite EM; cbn.
    all: split;
      [ split; [intros _; exists message; rewrite ET; eauto | done]
      | intros ? [= <-] _; reflexivity ].
  - cbn. rewrite EM. cbn. split; [split; [done|] | ].
    + intros (m & [= <-] & Hm). rewrite ET in Hm. by destruct Hm.
    + intros m [= <-] Hm. rewrite ET in Hm. by destruct Hm.
Qed.

Lemma receive_then_delete_witness :
  calls (events (P1.receiveSQSMessage demo_config demo_queueUrl world_titled)) =
    [ (P1.sqsClient demo_config, ReceiveMessageCommand demo_queueUrl 1 ["All"]);
      (P1.sqsClient demo_config,
       DeleteMessageCommand demo_queueUrl (ReceiptHandle titled_message)) ].
Proof.
  apply (proj2 (receive_then_delete p1_js demo_config demo_queueUrl world_titled)
           titled_message).
  - vm_compute. reflexivity.
  - vm_compute. eexists. reflexivity.
Defined.

(** C3 as stated fails: the receive call returned a message, it has no
    attributes, and no delete call was issued. *)
Lemma receive_then_delete_counterexample :
  let r := P1.receiveSQSMessage demo_config demo_queueUrl world_untitled in
  returned_messages (events r) = [untitled_message] /\
  ~ (acks (events r) <> [] <-> returned_messages (events r) <> []).
Proof.
  split.
  - vm_compute. reflexivity.
  - intros [_ H]. apply H; [discriminate | vm_compute; reflexivity].
Qed.

Lemma Title_None (message : Message) :
  Title message = None <->
  MessageAttributes message = None \/
  (exists attributes, MessageAttributes message = Some attributes /\
                      attributes !! "Title" = None).
Proof.
  unfold Title. destruct (MessageAttributes message) as [attributes|]; cbn.
  - split; [eauto | intros [[=] | (a & [= <-] & H)]; done].
  - split; auto.
Qed.

(** C9: the Title attribute of the received message is read without a guard.
    When the first returned message has no attributes or no Title attribute
    the routine throws a [TypeError] after the receive call and issues no
    delete call; when the routine returns normally, the message it received
    carries a Title attribute, hence every returned message does when the
    provider honours [MaxNumberOfMessages: 1]. *)
Theorem receive_requires_Title (f : File) (cfg : Config)
    (queueUrl : option string) (w : World) :
  let r := receiveSQSMessage_of f cfg queueUrl w in
  let msgs := returned_messages (events r) in
  (forall message, head msgs = Some message ->
     MessageAttributes message = None \/
     (exists attributes, MessageAttributes message = Some attributes /\
                         attributes !! "Title" = None) ->
     outcome r = Threw TypeError /\
     calls (events r) =
       [ (sqsClient_of f cfg, ReceiveMessageCommand queueUrl 1 ["All"]) ] /\
     acks (events r) = []) /\
  (outcome r = Returned () ->
   (forall message, head msgs = Some message -> is_Some (Title message)) /\
   ((length msgs <= 1)%nat ->
    Forall (fun message => is_Some (Title message)) msgs)).
Proof.
  rewrite receive_eq, sqsClient_eq, receive_run. cbn zeta.
  destruct (replies w (issued w)) as [response|reason].
  2:{ cbn. split; [intros ? [=] | discriminate]. }
  destruct (Messages response) as [[|message rest]|] eqn:EM.
  1,3: cbn; rewrite EM; cbn;
    (split; [intros ? [=] | intros _; split; [intros ? [=] | constructor]]).
  destruct (Title message) as [title|] eqn:ET.
  - destruct (replies w (S (issued w))); cbn; rewrite EM; cbn.
    + split.
      * intros m [= <-] Hm%Title_None. congruence.
      * intros _. split.
        -- intros m [= <-]. rewrite ET. eauto.
        -- intros Hlen. destruct rest; [|cbn in Hlen; lia].
           repeat constructor. rewrite ET. eauto.
    + split; [|discriminate].
      intros m [= <-] Hm%Title_None. congruence.
  - cbn. rewrite EM. cbn. split; [|discriminate].
    intros m [= <-] _. auto.
Qed.

Lemma receive_requires_Title_witness :
  (let r := P1.receiveSQSMessage demo_config demo_queueUrl world_untitled in
   outcome r = Threw TypeError /\
   calls (events r) =
     [ (P1.sqsClient demo_config,
        ReceiveMessageCommand demo_queueUrl 1 ["All"]) ] /\
   acks (events r) = []) /\
  (let r := P1.receiveSQSMessage demo_config demo_queueUrl world_titled in
   Forall (fun message => is_Some (Title message))
     (returned_messages (events r))).
Proof.
  split.
  - apply (proj1 (receive_requires_Title p1_js demo_config demo_queueUrl
                    world_untitled) untitled_message).
    + vm_compute. reflexivity.
    + left. reflexivity.
  - apply (proj2 (receive_requires_Title p1_js demo_config demo_queueUrl
                    world_titled)).
    + vm_compute. reflexivity.
    + vm_compute. lia.
Defined.

(** ** The purge loop *)

Lemma s3Client_eq (f : File) : s3Client_of f = P1.s3Client.
Proof. destruct f; reflexivity. Qed.

Lemma ec2Client_eq (f : File) : ec2Client_of f = P1.ec2Client.
Proof. destruct f; reflexivity. Qed.

Lemma deleteResources_eq (f : File) (cfg : Config) (fuel : nat)
    (instanceId : option string) (bucketName : string)
    (queueUrl : option string) :
  deleteResources_of f cfg fuel instanceId bucketName queueUrl =
  (console_log "Deleting resources...";;
   purge (s3Client_of f cfg) fuel bucketName (Some true, None);;
   teardown (ec2Client_of f cfg) (s3Client_of f cfg) (sqsClient_of f cfg)
     instanceId bucketName queueUrl).
Proof. destruct f; reflexivity. Qed.

Lemma pages_of_app (evs evs' : list Event) :
  pages_of (evs ++ evs') = pages_of evs ++ pages_of evs'.
Proof. apply omap_app. Qed.

Lemma calls_app (evs evs' : list Event) :
  calls (evs ++ evs') = calls evs ++ calls evs'.
Proof. apply omap_app. Qed.

Section PurgeLoop.
Variables (s3Client : Client) (bucketName : string).

Lemma delete_objects_cons (object : S3Object) (contents : list S3Object)
    (w : World) :
  delete_objects s3Client bucketName (object :: contents) w =
  match replies w (issued w) with
  | Resolve response =>
      prefix
        [ Send s3Client (DeleteObjectCommand bucketName (Key object))
            (Resolve response);
          ConsoleLog ("Deleted object: " +:+ template (Key object)) ]
        (delete_objects s3Client bucketName contents (advance w))
  | Reject reason =>
      mkRun (Threw (Rejected reason)) (advance w)
        [ Send s3Client (DeleteObjectCommand bucketName (Key object))
            (Reject reason) ]
  end.
Proof.
  unfold delete_objects at 1. cbn [forEach]. run.
  destruct (replies w (issued w)); [|done]. by rewrite prefix_prefix.
Qed.

Lemma delete_objects_pages (contents : list S3Object) (w : World) :
  pages_of (events (delete_objects s3Client bucketName contents w)) = [].
Proof.
  revert w. induction contents as [|object contents IH]; intros w; [done|].
  rewrite delete_objects_cons. case_reply; [|done]. cbn. apply IH.
Qed.

Lemma delete_objects_calls (contents : list S3Object) (w : World) :
  outcome (delete_objects s3Client bucketName contents w) = Returned () ->
  calls (events (delete_objects s3Client bucketName contents w)) =
  (fun object => (s3Client, DeleteObjectCommand bucketName (Key object)))
    <$> contents.
Proof.
  revert w. induction contents as [|object contents IH]; intros w; [done|].
  rewrite delete_objects_cons. case_reply; [|done]. cbn.
  intros H. f_equal. by apply IH.
Qed.

Lemma delete_objects_terminates (contents : list S3Object) (w : World) :
  outcome (delete_objects s3Client bucketName contents w) <> Diverged.
Proof.
  revert w. induction contents as [|object contents IH]; intros w; [done|].
  rewrite delete_objects_cons. case_reply; [|done]. cbn. apply IH.
Qed.

Lemma delete_objects_frame (contents : list S3Object) (w : World) :
  replies (final (delete_objects s3Client bucketName contents w)) = replies w /\
  (issued w <= issued (final (delete_objects s3Client bucketName contents w)))%nat.
Proof.
  revert w. induction contents as [|object contents IH]; intros w; [done|].
  rewrite delete_objects_cons. case_reply; cbn; [|split; [done|lia]].
  destruct (IH (advance w)) as [-> Hle]. cbn in Hle. split; [done|lia].
Qed.

Lemma delete_objects_events (contents : list S3Object) (w : World) :
  Forall (purge_event s3Client bucketName)
    (events (delete_objects s3Client bucketName contents w)).
Proof.
  revert w. induction contents as [|object contents IH]; intros w;
    [constructor|].
  rewrite delete_objects_cons. case_reply; cbn.
  - repeat (constructor; [done|]). apply IH.
  - by repeat constructor.
Qed.

(** One iteration of the loop, by how the listing call settles. *)
Lemma purge_body_run (st : option bool * option string) (w : World) :
  let call := Send s3Client (ListObjectsV2Command bucketName st.2) in
  match replies w (issued w) with
  | Reject reason =>
      purge_body s3Client bucketName st w =
      mkRun (Threw (Rejected reason)) (advance w) [call (Reject reason)]
  | Resolve page =>
      let r := purge_body s3Client bucketName st w in
      let d := delete_objects s3Client bucketName
                 (default [] (Contents page)) (advance w) in
      events r = call (Resolve page) :: events d /\
      final r = final d /\
      outcome r =
        match outcome d with
        | Returned _ => Returned (IsTruncated page, NextContinuationToken page)
        | Threw e => Threw e
        | Diverged => Diverged
        end
  end.
Proof.
  destruct st as [flag token]. cbn. unfold purge_body. run.
  destruct (replies w (issued w)) as [page|reason]; [|done].
  rewrite run_bind.
  destruct (Contents page) as [contents|]; cbn [default].
  - destruct (outcome (delete_objects _ _ _ _)) as [[]| |]; cbn;
      rewrite ?app_nil_r; done.
  - done.
Qed.

Lemma purge_O (st : option bool * option string) (w : World) :
  purge s3Client 0 bucketName st w =
  if purge_cond st then diverge w else ret st w.
Proof. unfold purge. cbn [while]. by destruct (purge_cond st). Qed.

Lemma purge_S (fuel : nat) (st : option bool * option string) (w : World) :
  purge s3Client (S fuel) bucketName st w =
  if purge_cond st
  then (purge_body s3Client bucketName st
        ≫= purge s3Client fuel bucketName) w
  else ret st w.
Proof. unfold purge. cbn [while]. by destruct (purge_cond st). Qed.

Lemma truthy_truncated (page : Response) :
  truthy (IsTruncated page) = true <-> truncated page.
Proof.
  unfold truncated. destruct (IsTruncated page) as [[]|]; cbn; split; congruence.
Qed.

(** When the loop returns, its trace is a sequence of pages of which all but
    the last are truncated, fetched and emptied one after the other. *)
Lemma purge_returned (fuel : nat) (st st' : option bool * option string)
    (w : World) :
  outcome (purge s3Client fuel bucketName st w) = Returned st' ->
  if purge_cond st then
    exists init fin,
      pages_of (events (purge s3Client fuel bucketName st w)) = init ++ [fin] /\
      Forall truncated init /\ ~ truncated fin /\
      calls (events (purge s3Client fuel bucketName st w)) =
        purge_calls s3Client bucketName st.2 (init ++ [fin])
  else events (purge s3Client fuel bucketName st w) = [].
Proof.
  revert st w. induction fuel as [|fuel IH]; intros st w.
  - rewrite purge_O. destruct (purge_cond st); [discriminate|done].
  - rewrite purge_S. destruct (purge_cond st) eqn:Hcond; [|done].
    rewrite run_bind.
    pose proof (purge_body_run st w) as Hbody. cbn zeta in Hbody.
    destruct (replies w (issued w)) as [page|reason].
    2:{ rewrite Hbody. discriminate. }
    destruct Hbody as (Hev & Hfin & Hout).
    pose proof (delete_objects_calls (default [] (Contents page)) (advance w))
      as Hcalls.
    pose proof (delete_objects_pages (default [] (Contents page)) (advance w))
      as Hpages.
    rewrite Hout, Hev, Hfin.
    destruct (outcome (delete_objects s3Client bucketName
                (default [] (Contents page)) (advance w))) as [[]| |];
      [|discriminate..].
    cbn [prefix outcome events final]. intros Hrest.
    specialize (IH _ _ Hrest). cbn [purge_cond] in IH.
    rewrite pages_of_app, calls_app.
    replace (pages_of (_ :: _)) with [page]
      by (cbn; unfold pages_of in Hpages; by rewrite Hpages).
    replace (calls (_ :: _))
      with (page_calls s3Client bucketName st.2 page)
      by (unfold page_calls; cbn; f_equal; symmetry; by apply Hcalls).
    destruct (truthy (IsTruncated page)) eqn:Htr.
    + destruct IH as (init & fin & -> & Hinit & Hfin' & ->).
      exists (page :: init), fin. split_and!; try done.
      constructor; [by apply truthy_truncated | done].
    + rewrite IH. exists [], page. rewrite !app_nil_r. split_and!; try done.
      * intros Ht%truthy_truncated. congruence.
      * cbn. by rewrite app_nil_r.
Qed.

(** Whatever its outcome, the loop issues listing and object-delete calls on
    the bucket and nothing else. *)
Lemma purge_events (fuel : nat) (st : option bool * option string) (w : World) :
  Forall (purge_event s3Client bucketName)
    (events (purge s3Client fuel bucketName st w)).
Proof.
  revert st w. induction fuel as [|fuel IH]; intros st w.
  - rewrite purge_O. destruct (purge_cond st); constructor.
  - rewrite purge_S. destruct (purge_cond st); [|constructor].
    rewrite run_bind.
    pose proof (purge_body_run st w) as Hbody. cbn zeta in Hbody.
    destruct (replies w (issued w)) as [page|reason].
    2:{ rewrite Hbody. cbn. by repeat constructor. }
    destruct Hbody as (Hev & Hfin & Hout).
    assert (Forall (purge_event s3Client bucketName)
              (events (purge_body s3Client bucketName st w))) as Hb.
    { rewrite Hev. constructor; [done|]. apply delete_objects_events. }
    destruct (outcome (purge_body s3Client bucketName st w)); cbn; try done.
    apply Forall_app. split; [done | apply IH].
Qed.

(** The loop does not run out of fuel when, from the [N]-th reply on, no
    reply is a truncated page, and the fuel covers the replies before. *)
Lemma purge_terminates (N fuel : nat) (st : option bool * option string)
    (w : World) :
  (forall n page, (N <= n)%nat -> replies w n = Resolve page ->
                  ~ truncated page) ->
  (purge_cond st = true -> (0 < fuel)%nat /\ (N < issued w + fuel)%nat) ->
  outcome (purge s3Client fuel bucketName st w) <> Diverged.
Proof.
  intros Hlate. revert st w Hlate.
  induction fuel as [|fuel IH]; intros st w Hlate Hfuel.
  - rewrite purge_O. destruct (purge_cond st); [|done].
    destruct Hfuel; [done|lia].
  - rewrite purge_S. destruct (purge_cond st); [|done].
    destruct Hfuel as [_ Hfuel]; [done|].
    rewrite run_bind.
    pose proof (purge_body_run st w) as Hbody. cbn zeta in Hbody.
    destruct (replies w (issued w)) as [page|reason] eqn:Ereply.
    2:{ rewrite Hbody. done. }
    destruct Hbody as (Hev & Hfin & Hout).
    rewrite Hout, Hfin.
    pose proof (delete_objects_terminates (default [] (Contents page))
                  (advance w)) as Hterm.
    pose proof (delete_objects_frame (default [] (Contents page))
                  (advance w)) as [Hrep Hiss].
    destruct (outcome (delete_objects s3Client bucketName
                (default [] (Contents page)) (advance w))) as [[]| |];
      [|done..].
    cbn [prefix outcome final] in *. apply IH.
    + intros n page' Hn. rewrite Hrep. by apply Hlate.
    + cbn [purge_cond]. intros Htr%truthy_truncated.
      destruct (decide (N <= issued w)%nat) as [Hle|Hgt].
      * by destruct (Hlate _ _ Hle Ereply).
      * cbn in Hiss. split; lia.
Qed.

End PurgeLoop.

(** ** [deleteResources] *)

Ltac not_events :=
  repeat first
    [ apply List.Forall_nil
    | apply List.Forall_cons; [cbn; tauto|] ].

Section Teardown.
Variables (ec2Client s3Client sqsClient : Client).
Variables (instanceId : option string) (bucketName : string)
  (queueUrl : option string).

Let terminate := Send ec2Client (TerminateInstancesCommand [instanceId]).
Let deleteBucket := Send s3Client (DeleteBucketCommand bucketName).
Let deleteQueue := Send sqsClient (DeleteQueueCommand queueUrl).

Lemma teardown_run (w : World) :
  teardown ec2Client s3Client sqsClient instanceId bucketName queueUrl w =
  match replies w (issued w) with
  | Reject reason =>
      mkRun (Threw (Rejected reason)) (advance w) [terminate (Reject reason)]
  | Resolve r1 =>
      prefix
        [ terminate (Resolve r1);
          ConsoleLog ("EC2 instance " +:+ template instanceId
                      +:+ " termination initiated") ]
        match replies w (S (issued w)) with
        | Reject reason =>
            mkRun (Threw (Rejected reason)) (advance (advance w))
              [deleteBucket (Reject reason)]
        | Resolve r2 =>
            prefix
              [ deleteBucket (Resolve r2);
                ConsoleLog ("S3 bucket " +:+ bucketName +:+ " deleted") ]
              match replies w (S (S (issued w))) with
              | Reject reason =>
                  mkRun (Threw (Rejected reason))
                    (advance (advance (advance w)))
                    [deleteQueue (Reject reason)]
              | Resolve r3 =>
                  mkRun (Returned ()) (advance (advance (advance w)))
                    [ deleteQueue (Resolve r3);
                      ConsoleLog ("SQS queue " +:+ template queueUrl
                                  +:+ " deleted") ]
              end
        end
  end.
Proof.
  unfold teardown. run. subst terminate deleteBucket deleteQueue.
  destruct (replies w (issued w)); [|done]. run.
  cbn [advance replies issued].
  destruct (replies w (S (issued w))); [|done]. run.
  cbn [advance replies issued].
  destruct (replies w (S (S (issued w)))); done.
Qed.

(** The events of the teardown: the terminate call comes first, the
    bucket-delete call, if any, is the second call and the only one. *)
Lemma teardown_events (w : World) :
  exists reply rest,
    events (teardown ec2Client s3Client sqsClient instanceId bucketName
              queueUrl w) = terminate reply :: rest /\
    pages_of rest = [] /\
    Forall (fun e => ~ is_Terminate e) rest /\
    (Forall (fun e => ~ is_DeleteBucket e) rest \/
     exists line reply' rest',
       rest = ConsoleLog line :: deleteBucket reply' :: rest' /\
       pages_of rest' = [] /\
       Forall (fun e => ~ is_DeleteBucket e) rest').
Proof.
  rewrite teardown_run. unfold terminate, deleteBucket, deleteQueue.
  destruct (replies w (issued w)); cbn.
  2:{ eexists _, []. split_and!; [done..|]. left. constructor. }
  eexists _, _. split; [done|].
  destruct (replies w (S (issued w))); cbn.
  2:{ split_and!; [done|not_events|]. right.
      eexists _, _, []. split_and!; [done..|constructor]. }
  destruct (replies w (S (S (issued w)))); cbn.
  all: split_and!; [done|not_events|]; right;
    eexists _, _, _; split_and!; [done..|not_events].
Qed.

End Teardown.

Lemma unique_split {A} (Q : A -> Prop) (a c pre post : list A) (x y : A) :
  a ++ x :: c = pre ++ y :: post ->
  Forall (fun e => ~ Q e) a -> Forall (fun e => ~ Q e) c -> Q y ->
  pre = a /\ y = x /\ post = c.
Proof.
  revert pre. induction a as [|e a IH]; intros pre Heq Ha Hc Hy.
  - destruct pre as [|e' pre]; cbn in Heq.
    + by injection Heq as <- <-.
    + injection Heq as <- ->. apply Forall_app in Hc as [_ Hc].
      by apply Forall_cons in Hc as [? _].
  - apply Forall_cons in Ha as [He Ha].
    destruct pre as [|e' pre]; cbn in Heq.
    + injection Heq as -> _. done.
    + injection Heq as <- Heq. destruct (IH _ Heq) as (-> & -> & ->); done.
Qed.

Lemma purge_event_not_Terminate (s3Client : Client) (bucketName : string)
    (evs : list Event) :
  Forall (purge_event s3Client bucketName) evs ->
  Forall (fun e => ~ is_Terminate e) evs /\
  Forall (fun e => ~ is_DeleteBucket e) evs.
Proof.
  intros H. split; (eapply Forall_impl; [exact H|]).
  all: intros [client [] reply|ms|line|label error]; cbn; tauto.
Qed.

(** How [deleteResources] runs: the log line, the loop, and the teardown
    when the loop returns. *)
Lemma deleteResources_run (f : File) (cfg : Config) (fuel : nat)
    (instanceId : option string) (bucketName : string)
    (queueUrl : option string) (w : World) :
  let loop := purge (s3Client_of f cfg) fuel bucketName (Some true, None) w in
  deleteResources_of f cfg fuel instanceId bucketName queueUrl w =
  prefix [ConsoleLog "Deleting resources..."]
    match outcome loop with
    | Returned _ =>
        prefix (events loop)
          (teardown (ec2Client_of f cfg) (s3Client_of f cfg)
             (sqsClient_of f cfg) instanceId bucketName queueUrl (final loop))
    | Threw e => mkRun (Threw e) (final loop) (events loop)
    | Diverged => mkRun Diverged (final loop) (events loop)
    end.
Proof.
  cbn zeta. rewrite deleteResources_eq. unfold console_log.
  rewrite bind_emit. reflexivity.
Qed.

Lemma purge_calls_complete (s3Client : Client) (bucketName : string)
    (token : option string) (pages : list Response) (page : Response)
    (contents : list S3Object) (object : S3Object) :
  page ∈ pages -> Contents page = Some contents -> object ∈ contents ->
  (s3Client, DeleteObjectCommand bucketName (Key object))
    ∈ purge_calls s3Client bucketName token pages.
Proof.
  intros Hpage Hcontents Hobject. revert token.
  induction Hpage as [page pages|page page' pages Hpage IH]; intros token;
    cbn [purge_calls]; apply elem_of_app.
  - left. unfold page_calls. rewrite Hcontents. cbn [default].
    apply elem_of_cons. right.
    by apply (list_elem_of_fmap_2
                (fun o => (s3Client, DeleteObjectCommand bucketName (Key o)))).
  - right. by apply IH.
Qed.

Lemma pages_of_log (line : string) (evs : list Event) :
  pages_of (ConsoleLog line :: evs) = pages_of evs.
Proof. reflexivity. Qed.

Lemma calls_log (line : string) (evs : list Event) :
  calls (ConsoleLog line :: evs) = calls evs.
Proof. reflexivity. Qed.

Lemma not_truncated_final (page : Response) :
  ~ truncated page -> final_page page.
Proof.
  unfold truncated, final_page.
  destruct (IsTruncated page) as [[]|]; intros H; auto. by destruct H.
Qed.

(** What precedes the teardown in a run of [deleteResources] that gets to
    it: the log line and a loop that returned. *)
Lemma before_terminate (f : File) (cfg : Config) (fuel : nat)
    (instanceId : option string) (bucketName : string)
    (queueUrl : option string) (w : World)
    (pre post : list Event) (e : Event) :
  events (deleteResources_of f cfg fuel instanceId bucketName queueUrl w) =
    pre ++ e :: post ->
  is_Terminate e ->
  exists st',
    outcome (purge (s3Client_of f cfg) fuel bucketName (Some true, None) w)
      = Returned st' /\
    pre = ConsoleLog "Deleting resources..."
          :: events (purge (s3Client_of f cfg) fuel bucketName
                       (Some true, None) w) /\
    post = tail (events
             (teardown (ec2Client_of f cfg) (s3Client_of f cfg)
                (sqsClient_of f cfg) instanceId bucketName queueUrl
                (final (purge (s3Client_of f cfg) fuel bucketName
                          (Some true, None) w)))).
Proof.
  rewrite deleteResources_run. cbn zeta.
  pose proof (purge_events (s3Client_of f cfg) bucketName fuel
                (Some true, None) w) as Hloop.
  apply purge_event_not_Terminate in Hloop as [Hloop _].
  set (loop := purge _ _ _ _ _) in *.
  destruct (outcome loop) as [st'| |]; cbn [prefix events app].
  - destruct (teardown_events (ec2Client_of f cfg) (s3Client_of f cfg)
                (sqsClient_of f cfg) instanceId bucketName queueUrl
                (final loop)) as (reply & rest & -> & _ & Hrest & _).
    intros Heq He. rewrite app_comm_cons in Heq.
    apply (unique_split is_Terminate) in Heq as (-> & _ & ->); try done.
    + eauto.
    + constructor; [cbn; tauto | done].
  - intros Heq He.
    assert (Forall (fun e => ~ is_Terminate e) (pre ++ e :: post)) as Hall.
    { rewrite <- Heq. constructor; [cbn; tauto | done]. }
    apply Forall_app in Hall as [_ Hall]. by apply Forall_cons in Hall as [? _].
  - intros Heq He.
    assert (Forall (fun e => ~ is_Terminate e) (pre ++ e :: post)) as Hall.
    { rewrite <- Heq. constructor; [cbn; tauto | done]. }
    apply Forall_app in Hall as [_ Hall]. by apply Forall_cons in Hall as [? _].
Qed.

(** C1 (amended): the purge loop lists the bucket page by page, each listing
    call carrying the continuation token of the page before it, and is left
    only after a page whose truncation flag is false or absent; by the time
    the next statement runs every object of every listed page has had its
    own delete call. *)
Theorem purge_exhaustive (f : File) (cfg : Config) (fuel : nat)
    (instanceId : option string) (bucketName : string)
    (queueUrl : option string) (w : World)
    (pre post : list Event) (reply : Settled) :
  events (deleteResources_of f cfg fuel instanceId bucketName queueUrl w) =
    pre ++ Send (ec2Client_of f cfg) (TerminateInstancesCommand [instanceId])
             reply :: post ->
  exists init fin,
    pages_of pre = init ++ [fin] /\
    Forall truncated init /\
    final_page fin /\
    calls pre = purge_calls (s3Client_of f cfg) bucketName None (init ++ [fin]) /\
    forall page contents object,
      page ∈ init ++ [fin] -> Contents page = Some contents ->
      object ∈ contents ->
      (s3Client_of f cfg, DeleteObjectCommand bucketName (Key object))
        ∈ calls pre.
Proof.
  intros Heq. apply before_terminate in Heq as (st' & Hout & -> & _); [|done].
  apply purge_returned in Hout. cbn [purge_cond truthy] in Hout.
  destruct Hout as (init & fin & Hpages & Hinit & Hfin & Hcalls).
  exists init, fin. rewrite pages_of_log, calls_log.
  rewrite Hpages, Hcalls. split_and!; try done.
  - by apply not_truncated_final.
  - intros page contents object. apply purge_calls_complete.
Qed.

Lemma purge_exhaustive_witness :
  exists init fin,
    pages_of (take 9 two_pages_events) = init ++ [fin] /\
    Forall truncated init /\
    final_page fin /\
    calls (take 9 two_pages_events) =
      purge_calls (s3Client_of p1_js demo_config) demo_bucketName None
        (init ++ [fin]) /\
    forall page contents object,
      page ∈ init ++ [fin] -> Contents page = Some contents ->
      object ∈ contents ->
      (s3Client_of p1_js demo_config,
       DeleteObjectCommand demo_bucketName (Key object))
        ∈ calls (take 9 two_pages_events).
Proof.
  apply (purge_exhaustive p1_js demo_config 2 demo_instanceId demo_bucketName
           demo_queueUrl world_two_pages (take 9 two_pages_events)
           (drop 10 two_pages_events) (Resolve emptyResponse)).
  vm_compute. reflexivity.
Defined.

(** C1 as stated fails: the listing response carries no truncation flag, the
    loop is left all the same and the teardown runs; no listing response of
    the run has a flag that is false. *)
Lemma purge_exhaustive_counterexample :
  let r := P1.deleteResources demo_config 1 demo_instanceId demo_bucketName
             demo_queueUrl world_absent_flag in
  calls (events r) =
    [ (P1.s3Client demo_config, ListObjectsV2Command demo_bucketName None);
      (P1.s3Client demo_config,
       DeleteObjectCommand demo_bucketName (Some "CSE546test.txt"));
      (P1.ec2Client demo_config, TerminateInstancesCommand [demo_instanceId]);
      (P1.s3Client demo_config, DeleteBucketCommand demo_bucketName);
      (P1.sqsClient demo_config, DeleteQueueCommand demo_queueUrl) ] /\
  pages_of (events r) = [listOutput (Some [uploaded_object]) None None] /\
  ~ Exists (fun page => IsTruncated page = Some false) (pages_of (events r)).
Proof.
  assert (pages_of (events (P1.deleteResources demo_config 1 demo_instanceId
                              demo_bucketName demo_queueUrl world_absent_flag))
          = [listOutput (Some [uploaded_object]) None None]) as Hpages
    by (vm_compute; reflexivity).
  cbn zeta. split_and!.
  - vm_compute. reflexivity.
  - exact Hpages.
  - rewrite Hpages. intros [H|H]%Exists_cons; [discriminate H|].
    by apply Exists_nil in H.
Qed.

Lemma truncated_followed (pre pre1 pre2 : list Event) (e : Event)
    (init : list Response) (fin page : Response) :
  pages_of pre = init ++ [fin] -> final_page fin ->
  pre = pre1 ++ e :: pre2 -> page_of e = Some page -> truncated page ->
  fin ∈ pages_of pre2.
Proof.
  intros Hpages Hfin -> He Hpage.
  assert (last (pages_of (pre1 ++ e :: pre2)) = Some fin) as Hlast
    by (rewrite Hpages; apply last_snoc).
  rewrite pages_of_app in Hlast. unfold pages_of at 2 in Hlast.
  cbn [omap list_omap] in Hlast. rewrite He in Hlast.
  fold (pages_of pre2) in Hlast.
  rewrite last_app_cons, last_cons in Hlast.
  destruct (last (pages_of pre2)) as [page'|] eqn:Hl.
  - injection Hlast as ->. by apply last_Some_elem_of.
  - injection Hlast as ->. unfold truncated in Hpage.
    destruct Hfin; congruence.
Qed.

(** C2 (amended): the bucket-delete call is issued only after the purge loop
    has been left, that is after a listing response whose truncation flag is
    false or absent; every truncated page received before the call is
    followed, still before the call, by that final page, and no listing
    takes place after the call. *)
Theorem bucket_deleted_after_purge (f : File) (cfg : Config) (fuel : nat)
    (instanceId : option string) (bucketName : string)
    (queueUrl : option string) (w : World)
    (pre post : list Event) (reply : Settled) :
  events (deleteResources_of f cfg fuel instanceId bucketName queueUrl w) =
    pre ++ Send (s3Client_of f cfg) (DeleteBucketCommand bucketName) reply
        :: post ->
  exists init fin,
    pages_of pre = init ++ [fin] /\
    Forall truncated init /\
    final_page fin /\
    (forall pre1 e pre2 page,
       pre = pre1 ++ e :: pre2 -> page_of e = Some page -> truncated page ->
       fin ∈ pages_of pre2) /\
    pages_of post = [].
Proof.
  rewrite deleteResources_run. cbn zeta.
  pose proof (purge_events (s3Client_of f cfg) bucketName fuel
                (Some true, None) w) as Hloop.
  apply purge_event_not_Terminate in Hloop as [_ Hloop].
  pose proof (purge_returned (s3Client_of f cfg) bucketName fuel
                (Some true, None)) as Hret.
  specialize (fun st' => Hret st' w).
  set (loop := purge _ _ _ _ _) in *.
  assert (forall evs, Forall (fun e => ~ is_DeleteBucket e) evs ->
            evs = pre ++ Send (s3Client_of f cfg)
                           (DeleteBucketCommand bucketName) reply :: post ->
            False) as Habsurd.
  { intros evs Hall ->. apply Forall_app in Hall as [_ Hall].
    apply Forall_cons in Hall as [Hall _]. by apply Hall. }
  destruct (outcome loop) as [st'| |]; cbn [prefix events app].
  2,3: intros Heq; exfalso; refine (Habsurd _ _ Heq);
    (constructor; [cbn; tauto | done]).
  destruct (teardown_events (ec2Client_of f cfg) (s3Client_of f cfg)
              (sqsClient_of f cfg) instanceId bucketName queueUrl
              (final loop))
    as (reply0 & rest & -> & _ & _ & [Hrest | (line & reply' & rest' & -> & Hp & Hrest)]).
  { intros Heq. exfalso. refine (Habsurd _ _ Heq).
    constructor; [cbn; tauto|].
    apply Forall_app; split; [done|]. constructor; [cbn; tauto | done]. }
  intros Heq.
  change (ConsoleLog "Deleting resources..."
          :: events loop
             ++ Send (ec2Client_of f cfg)
                  (TerminateInstancesCommand [instanceId]) reply0
                :: ConsoleLog line
                   :: Send (s3Client_of f cfg)
                        (DeleteBucketCommand bucketName) reply' :: rest')
    with ((ConsoleLog "Deleting resources..." :: events loop)
          ++ [Send (ec2Client_of f cfg)
                (TerminateInstancesCommand [instanceId]) reply0;
              ConsoleLog line]
          ++ Send (s3Client_of f cfg) (DeleteBucketCommand bucketName) reply'
             :: rest') in Heq.
  rewrite app_assoc in Heq.
  apply (unique_split is_DeleteBucket) in Heq as (-> & _ & ->); try done.
  2:{ apply Forall_app. split; [constructor; [cbn; tauto | done]|].
      not_events. }
  destruct (Hret st' eq_refl) as (init & fin & Hpages & Hinit & Hfin & _).
  apply not_truncated_final in Hfin.
  assert (pages_of ((ConsoleLog "Deleting resources..." :: events loop)
                    ++ [Send (ec2Client_of f cfg)
                          (TerminateInstancesCommand [instanceId]) reply0;
                        ConsoleLog line]) = init ++ [fin]) as Hpre.
  { rewrite pages_of_app, pages_of_log, Hpages. cbn. by rewrite app_nil_r. }
  exists init, fin. split_and!; try done.
  intros pre1 e pre2 page. by apply truncated_followed with init.
Qed.

Lemma bucket_deleted_after_purge_witness :
  exists init fin,
    pages_of (take 11 two_pages_events) = init ++ [fin] /\
    Forall truncated init /\
    final_page fin /\
    (forall pre1 e pre2 page,
       take 11 two_pages_events = pre1 ++ e :: pre2 ->
       page_of e = Some page -> truncated page -> fin ∈ pages_of pre2) /\
    pages_of (drop 12 two_pages_events) = [].
Proof.
  apply (bucket_deleted_after_purge p1_js demo_config 2 demo_instanceId
           demo_bucketName demo_queueUrl world_two_pages
           (take 11 two_pages_events) (drop 12 two_pages_events)
           (Resolve emptyResponse)).
  vm_compute. reflexivity.
Defined.

(** C2 as stated fails: the bucket-delete call is issued although no listing
    response before it reported a truncation flag that is false; the one
    response received carries no flag at all. *)
Lemma bucket_deleted_after_purge_counterexample :
  events (P1.deleteResources demo_config 1 demo_instanceId demo_bucketName
            demo_queueUrl world_bare) =
    take 4 bare_events
    ++ Send (P1.s3Client demo_config) (DeleteBucketCommand demo_bucketName)
         (Resolve emptyResponse)
    :: drop 5 bare_events /\
  pages_of (take 4 bare_events) = [emptyResponse] /\
  ~ Exists (fun page => IsTruncated page = Some false)
      (pages_of (take 4 bare_events)).
Proof.
  assert (pages_of (take 4 bare_events) = [emptyResponse]) as Hpages
    by (vm_compute; reflexivity).
  split_and!.
  - vm_compute. reflexivity.
  - exact Hpages.
  - rewrite Hpages. intros [H|H]%Exists_cons; [discriminate H|].
    by apply Exists_nil in H.
Qed.

(** An iteration that receives a page which is not truncated is the last. *)
Lemma purge_last_page (s3Client : Client) (bucketName : string) (fuel : nat)
    (st : option bool * option string) (w : World) (page : Response) :
  purge_cond st = true ->
  replies w (issued w) = Resolve page ->
  ~ truncated page ->
  let d := delete_objects s3Client bucketName (default [] (Contents page))
             (advance w) in
  purge s3Client (S fuel) bucketName st w =
  prefix [Send s3Client (ListObjectsV2Command bucketName st.2) (Resolve page)]
    (mkRun
       match outcome d with
       | Returned _ => Returned (IsTruncated page, NextContinuationToken page)
       | Threw e => Threw e
       | Diverged => Diverged
       end (final d) (events d)).
Proof.
  intros Hcond Hreply Hpage. cbn zeta. rewrite purge_S, Hcond, run_bind.
  pose proof (purge_body_run s3Client bucketName st w) as Hbody.
  cbn zeta in Hbody. rewrite Hreply in Hbody.
  destruct Hbody as (Hev & Hfin & Hout). rewrite Hout, Hev, Hfin.
  destruct (outcome (delete_objects _ _ _ _)) as [[]| |]; try done.
  assert (purge_cond (IsTruncated page, NextContinuationToken page) = false)
    as Hstop.
  { cbn. destruct (truthy (IsTruncated page)) eqn:E; [|done].
    by apply truthy_truncated in E. }
  destruct fuel; [rewrite purge_O | rewrite purge_S]; rewrite Hstop;
    unfold prefix; cbn; by rewrite app_nil_r.
Qed.

Lemma final_page_not_truncated (page : Response) :
  final_page page -> ~ truncated page.
Proof. unfold final_page, truncated. intros [H|H]; congruence. Qed.

(** C8: for a bucket without objects the loop issues the listing call and
    no delete call, is left after that one iteration, and the teardown calls
    follow at once: instance termination, bucket deletion, queue deletion. *)
Theorem purge_empty_bucket (f : File) (cfg : Config) (fuel : nat)
    (instanceId : option string) (bucketName : string)
    (queueUrl : option string) (w : World) (page : Response) :
  (0 < fuel)%nat ->
  replies w (issued w) = Resolve page ->
  Contents page = None \/ Contents page = Some [] ->
  IsTruncated page = Some false ->
  let r := deleteResources_of f cfg fuel instanceId bucketName queueUrl w in
  let listing := (s3Client_of f cfg, ListObjectsV2Command bucketName None) in
  let terminate :=
    (ec2Client_of f cfg, TerminateInstancesCommand [instanceId]) in
  let deleteBucket := (s3Client_of f cfg, DeleteBucketCommand bucketName) in
  let deleteQueue := (sqsClient_of f cfg, DeleteQueueCommand queueUrl) in
  pages_of (events r) = [page] /\
  (exists rest, calls (events r) = listing :: terminate :: rest) /\
  (forall r1, replies w (1 + issued w)%nat = Resolve r1 ->
     exists rest, calls (events r) = listing :: terminate :: deleteBucket :: rest) /\
  (forall r1 r2 r3,
     replies w (1 + issued w)%nat = Resolve r1 ->
     replies w (2 + issued w)%nat = Resolve r2 ->
     replies w (3 + issued w)%nat = Resolve r3 ->
     outcome r = Returned () /\
     calls (events r) = [listing; terminate; deleteBucket; deleteQueue]).
Proof.
  intros Hfuel Hreply Hcontents Hflag.
  destruct fuel as [|fuel]; [lia|]. cbn zeta.
  rewrite deleteResources_run. cbn zeta.
  rewrite (purge_last_page _ _ _ _ _ page); try done.
  2:{ unfold truncated. congruence. }
  replace (default [] (Contents page)) with (@nil S3Object)
    by (by destruct Hcontents as [-> | ->]).
  cbn [delete_objects forEach].
  change (ret () (advance w)) with (mkRun (Returned ()) (advance w) []).
  cbn [prefix outcome final events app]. rewrite teardown_run.
  cbn [advance replies issued Nat.add].
  destruct (replies w (S (issued w))) as [r1|x1] eqn:E1; cbn.
  2:{ split_and!; [done|eauto|intros; discriminate..]. }
  destruct (replies w (S (S (issued w)))) as [r2|x2] eqn:E2; cbn.
  2:{ split_and!; [done|eauto|eauto|intros; discriminate]. }
  destruct (replies w (S (S (S (issued w))))) as [r3|x3] eqn:E3; cbn.
  2:{ split_and!; [done|eauto|eauto|intros; discriminate]. }
  split_and!; [done|eauto|eauto|done].
Qed.

Lemma purge_empty_bucket_witness :
  let r := P1.deleteResources demo_config 1 demo_instanceId demo_bucketName
             demo_queueUrl world_empty_bucket in
  outcome r = Returned () /\
  calls (events r) =
    [ (P1.s3Client demo_config, ListObjectsV2Command demo_bucketName None);
      (P1.ec2Client demo_config, TerminateInstancesCommand [demo_instanceId]);
      (P1.s3Client demo_config, DeleteBucketCommand demo_bucketName);
      (P1.sqsClient demo_config, DeleteQueueCommand demo_queueUrl) ].
Proof.
  apply (proj2 (proj2 (proj2
           (purge_empty_bucket p1_js demo_config 1 demo_instanceId
              demo_bucketName demo_queueUrl world_empty_bucket
              (listOutput None (Some false) None)
              ltac:(lia) eq_refl (or_introl eq_refl) eq_refl)))
           emptyResponse emptyResponse emptyResponse);
    reflexivity.
Defined.

Lemma delete_objects_ok (s3Client : Client) (bucketName : string)
    (contents : list S3Object) (w : World) :
  (forall n reason, replies w n <> Reject reason) ->
  let d := delete_objects s3Client bucketName contents w in
  outcome d = Returned () /\ replies (final d) = replies w /\
  issued (final d) = (issued w + length contents)%nat.
Proof.
  revert w. induction contents as [|object contents IH]; intros w Hok.
  - cbn. split_and!; [done..|lia].
  - cbn zeta. rewrite delete_objects_cons.
    destruct (replies w (issued w)) as [response|reason] eqn:E;
      [|by destruct (Hok _ _ E)].
    destruct (IH (advance w) Hok) as (Hout & Hrep & Hiss).
    cbn [prefix outcome final]. cbn in Hiss. split_and!; [done..|].
    rewrite Hiss. cbn. lia.
Qed.

Lemma teardown_pages (ec2Client s3Client sqsClient : Client)
    (instanceId : option string) (bucketName : string)
    (queueUrl : option string) (w : World) :
  pages_of (events (teardown ec2Client s3Client sqsClient instanceId
                      bucketName queueUrl w)) = [].
Proof.
  destruct (teardown_events ec2Client s3Client sqsClient instanceId bucketName
              queueUrl w) as (reply & rest & -> & Hrest & _).
  exact Hrest.
Qed.

Lemma teardown_ok (ec2Client s3Client sqsClient : Client)
    (instanceId : option string) (bucketName : string)
    (queueUrl : option string) (w : World) :
  (forall n reason, replies w n <> Reject reason) ->
  let r := teardown ec2Client s3Client sqsClient instanceId bucketName
             queueUrl w in
  outcome r = Returned () /\
  calls (events r) =
    [ (ec2Client, TerminateInstancesCommand [instanceId]);
      (s3Client, DeleteBucketCommand bucketName);
      (sqsClient, DeleteQueueCommand queueUrl) ].
Proof.
  intros Hok. cbn zeta. rewrite teardown_run.
  destruct (replies w (issued w)) eqn:E1; [|by destruct (Hok _ _ E1)].
  destruct (replies w (S (issued w))) eqn:E2; [|by destruct (Hok _ _ E2)].
  destruct (replies w (S (S (issued w)))) eqn:E3; [|by destruct (Hok _ _ E3)].
  done.
Qed.

(** C10: the loop tests the truth value of the truncation flag.  A listing
    response without the flag ends the loop just as one whose flag is false:
    no further listing call is made and, when the provider rejects nothing,
    the teardown calls follow the deletes of that page.  Hence the loop
    terminates whenever, from some reply on, no response carries a true
    flag: fuel beyond that point is never used up. *)
Theorem purge_stops_on_falsy_flag (f : File) (cfg : Config) (fuel : nat)
    (instanceId : option string) (bucketName : string)
    (queueUrl : option string) (w : World) :
  let r := deleteResources_of f cfg fuel instanceId bucketName queueUrl w in
  (forall page,
     (0 < fuel)%nat ->
     replies w (issued w) = Resolve page ->
     IsTruncated page = None ->
     pages_of (events r) = [page] /\
     ((forall n reason, replies w n <> Reject reason) ->
      outcome r = Returned () /\
      calls (events r) =
        page_calls (s3Client_of f cfg) bucketName None page
        ++ [ (ec2Client_of f cfg, TerminateInstancesCommand [instanceId]);
             (s3Client_of f cfg, DeleteBucketCommand bucketName);
             (sqsClient_of f cfg, DeleteQueueCommand queueUrl) ])) /\
  (forall N,
     (forall n page, (N <= n)%nat -> replies w n = Resolve page ->
                     final_page page) ->
     (0 < fuel)%nat -> (N < issued w + fuel)%nat ->
     outcome r <> Diverged).
Proof.
  cbn zeta. rewrite deleteResources_run. cbn zeta. split.
  - intros page Hfuel Hreply Hflag.
    destruct fuel as [|fuel]; [lia|].
    rewrite (purge_last_page _ _ _ _ _ page); try done.
    2:{ unfold truncated. congruence. }
    pose proof (delete_objects_pages (s3Client_of f cfg) bucketName
                  (default [] (Contents page)) (advance w)) as Hpages.
    pose proof (delete_objects_calls (s3Client_of f cfg) bucketName
                  (default [] (Contents page)) (advance w)) as Hcalls.
    pose proof (delete_objects_ok (s3Client_of f cfg) bucketName
                  (default [] (Contents page)) (advance w)) as Hok.
    cbn zeta in Hok.
    set (d := delete_objects _ _ _ _) in *. split.
    + destruct (outcome d) as [[]| |]; cbn [prefix outcome final events app];
        rewrite ?pages_of_log; cbn [pages_of omap list_omap page_of];
        fold (pages_of (events d)); rewrite ?omap_app;
        fold (pages_of (events d)); rewrite ?Hpages; try done.
      cbn [app]. f_equal. apply teardown_pages.
    + intros Hrej. destruct (Hok Hrej) as (Hout & Hrep & _).
      rewrite Hout in *. cbn [prefix outcome final events app].
      destruct (teardown_ok (ec2Client_of f cfg) (s3Client_of f cfg)
                  (sqsClient_of f cfg) instanceId bucketName queueUrl
                  (final d)) as [Hout' Hcalls'].
      { intros n reason. rewrite Hrep. apply Hrej. }
      split; [done|]. rewrite calls_log.
      cbn [calls omap list_omap call_of]. rewrite omap_app.
      fold (calls (events d)).
      fold (calls (events (teardown (ec2Client_of f cfg) (s3Client_of f cfg)
                             (sqsClient_of f cfg) instanceId bucketName
                             queueUrl (final d)))).
      rewrite Hcalls', Hcalls; done.
  - intros N Hlate Hfuel HN.
    pose proof (purge_terminates (s3Client_of f cfg) bucketName N fuel
                  (Some true, None) w) as Hterm.
    set (loop := purge _ _ _ _ _) in *.
    assert (outcome loop <> Diverged) as Hloop.
    { apply Hterm; [|done].
      intros n page Hn Hr. by apply final_page_not_truncated, (Hlate n). }
    destruct (outcome loop) as [st'| |]; cbn [prefix outcome]; try done.
    rewrite teardown_run.
    destruct (replies (final loop) (issued (final loop))); [|done].
    destruct (replies (final loop) (S (issued (final loop)))); [|done].
    by destruct (replies (final loop) (S (S (issued (final loop))))).
Qed.

Lemma purge_stops_on_falsy_flag_witness :
  let r := P1.deleteResources demo_config 1 demo_instanceId demo_bucketName
             demo_queueUrl world_absent_flag in
  (pages_of (events r) = [listOutput (Some [uploaded_object]) None None] /\
   outcome r = Returned ()) /\
  outcome (P1.deleteResources demo_config 7 demo_instanceId demo_bucketName
             demo_queueUrl world_two_pages) <> Diverged.
Proof.
  split.
  - destruct (proj1 (purge_stops_on_falsy_flag p1_js demo_config 1
                       demo_instanceId demo_bucketName demo_queueUrl
                       world_absent_flag)
                (listOutput (Some [uploaded_object]) None None)
                ltac:(lia) eq_refl eq_refl) as [Hpages Hrun].
    split; [exact Hpages|]. apply Hrun.
    intros n reason. unfold world_absent_flag, world_of. cbn [replies].
    destruct n as [|n]; [discriminate|]. cbn. discriminate.
  - apply (proj2 (purge_stops_on_falsy_flag p1_js demo_config 7
                    demo_instanceId demo_bucketName demo_queueUrl
                    world_two_pages) 4%nat).
    + intros n page Hn. unfold world_two_pages, world_of. cbn [replies].
      do 4 (destruct n as [|n]; [lia|]). cbn. intros [= <-]. by right.
    + lia.
    + cbn. lia.
Defined.

(** ** Failures surface once *)

Lemma orderly_ret {A} (a : A) : orderly (@mret M _ A a).
Proof. intros w. constructor. Qed.

Lemma orderly_emit (e : Event) : quiet e -> orderly (emit e).
Proof. intros He w. by repeat constructor. Qed.

Lemma orderly_log (line : string) : orderly (console_log line).
Proof. by apply orderly_emit. Qed.

Lemma orderly_sleep (ms : Z) : orderly (sleep ms).
Proof. by apply orderly_emit. Qed.

Lemma orderly_defined {A} (x : option A) : orderly (defined x).
Proof. intros w. destruct x; constructor. Qed.

Lemma orderly_Date_now : orderly Date_now.
Proof. intros w. constructor. Qed.

Lemma orderly_send (client : Client) (command : Command) :
  orderly (send client command).
Proof.
  intros w. rewrite run_send. destruct (replies w (issued w)).
  - by repeat constructor.
  - exists [], client, command. split; [done|constructor].
Qed.

Lemma orderly_bind {A B} (m : M A) (k : A -> M B) :
  orderly m -> (forall a, orderly (k a)) -> orderly (m ≫= k).
Proof.
  intros Hm Hk w. rewrite run_bind. specialize (Hm w). unfold disciplined in *.
  destruct (outcome (m w)) as [a|[|reason]|]; try done.
  specialize (Hk a (final (m w))). unfold disciplined in Hk.
  cbn [prefix outcome events].
  destruct (outcome (k a (final (m w)))) as [b|[|reason]|];
    try (apply Forall_app; by split).
  destruct Hk as (pre & client & command & -> & Hpre).
  exists (events (m w) ++ pre), client, command.
  split; [by rewrite app_assoc | apply Forall_app; by split].
Qed.

Lemma orderly_forEach {A} (xs : list A) (f : A -> M unit) :
  (forall x, orderly (f x)) -> orderly (forEach xs f).
Proof.
  intros Hf. induction xs as [|x xs IH]; [apply orderly_ret|].
  cbn [forEach]. apply orderly_bind; [apply Hf | by intros _].
Qed.

Lemma orderly_while {S} (fuel : nat) (cond : S -> bool) (body : S -> M S)
    (s : S) :
  (forall s, orderly (body s)) -> orderly (while fuel cond body s).
Proof.
  intros Hbody. revert s. induction fuel as [|fuel IH]; intros s; cbn [while].
  - destruct (cond s); [intros w; constructor | apply orderly_ret].
  - destruct (cond s); [|apply orderly_ret].
    apply orderly_bind; [apply Hbody | apply IH].
Qed.

Ltac orderly :=
  repeat first
    [ apply orderly_ret
    | apply orderly_log
    | apply orderly_sleep
    | apply orderly_defined
    | apply orderly_Date_now
    | apply orderly_send
    | apply orderly_forEach; intros ?
    | apply orderly_while; intros ?
    | apply orderly_bind; [|intros ?]
    | match goal with
      | |- orderly (match ?x with _ => _ end) => destruct x
      | |- orderly (let '(_, _) := ?x in _) => destruct x
      end ].

Lemma quiet_not_rejection (evs : list Event) :
  Forall quiet evs ->
  Forall (fun e => ~ is_rejection e) evs /\
  Forall (fun e => ~ is_ConsoleError e) evs.
Proof.
  intros H. split; (eapply Forall_impl; [exact H|]).
  all: intros [client command [response|reason]|ms|line|label error]; cbn; tauto.
Qed.

Lemma not_in_split {A} (Q : A -> Prop) (evs pre post : list A) (e : A) :
  Forall (fun e => ~ Q e) evs -> evs = pre ++ e :: post -> Q e -> False.
Proof.
  intros Hall -> He. apply Forall_app in Hall as [_ Hall].
  apply Forall_cons in Hall as [Hall _]. by apply Hall.
Qed.

(** A [try] block whose only handler logs the error: a rejected call is
    followed by the handler's line and nothing else, and the handler's line
    is the last event of the run. *)
Lemma tryCatch_surfaces (m : M unit) (label : string) (w : World) :
  orderly m ->
  let r := tryCatch m (fun error => console_error label error) w in
  (forall pre client command reason post,
     events r = pre ++ Send client command (Reject reason) :: post ->
     post = [ConsoleError label (Rejected reason)] /\
     outcome r = Returned () /\ Forall quiet pre) /\
  (forall pre label' error post,
     events r = pre ++ ConsoleError label' error :: post ->
     label' = label /\ post = [] /\ outcome r = Returned () /\
     Forall (fun e => ~ is_ConsoleError e) pre).
Proof.
  intros Hm. specialize (Hm w). cbn zeta. unfold tryCatch, disciplined in *.
  destruct (outcome (m w)) as [[]|[|reason]|].
  - apply quiet_not_rejection in Hm as [Hrej Herr]. split.
    + intros * Heq. by destruct (not_in_split is_rejection _ _ _ _ Hrej Heq).
    + intros * Heq. by destruct (not_in_split is_ConsoleError _ _ _ _ Herr Heq).
  - cbn [outcome final events console_error emit].
    apply quiet_not_rejection in Hm as [Hrej Herr]. split.
    + intros * Heq. exfalso.
      refine (not_in_split is_rejection _ _ _ _ _ Heq I).
      apply Forall_app. split; [done | not_events].
    + intros * Heq.
      apply (unique_split is_ConsoleError) in Heq as (-> & [= -> ->] & ->);
        done.
  - destruct Hm as (pre0 & client0 & command0 & -> & Hpre).
    cbn [outcome final events console_error emit].
    pose proof (quiet_not_rejection _ Hpre) as [Hrej Herr]. split.
    + intros * Heq. rewrite <- app_assoc in Heq. cbn [app] in Heq.
      apply (unique_split is_rejection) in Heq as (-> & [= -> -> ->] & ->);
        try done.
      not_events.
    + intros * Heq.
      assert (Forall (fun e => ~ is_ConsoleError e)
                (pre0 ++ [Send client0 command0 (Reject reason)])) as Hall
        by (apply Forall_app; split; [done | not_events]).
      apply (unique_split is_ConsoleError) in Heq as (-> & [= -> ->] & ->);
        done.
  - apply quiet_not_rejection in Hm as [Hrej Herr]. split.
    + intros * Heq. by destruct (not_in_split is_rejection _ _ _ _ Hrej Heq).
    + intros * Heq. by destruct (not_in_split is_ConsoleError _ _ _ _ Herr Heq).
Qed.

(** C5: a provider call that is rejected anywhere in the run, a single
    object-delete call of the purge loop included, is the last call of the
    run: the one handler of [main] logs it under its generic label and the
    run ends, without any further call.  The handler's line is always the
    last event, so nothing is undone or cleaned up after an error. *)
Theorem errors_surface_once (f : File) (cfg : Config) (fuel : nat) (w : World) :
  let r := main_of f cfg fuel w in
  (forall pre client command reason post,
     events r = pre ++ Send client command (Reject reason) :: post ->
     post = [ConsoleError "An error occurred:" (Rejected reason)] /\
     outcome r = Returned () /\ Forall quiet pre) /\
  (forall pre label error post,
     events r = pre ++ ConsoleError label error :: post ->
     label = "An error occurred:" /\ post = [] /\ outcome r = Returned () /\
     Forall (fun e => ~ is_ConsoleError e) pre).
Proof.
  destruct f; cbn [main_of].
  - unfold P1.main. apply tryCatch_surfaces.
    unfold P1.createResources, P1.listResources, P1.uploadFileToS3,
      P1.sendMessageToSQS, P1.checkSQSMessages, P1.receiveSQSMessage,
      P1.deleteResources.
    orderly.
  - unfold Part000.main. apply tryCatch_surfaces.
    unfold Part000.createResources, Part000.listResources,
      Part000.uploadFileToS3, Part000.sendMessageToSQS,
      Part000.checkSQSMessages, Part000.receiveSQSMessage,
      Part000.deleteResources.
    orderly.
Qed.

Lemma errors_surface_once_witness :
  (drop 39 rejected_events =
     [ConsoleError "An error occurred:" (Rejected "AccessDenied")] /\
   outcome (main_of p1_js demo_config 1 world_delete_rejected) = Returned () /\
   Forall quiet (take 38 rejected_events)) /\
  ("An error occurred:" = "An error occurred:" /\
   drop 40 rejected_events = [] /\
   outcome (main_of p1_js demo_config 1 world_delete_rejected) = Returned () /\
   Forall (fun e => ~ is_ConsoleError e) (take 39 rejected_events)).
Proof.
  split.
  - apply (proj1 (errors_surface_once p1_js demo_config 1 world_delete_rejected)
             (take 38 rejected_events) (s3Client_of p1_js demo_config)
             (DeleteObjectCommand demo_bucketName (Some "CSE546test.txt"))
             "AccessDenied" (drop 39 rejected_events)).
    vm_compute. reflexivity.
  - apply (proj2 (errors_surface_once p1_js demo_config 1 world_delete_rejected)
             (take 39 rejected_events) "An error occurred:"
             (Rejected "AccessDenied") (drop 40 rejected_events)).
    vm_compute. reflexivity.
Defined.

(** ** The steps of the driver *)

Lemma steps_app (evs evs' : list Event) :
  steps (evs ++ evs') = steps evs ++ steps evs'.
Proof. apply omap_app. Qed.

Lemma bind_Returned {A B} (m : M A) (k : A -> M B) (w : World) (b : B) :
  outcome ((m ≫= k) w) = Returned b ->
  exists a,
    outcome (m w) = Returned a /\
    outcome (k a (final (m w))) = Returned b /\
    events ((m ≫= k) w) = events (m w) ++ events (k a (final (m w))).
Proof.
  rewrite run_bind. destruct (outcome (m w)) as [a| |]; [|done..].
  cbn [prefix outcome events]. eauto.
Qed.

Lemma traces_bind {A B} (m : M A) (k : A -> M B)
    (P Q : list Step -> Prop) :
  traces m P -> (forall a, traces (k a) Q) ->
  traces (m ≫= k) (fun L => exists L1 L2, L = L1 ++ L2 /\ P L1 /\ Q L2).
Proof.
  intros Hm Hk w b (a & Ha & Hb & ->)%bind_Returned.
  rewrite steps_app. eexists _, _. split; [reflexivity|].
  split; [by eapply Hm | by eapply Hk].
Qed.

Lemma traces_impl {A} (m : M A) (P Q : list Step -> Prop) :
  traces m P -> (forall L, P L -> Q L) -> traces m Q.
Proof. intros Hm HPQ w a Ha. eauto. Qed.

Lemma shows_bind {A B} (m : M A) (k : A -> M B) (L1 L2 : list Step) :
  shows m L1 -> (forall a, shows (k a) L2) -> shows (m ≫= k) (L1 ++ L2).
Proof.
  intros Hm Hk. eapply traces_impl; [by apply traces_bind|].
  cbn. by intros L (? & ? & -> & -> & ->).
Qed.

Lemma shows_ret {A} (a : A) : shows (@mret M _ A a) [].
Proof. by intros w a'. Qed.

Lemma shows_log (line : string) : shows (console_log line) [].
Proof. by intros w a. Qed.

Lemma shows_sleep (ms : Z) : shows (sleep ms) [Pause ms].
Proof. by intros w a. Qed.

Lemma shows_defined {A} (x : option A) : shows (defined x) [].
Proof. intros w a. by destruct x. Qed.

Lemma shows_send (client : Client) (command : Command) :
  shows (send client command) [Call client command].
Proof. intros w a. rewrite run_send. by destruct (replies w (issued w)). Qed.

Lemma shows_silent_bind {A B} (m : M A) (k : A -> M B) (L : list Step) :
  shows m [] -> (forall a, shows (k a) L) -> shows (m ≫= k) L.
Proof. intros Hm Hk. by apply (shows_bind m k [] L). Qed.

Lemma shows_send_bind {B} (client : Client) (command : Command)
    (k : Response -> M B) (L : list Step) :
  (forall a, shows (k a) L) ->
  shows (send client command ≫= k) (Call client command :: L).
Proof. intros Hk. apply (shows_bind _ k [_] L); [apply shows_send | done]. Qed.

Lemma shows_sleep_bind {B} (ms : Z) (k : unit -> M B) (L : list Step) :
  (forall a, shows (k a) L) -> shows (sleep ms ≫= k) (Pause ms :: L).
Proof. intros Hk. apply (shows_bind _ k [_] L); [apply shows_sleep | done]. Qed.

Lemma shows_forEach {A} (xs : list A) (f : A -> M unit) :
  (forall x, shows (f x) []) -> shows (forEach xs f) [].
Proof.
  intros Hf. induction xs as [|x xs IH]; [apply shows_ret|].
  cbn [forEach]. apply shows_silent_bind; [apply Hf | by intros _].
Qed.

(** Computations that only write to the console. *)
Ltac silent :=
  repeat first
    [ apply shows_ret
    | apply shows_log
    | apply shows_defined
    | apply shows_forEach; intros ?
    | apply shows_silent_bind; [|intros ?]
    | match goal with
      | |- shows (match ?x with _ => _ end) [] => destruct x
      end ].

Ltac shows :=
  repeat first
    [ apply shows_send_bind; intros ?
    | apply shows_sleep_bind; intros ?
    | apply shows_send
    | apply shows_sleep
    | apply shows_silent_bind; [solve [silent]|intros ?]
    | solve [silent] ].

Lemma listResources_steps (f : File) (cfg : Config) :
  shows (match f with
         | p1_js => P1.listResources cfg
         | part_000 => Part000.listResources cfg
         end)
    [ Call (ec2Client_of f cfg) DescribeInstancesCommand;
      Call (s3Client_of f cfg) ListBucketsCommand;
      Call (sqsClient_of f cfg) ListQueuesCommand ].
Proof.
  destruct f; cbn [ec2Client_of s3Client_of sqsClient_of].
  - unfold P1.listResources. shows.
  - unfold Part000.listResources. shows.
Qed.

Lemma uploadFileToS3_steps (cfg : Config) (bucketName : string) :
  shows (P1.uploadFileToS3 cfg bucketName)
    [Call (P1.s3Client cfg) (PutObjectCommand bucketName "CSE546test.txt" "")].
Proof. unfold P1.uploadFileToS3. shows. Qed.

Lemma sendMessageToSQS_steps (cfg : Config) (queueUrl : option string) :
  shows (P1.sendMessageToSQS cfg queueUrl)
    [Call (P1.sqsClient cfg)
       (SendMessageCommand queueUrl "This is a test message"
          {[ "Title" := {| DataType := Some "String";
                           StringValue := Some "test message" |} ]})].
Proof. unfold P1.sendMessageToSQS. shows. Qed.

Lemma checkSQSMessages_steps (cfg : Config) (queueUrl : option string) :
  shows (P1.checkSQSMessages cfg queueUrl)
    [Call (P1.sqsClient cfg)
       (GetQueueAttributesCommand queueUrl ["ApproximateNumberOfMessages"])].
Proof. unfold P1.checkSQSMessages. shows. Qed.

Ltac threw :=
  let H := fresh in intros H; cbn [prefix outcome] in H; discriminate H.

Lemma createResources_returned (cfg : Config) (w : World)
    (instanceId : option string) (bucketName : string)
    (queueUrl : option string) :
  outcome (P1.createResources cfg w) = Returned (instanceId, bucketName, queueUrl) ->
  exists ec2Response instance0 sqsResponse,
    replies w (issued w) = Resolve ec2Response /\
    Instances ec2Response ≫= head = Some instance0 /\
    replies w (2 + issued w)%nat = Resolve sqsResponse /\
    instanceId = InstanceId instance0 /\
    bucketName = "my-test-bucket-" +:+ pretty (clock w (reads w)) /\
    queueUrl = QueueUrl sqsResponse /\
    steps (events (P1.createResources cfg w)) =
      [ Call (P1.ec2Client cfg)
          (RunInstancesCommand (ImageId cfg) "t2.micro" 1 1);
        Call (P1.s3Client cfg) (CreateBucketCommand bucketName);
        Call (P1.sqsClient cfg)
          (CreateQueueCommand
             ("my-test-queue-" +:+ pretty (clock w (S (reads w)))));
        Pause 60000 ].
Proof.
  unfold P1.createResources. run.
  destruct (replies w (issued w)) as [ec2Response|] eqn:E0; [|threw].
  destruct (Instances ec2Response) as [[|instance0 instances]|] eqn:EI;
    cbn [head]; run; try (threw).
  cbn [advance tick replies issued clock reads].
  destruct (replies w (S (issued w))) as [s3Response|] eqn:E1; [|threw]. run.
  cbn [advance tick replies issued clock reads].
  destruct (replies w (S (S (issued w)))) as [sqsResponse|] eqn:E2; [|threw].
  run. cbn [prefix outcome events app]. intros [= <- <- <-].
  exists ec2Response, instance0, sqsResponse. rewrite EI. done.
Qed.

Lemma receiveSQSMessage_steps (cfg : Config) (queueUrl : option string) :
  traces (P1.receiveSQSMessage cfg queueUrl)
    (fun L => exists ack,
       L = Call (P1.sqsClient cfg) (ReceiveMessageCommand queueUrl 1 ["All"])
           :: ack /\
       (ack = [] \/
        exists handle,
          ack = [Call (P1.sqsClient cfg)
                   (DeleteMessageCommand queueUrl handle)])).
Proof.
  intros w a. rewrite receive_run. cbn zeta.
  destruct (replies w (issued w)) as [response|]; [|threw].
  destruct (Messages response) as [[|message rest]|];
    try (intros _; exists []; by split; [|left]).
  destruct (Title message); [|threw].
  destruct (replies w (S (issued w))); [|threw].
  intros _. eexists. split; [reflexivity|]. right. by eexists.
Qed.

Lemma purge_steps (s3Client : Client) (bucketName : string)
    (evs : list Event) :
  Forall (purge_event s3Client bucketName) evs ->
  steps evs = uncurry Call <$> calls evs.
Proof.
  unfold steps, calls. induction 1 as [|e evs He _ IH]; [done|].
  destruct e as [client command reply|ms|line|label error]; try done.
  cbn [omap list_omap step_of call_of fmap list_fmap]. by f_equal.
Qed.

Lemma deleteResources_steps (f : File) (cfg : Config) (fuel : nat)
    (instanceId : option string) (bucketName : string)
    (queueUrl : option string) :
  traces (deleteResources_of f cfg fuel instanceId bucketName queueUrl)
    (fun L => exists init fin,
       L = (uncurry Call
              <$> purge_calls (s3Client_of f cfg) bucketName None
                    (init ++ [fin]))
           ++ [ Call (ec2Client_of f cfg)
                  (TerminateInstancesCommand [instanceId]);
                Call (s3Client_of f cfg) (DeleteBucketCommand bucketName);
                Call (sqsClient_of f cfg) (DeleteQueueCommand queueUrl) ]).
Proof.
  intros w a. rewrite deleteResources_run. cbn zeta.
  pose proof (purge_events (s3Client_of f cfg) bucketName fuel
                (Some true, None) w) as Hevs.
  pose proof (purge_returned (s3Client_of f cfg) bucketName fuel
                (Some true, None)) as Hret.
  specialize (fun st' => Hret st' w).
  set (loop := purge _ _ _ _ _) in *.
  destruct (outcome loop) as [st'| |]; [|threw..].
  destruct (Hret st' eq_refl) as (init & fin & _ & _ & _ & Hcalls).
  cbn [prefix outcome events app]. rewrite teardown_run.
  destruct (replies (final loop) (issued (final loop))); [|threw].
  destruct (replies (final loop) (S (issued (final loop)))); [|threw].
  destruct (replies (final loop) (S (S (issued (final loop))))); [|threw].
  intros _. exists init, fin. cbn [prefix events app].
  change (steps (ConsoleLog ?l :: ?evs)) with (steps evs).
  rewrite steps_app, (purge_steps _ _ _ Hevs), Hcalls. done.
Qed.

Section Driver.
Variables (cfg : Config) (fuel : nat).
Variables (instanceId : option string) (bucketName : string)
  (queueUrl : option string).

Let ec2 := P1.ec2Client cfg.
Let s3 := P1.s3Client cfg.
Let sqs := P1.sqsClient cfg.

(** The steps of the driver after [createResources], for a listing routine
    [listResources] and a final pause of [ms] announced by [line]. *)
Lemma after_creation_steps (listResources : M unit) (line : string) (ms : Z) :
  shows listResources
    [ Call ec2 DescribeInstancesCommand; Call s3 ListBucketsCommand;
      Call sqs ListQueuesCommand ] ->
  traces
    (listResources;;
     P1.uploadFileToS3 cfg bucketName;;
     P1.sendMessageToSQS cfg queueUrl;;
     P1.checkSQSMessages cfg queueUrl;;
     P1.receiveSQSMessage cfg queueUrl;;
     P1.checkSQSMessages cfg queueUrl;;
     console_log "Waiting for 10 seconds...";;
     sleep 10000;;
     P1.deleteResources cfg fuel instanceId bucketName queueUrl;;
     console_log line;;
     sleep ms;;
     listResources)
    (fun L => exists ack init fin,
       (ack = [] \/
        exists handle, ack = [Call sqs (DeleteMessageCommand queueUrl handle)]) /\
       L =
         [ Call ec2 DescribeInstancesCommand; Call s3 ListBucketsCommand;
           Call sqs ListQueuesCommand;
           Call s3 (PutObjectCommand bucketName "CSE546test.txt" "");
           Call sqs
             (SendMessageCommand queueUrl "This is a test message"
                {[ "Title" := {| DataType := Some "String";
                                 StringValue := Some "test message" |} ]});
           Call sqs
             (GetQueueAttributesCommand queueUrl
                ["ApproximateNumberOfMessages"]);
           Call sqs (ReceiveMessageCommand queueUrl 1 ["All"]) ]
         ++ ack
         ++ [ Call sqs
                (GetQueueAttributesCommand queueUrl
                   ["ApproximateNumberOfMessages"]);
              Pause 10000 ]
         ++ (uncurry Call <$> purge_calls s3 bucketName None (init ++ [fin]))
         ++ [ Call ec2 (TerminateInstancesCommand [instanceId]);
              Call s3 (DeleteBucketCommand bucketName);
              Call sqs (DeleteQueueCommand queueUrl);
              Pause ms;
              Call ec2 DescribeInstancesCommand; Call s3 ListBucketsCommand;
              Call sqs ListQueuesCommand ]).
Proof.
  intros Hlist.
  eapply traces_impl.
  { apply traces_bind; [exact Hlist | intros _].
    apply traces_bind; [apply uploadFileToS3_steps | intros _].
    apply traces_bind; [apply sendMessageToSQS_steps | intros _].
    apply traces_bind; [apply checkSQSMessages_steps | intros _].
    apply traces_bind; [apply receiveSQSMessage_steps | intros _].
    apply traces_bind; [apply checkSQSMessages_steps | intros _].
    apply traces_bind; [apply shows_log | intros _].
    apply traces_bind; [apply shows_sleep | intros _].
    apply traces_bind;
      [apply (deleteResources_steps p1_js cfg fuel instanceId bucketName
                queueUrl) | intros _].
    apply traces_bind; [apply shows_log | intros _].
    apply traces_bind; [apply shows_sleep | intros _].
    exact Hlist. }
  cbn beta. intros L H.
  destruct H as (? & ? & -> & -> & H).
  destruct H as (? & ? & -> & -> & H).
  destruct H as (? & ? & -> & -> & H).
  destruct H as (? & ? & -> & -> & H).
  destruct H as (? & ? & -> & (ack & -> & Hack) & H).
  destruct H as (? & ? & -> & -> & H).
  destruct H as (? & ? & -> & -> & H).
  destruct H as (? & ? & -> & -> & H).
  destruct H as (? & ? & -> & (init & fin & ->) & H).
  destruct H as (? & ? & -> & -> & H).
  destruct H as (? & ? & -> & -> & ->).
  exists ack, init, fin. split; [exact Hack|].
  cbn [app]. rewrite <- !app_assoc. reflexivity.
Qed.

End Driver.

Lemma tryCatch_quiet {A} (m : M A) (label : string)
    (h : Error -> M A) (w : World) (a : A) :
  (forall error w', exists evs,
     events (h error w') = ConsoleError label error :: evs) ->
  outcome (tryCatch m h w) = Returned a ->
  Forall quiet (events (tryCatch m h w)) ->
  outcome (m w) = Returned a /\ events (tryCatch m h w) = events (m w).
Proof.
  intros Hh. unfold tryCatch.
  destruct (outcome (m w)) as [a'|error|] eqn:E; rewrite ?E; try done.
  cbn [events]. destruct (Hh error (final (m w))) as [evs ->].
  intros _ Hq. apply Forall_app in Hq as [_ Hq].
  by apply Forall_cons in Hq as [Hq _].
Qed.

Lemma createResources_eq (f : File) (cfg : Config) :
  match f with
  | p1_js => P1.createResources cfg
  | part_000 => Part000.createResources cfg
  end = P1.createResources cfg.
Proof. by destruct f. Qed.

(** C6: a run of [main] without failure makes exactly these calls and
    pauses, in this order: the three creations, a pause, the three listings,
    one upload, one message sent, a queue-depth check, one receive with the
    delete of the received message, a second queue-depth check, a pause, the
    purge of the bucket, instance termination, bucket deletion, queue
    deletion, a pause, and the three listings again.  The teardown names the
    instance and the queue the creation responses returned and the bucket
    that was created. *)
Theorem main_sequence (f : File) (cfg : Config) (fuel : nat) (w : World) :
  let r := main_of f cfg fuel w in
  let ec2 := ec2Client_of f cfg in
  let s3 := s3Client_of f cfg in
  let sqs := sqsClient_of f cfg in
  outcome r = Returned () ->
  Forall quiet (events r) ->
  exists ec2Response instance0 sqsResponse ack init fin,
    replies w (issued w) = Resolve ec2Response /\
    Instances ec2Response ≫= head = Some instance0 /\
    replies w (2 + issued w)%nat = Resolve sqsResponse /\
    let instanceId := InstanceId instance0 in
    let bucketName := "my-test-bucket-" +:+ pretty (clock w (reads w)) in
    let queueName := "my-test-queue-" +:+ pretty (clock w (S (reads w))) in
    let queueUrl := QueueUrl sqsResponse in
    (ack = [] \/
     exists handle, ack = [Call sqs (DeleteMessageCommand queueUrl handle)]) /\
    steps (events r) =
      [ Call ec2 (RunInstancesCommand (ImageId cfg) "t2.micro" 1 1);
        Call s3 (CreateBucketCommand bucketName);
        Call sqs (CreateQueueCommand queueName);
        Pause 60000;
        Call ec2 DescribeInstancesCommand;
        Call s3 ListBucketsCommand;
        Call sqs ListQueuesCommand;
        Call s3 (PutObjectCommand bucketName "CSE546test.txt" "");
        Call sqs
          (SendMessageCommand queueUrl "This is a test message"
             {[ "Title" := {| DataType := Some "String";
                              StringValue := Some "test message" |} ]});
        Call sqs
          (GetQueueAttributesCommand queueUrl ["ApproximateNumberOfMessages"]);
        Call sqs (ReceiveMessageCommand queueUrl 1 ["All"]) ]
      ++ ack
      ++ [ Call sqs
             (GetQueueAttributesCommand queueUrl
                ["ApproximateNumberOfMessages"]);
           Pause 10000 ]
      ++ (uncurry Call <$> purge_calls s3 bucketName None (init ++ [fin]))
      ++ [ Call ec2 (TerminateInstancesCommand [instanceId]);
           Call s3 (DeleteBucketCommand bucketName);
           Call sqs (DeleteQueueCommand queueUrl);
           Pause (final_pause f);
           Call ec2 DescribeInstancesCommand;
           Call s3 ListBucketsCommand;
           Call sqs ListQueuesCommand ].
Proof.
  cbn zeta. rewrite ec2Client_eq, s3Client_eq, sqsClient_eq.
  intros Hout Hquiet.
  assert (exists body : M unit,
            main_of f cfg fuel = tryCatch body
              (fun error => console_error "An error occurred:" error) /\
            exists line,
              body =
              (P1.createResources cfg ≫= fun '(instanceId, bucketName, queueUrl) =>
                 match f with
                 | p1_js => P1.listResources cfg
                 | part_000 => Part000.listResources cfg
                 end;;
                 P1.uploadFileToS3 cfg bucketName;;
                 P1.sendMessageToSQS cfg queueUrl;;
                 P1.checkSQSMessages cfg queueUrl;;
                 P1.receiveSQSMessage cfg queueUrl;;
                 P1.checkSQSMessages cfg queueUrl;;
                 console_log "Waiting for 10 seconds...";;
                 sleep 10000;;
                 P1.deleteResources cfg fuel instanceId bucketName queueUrl;;
                 console_log line;;
                 sleep (final_pause f);;
                 match f with
                 | p1_js => P1.listResources cfg
                 | part_000 => Part000.listResources cfg
                 end))
    as (body & Hmain & line & Hbody).
  { destruct f; eexists; (split; [reflexivity|]); eexists; reflexivity. }
  rewrite Hmain in Hout, Hquiet |- *.
  apply (tryCatch_quiet _ "An error occurred:") in Hout as [Hout ->];
    [|by eexists|done].
  subst body.
  apply bind_Returned in Hout as ([[instanceId bucketName] queueUrl] & Hcreate & Hrest & ->).
  apply createResources_returned in Hcreate
    as (ec2Response & instance0 & sqsResponse & H0 & HI & H2 & -> & -> & -> & Hsteps).
  pose proof (listResources_steps f cfg) as Hlist.
  rewrite ec2Client_eq, s3Client_eq, sqsClient_eq in Hlist.
  apply (after_creation_steps cfg fuel _ _ _ _ line (final_pause f) Hlist) in Hrest
    as (ack & init & fin & Hack & Hrest).
  exists ec2Response, instance0, sqsResponse, ack, init, fin.
  split_and!; try done.
  rewrite steps_app, Hsteps, Hrest. reflexivity.
Qed.

Lemma main_sequence_witness :
  let r := main_of p1_js demo_config 1 world_happy in
  let ec2 := ec2Client_of p1_js demo_config in
  let s3 := s3Client_of p1_js demo_config in
  let sqs := sqsClient_of p1_js demo_config in
  exists ec2Response instance0 sqsResponse ack init fin,
    replies world_happy (issued world_happy) = Resolve ec2Response /\
    Instances ec2Response ≫= head = Some instance0 /\
    replies world_happy (2 + issued world_happy)%nat = Resolve sqsResponse /\
    let instanceId := InstanceId instance0 in
    let bucketName :=
      "my-test-bucket-" +:+ pretty (clock world_happy (reads world_happy)) in
    let queueName :=
      "my-test-queue-" +:+ pretty (clock world_happy (S (reads world_happy))) in
    let queueUrl := QueueUrl sqsResponse in
    (ack = [] \/
     exists handle, ack = [Call sqs (DeleteMessageCommand queueUrl handle)]) /\
    steps (events r) =
      [ Call ec2 (RunInstancesCommand (ImageId demo_config) "t2.micro" 1 1);
        Call s3 (CreateBucketCommand bucketName);
        Call sqs (CreateQueueCommand queueName);
        Pause 60000;
        Call ec2 DescribeInstancesCommand;
        Call s3 ListBucketsCommand;
        Call sqs ListQueuesCommand;
        Call s3 (PutObjectCommand bucketName "CSE546test.txt" "");
        Call sqs
          (SendMessageCommand queueUrl "This is a test message"
             {[ "Title" := {| DataType := Some "String";
                              StringValue := Some "test message" |} ]});
        Call sqs
          (GetQueueAttributesCommand queueUrl ["ApproximateNumberOfMessages"]);
        Call sqs (ReceiveMessageCommand queueUrl 1 ["All"]) ]
      ++ ack
      ++ [ Call sqs
             (GetQueueAttributesCommand queueUrl
                ["ApproximateNumberOfMessages"]);
           Pause 10000 ]
      ++ (uncurry Call <$> purge_calls s3 bucketName None (init ++ [fin]))
      ++ [ Call ec2 (TerminateInstancesCommand [instanceId]);
           Call s3 (DeleteBucketCommand bucketName);
           Call sqs (DeleteQueueCommand queueUrl);
           Pause (final_pause p1_js);
           Call ec2 DescribeInstancesCommand;
           Call s3 ListBucketsCommand;
           Call sqs ListQueuesCommand ].
Proof.
  apply (main_sequence p1_js demo_config 1 world_happy).
  - vm_compute. reflexivity.
  - vm_compute.
    repeat first [ apply List.Forall_nil | apply List.Forall_cons; [exact I|] ].
Defined.

(** ** The two scripts compared *)

Lemma agree_refl {A} (r : Run A) : agree r r.
Proof. done. Qed.

Lemma sim_refl {A} (m : M A) : sim m m.
Proof. intros w _. apply agree_refl. Qed.

Lemma sim_bind {A B} (m1 m2 : M A) (k1 k2 : A -> M B) :
  sim m1 m2 -> (forall a, sim (k1 a) (k2 a)) -> sim (m1 ≫= k1) (m2 ≫= k2).
Proof.
  intros Hm Hk w. rewrite !run_bind. specialize (Hm w).
  destruct (outcome (m1 w)) as [a| |] eqn:E1; cbn [prefix events].
  - intros [H1 H2]%Forall_app. destruct (Hm H1) as (Ho & Hf & Hc).
    rewrite <- Ho, <- Hf, E1.
    destruct (Hk a (final (m1 w)) H2) as (Ho' & Hf' & Hc').
    split_and!; cbn [prefix outcome final events]; try done.
    by rewrite !calls_app, Hc, Hc'.
  - intros H1. destruct (Hm H1) as (Ho & Hf & Hc).
    rewrite <- Ho, <- Hf, E1. by split_and!.
  - intros H1. destruct (Hm H1) as (Ho & Hf & Hc).
    rewrite <- Ho, <- Hf, E1. by split_and!.
Qed.

Lemma sim_send_bind {B} (client : Client) (command : Command)
    (k1 k2 : Response -> M B) :
  (forall response,
     listing_wf (Send client command (Resolve response)) ->
     sim (k1 response) (k2 response)) ->
  sim (send client command ≫= k1) (send client command ≫= k2).
Proof.
  intros Hk w. rewrite !bind_send.
  destruct (replies w (issued w)) as [response|reason]; [|done].
  cbn [prefix events app]. intros [H1 H2]%Forall_cons.
  destruct (Hk response H1 (advance w) H2) as (Ho & Hf & Hc).
  split_and!; cbn [prefix outcome final events]; try done.
  rewrite !calls_app. by f_equal.
Qed.

Lemma sim_emit_bind {B} (e1 e2 : Event) (k1 k2 : unit -> M B) :
  call_of e1 = None -> call_of e2 = None ->
  sim (k1 ()) (k2 ()) -> sim (emit e1 ≫= k1) (emit e2 ≫= k2).
Proof.
  intros H1 H2 Hk w. rewrite !bind_emit. cbn [prefix events app].
  intros [_ Hw]%Forall_cons. destruct (Hk w Hw) as (Ho & Hf & Hc).
  split_and!; cbn [prefix outcome final events]; try done.
  unfold calls. cbn [app omap list_omap]. by rewrite H1, H2.
Qed.

Lemma sim_tryCatch {A} (m1 m2 : M A) (h : Error -> M A) :
  sim m1 m2 -> sim (tryCatch m1 h) (tryCatch m2 h).
Proof.
  intros Hm w. unfold tryCatch. specialize (Hm w).
  destruct (outcome (m1 w)) as [a|error|] eqn:E1.
  - intros H1. destruct (Hm H1) as (Ho & Hf & Hc).
    rewrite <- Ho, E1. by split_and!.
  - cbn [events]. intros [H1 _]%Forall_app.
    destruct (Hm H1) as (Ho & Hf & Hc). rewrite <- Ho, <- Hf, E1.
    split_and!; cbn [outcome final events]; try done.
    by rewrite !calls_app, Hc.
  - intros H1. destruct (Hm H1) as (Ho & Hf & Hc).
    rewrite <- Ho, E1. by split_and!.
Qed.

Lemma inert_ret {A} (a : A) : inert (@mret M _ A a).
Proof. by intros w. Qed.

Lemma inert_log (line : string) : inert (console_log line).
Proof. by intros w. Qed.

Lemma inert_defined {A} (x : option A) : inert (defined x).
Proof. intros w. by destruct x. Qed.

Lemma inert_bind {A B} (m : M A) (k : A -> M B) :
  inert m -> (forall a, inert (k a)) -> inert (m ≫= k).
Proof.
  intros Hm Hk w. rewrite run_bind. destruct (Hm w) as [Hf Hc].
  destruct (outcome (m w)) as [a| |]; cbn [prefix final events]; try done.
  rewrite Hf. destruct (Hk a w) as [Hf' Hc'].
  by rewrite calls_app, Hc, Hc'.
Qed.

Lemma inert_forEach {A} (xs : list A) (f : A -> M unit) :
  (forall x, inert (f x)) -> inert (forEach xs f).
Proof.
  intros Hf. induction xs as [|x xs IH]; [apply inert_ret|].
  cbn [forEach]. apply inert_bind; [apply Hf | by intros _].
Qed.

Ltac inert :=
  repeat first
    [ apply inert_ret
    | apply inert_log
    | apply inert_defined
    | apply inert_forEach; intros ?
    | apply inert_bind; [|intros ?]
    | match goal with
      | |- inert (match ?x with _ => _ end) => destruct x
      end ].

Lemma sim_inert {A} (m1 m2 : M A) :
  inert m1 -> inert m2 -> (forall w, outcome (m1 w) = outcome (m2 w)) ->
  sim m1 m2.
Proof.
  intros H1 H2 Ho w _. unfold agree.
  destruct (H1 w) as [-> ->], (H2 w) as [-> ->]. by split_and!.
Qed.

Lemma forEach_Returned {A} (xs : list A) (f : A -> M unit) (w : World) :
  inert (forEach xs f) ->
  (forall x w, x ∈ xs -> outcome (f x w) = Returned ()) ->
  (forall x, inert (f x)) ->
  outcome (forEach xs f w) = Returned ().
Proof.
  intros _ Hout Hin. induction xs as [|x xs IH]; [done|].
  cbn [forEach]. rewrite run_bind.
  rewrite Hout by apply list_elem_of_here. cbn [prefix outcome].
  destruct (Hin x w) as [-> _]. apply IH. intros y w' Hy.
  apply Hout. by apply list_elem_of_further.
Qed.

Lemma sim_defined_Some {A B} (m1 : M B) (a : A) (k : A -> M B) :
  sim m1 (k a) -> sim m1 (defined (Some a) ≫= k).
Proof. intros H w Hw. rewrite bind_defined. by apply H. Qed.

Lemma print_running_Returned (instance : Instance) (w : World) :
  is_Some (State instance) -> outcome (print_running instance w) = Returned ().
Proof.
  intros [state Hstate]. unfold print_running.
  rewrite Hstate, (bind_defined (Some state)).
  by destruct (bool_decide _).
Qed.

Lemma print_running_inert (instance : Instance) : inert (print_running instance).
Proof. unfold print_running. inert. Qed.

(** Over reservations whose instances all carry a state, printing the
    running instances ends as printing all of them does. *)
Lemma reservations_outcome (reservations : list Reservation) (w : World) :
  Forall (fun reservation =>
            forall instances,
              Reservation_Instances reservation = Some instances ->
              Forall (fun instance => is_Some (State instance)) instances)
    reservations ->
  outcome (forEach reservations (fun reservation =>
             instances ← defined (Reservation_Instances reservation);
             forEach instances print_running) w) =
  outcome (forEach reservations (fun reservation =>
             instances ← defined (Reservation_Instances reservation);
             forEach instances print_instance) w).
Proof.
  induction 1 as [|reservation reservations Hwf _ IH]; [done|].
  cbn [forEach]. rewrite !bind_assoc. rewrite !bind_defined.
  destruct (Reservation_Instances reservation) as [instances|]; [|done].
  specialize (Hwf instances eq_refl).
  assert (inert (forEach instances print_running)) as H1
    by (apply inert_forEach, print_running_inert).
  assert (inert (forEach instances print_instance)) as H2
    by (apply inert_forEach; intros ?; apply inert_log).
  assert (outcome (forEach instances print_running w) = Returned ()) as O1.
  { apply forEach_Returned; [done| |apply print_running_inert].
    intros x w' Hx. apply print_running_Returned.
    by apply (proj1 (Forall_forall _ _) Hwf). }
  assert (outcome (forEach instances print_instance w) = Returned ()) as O2.
  { apply forEach_Returned; [done|done|]. intros ?. apply inert_log. }
  rewrite (run_bind (forEach instances print_running)).
  rewrite (run_bind (forEach instances print_instance)).
  rewrite O1, O2.
  cbn [prefix outcome]. destruct (H1 w) as [-> _], (H2 w) as [-> _].
  exact IH.
Qed.

Lemma listResources_sim (cfg : Config) :
  sim (P1.listResources cfg) (Part000.listResources cfg).
Proof.
  unfold P1.listResources, Part000.listResources, console_log.
  apply sim_emit_bind; [done..|].
  apply sim_send_bind. intros ec2Response (reservations & HR & Hwf).
  apply sim_emit_bind; [done..|]. rewrite HR.
  apply sim_defined_Some. apply sim_bind.
  { apply sim_inert; [inert..|].
    intros w. by apply (reservations_outcome reservations w). }
  intros _. apply sim_send_bind. intros s3Response [buckets HB].
  apply sim_emit_bind; [done..|]. rewrite HB.
  apply sim_defined_Some. apply sim_bind; [apply sim_refl|].
  intros _. apply sim_send_bind. intros sqsResponse [queueUrls HQ].
  apply sim_emit_bind; [done..|]. rewrite HQ.
  apply sim_defined_Some. apply sim_refl.
Qed.

Lemma main_sim (cfg : Config) (fuel : nat) :
  sim (P1.main cfg fuel) (Part000.main cfg fuel).
Proof.
  unfold P1.main, Part000.main. apply sim_tryCatch.
  apply sim_bind; [apply sim_refl|]. intros [[instanceId bucketName] queueUrl].
  apply sim_bind; [apply listResources_sim|]. intros _.
  do 8 (apply sim_bind; [apply sim_refl|]; intros _).
  unfold console_log, sleep.
  do 2 (apply sim_emit_bind; [done..|]).
  apply listResources_sim.
Qed.

(** C4 (amended): outside [listResources] and the final pause of [main] the
    two files are the same functions once the constants are equated.  For
    every sequence of provider responses in which each listing response
    carries its list (reservations whose instances have a state, buckets,
    queue URLs), the two scripts issue the same sequence of provider calls,
    end the same way and leave the provider's replies consumed alike. *)
Theorem scripts_agree :
  (P1.createResources = Part000.createResources /\
   P1.uploadFileToS3 = Part000.uploadFileToS3 /\
   P1.sendMessageToSQS = Part000.sendMessageToSQS /\
   P1.checkSQSMessages = Part000.checkSQSMessages /\
   P1.receiveSQSMessage = Part000.receiveSQSMessage /\
   P1.deleteResources = Part000.deleteResources) /\
  forall (cfg : Config) (fuel : nat) (w : World),
    Forall listing_wf (events (P1.main cfg fuel w)) ->
    calls (events (Part000.main cfg fuel w)) =
      calls (events (P1.main cfg fuel w)) /\
    outcome (Part000.main cfg fuel w) = outcome (P1.main cfg fuel w) /\
    final (Part000.main cfg fuel w) = final (P1.main cfg fuel w).
Proof.
  split; [by split_and!|].
  intros cfg fuel w Hwf. by destruct (main_sim cfg fuel w Hwf) as (-> & -> & ->).
Qed.

Lemma scripts_agree_witness :
  calls (events (Part000.main demo_config 1 world_happy)) =
    calls (events (P1.main demo_config 1 world_happy)) /\
  outcome (Part000.main demo_config 1 world_happy) =
    outcome (P1.main demo_config 1 world_happy) /\
  final (Part000.main demo_config 1 world_happy) =
    final (P1.main demo_config 1 world_happy).
Proof.
  apply (proj2 scripts_agree demo_config 1%nat world_happy).
  vm_compute.
  repeat first
    [ apply List.Forall_nil
    | apply List.Forall_cons;
      [ first
          [ exact I
          | eexists; reflexivity
          | eexists; split;
            [ reflexivity
            | repeat constructor; intros ? [= <-]; repeat constructor;
              eexists; reflexivity ] ]
      | ] ].
Defined.

(** C4 as stated fails.  When the description of the instances comes back
    without reservations, [p1.js] goes on to list the buckets while
    [part_000] throws and stops: the calls differ.  And on responses that
    are complete the pauses differ: 60 s against 20 s before the last
    listing. *)
Lemma scripts_agree_counterexample :
  calls (events (P1.main demo_config 1 world_no_reservations)) <>
    calls (events (Part000.main demo_config 1 world_no_reservations)) /\
  steps (events (P1.main demo_config 1 world_happy)) <>
    steps (events (Part000.main demo_config 1 world_happy)).
Proof.
  split.
  - intros H. apply (f_equal length) in H. vm_compute in H. discriminate H.
  - intros H.
    apply (f_equal (fun l => l !! 19%nat)) in H. vm_compute in H.
    discriminate H.
Qed.
(** ** Creation *)

Lemma createResources_of_eq (f : File) :
  createResources_of f = P1.createResources.
Proof. by destruct f. Qed.

(** How [createResources] runs, by how its three calls settle. *)
Lemma createResources_run (cfg : Config) (w : World) :
  let r := P1.createResources cfg w in
  let hello := ConsoleLog "Creating resources..." in
  let runInstances :=
    Send (P1.ec2Client cfg) (RunInstancesCommand (ImageId cfg) "t2.micro" 1 1) in
  let createBucket :=
    Send (P1.s3Client cfg) (CreateBucketCommand (bucketName_at w)) in
  let createQueue :=
    Send (P1.sqsClient cfg) (CreateQueueCommand (queueName_at w)) in
  match replies w (issued w) with
  | Reject reason =>
      outcome r = Threw (Rejected reason) /\
      events r = [hello; runInstances (Reject reason)]
  | Resolve ec2Response =>
      match Instances ec2Response ≫= head with
      | None =>
          outcome r = Threw TypeError /\
          events r = [hello; runInstances (Resolve ec2Response)]
      | Some instance0 =>
          let created :=
            ConsoleLog ("EC2 instance created with ID: "
                        +:+ template (InstanceId instance0)) in
          match replies w (S (issued w)) with
          | Reject reason =>
              outcome r = Threw (Rejected reason) /\
              events r = [ hello; runInstances (Resolve ec2Response); created;
                           createBucket (Reject reason) ]
          | Resolve s3Response =>
              let bucket :=
                ConsoleLog ("S3 bucket created: " +:+ bucketName_at w) in
              match replies w (S (S (issued w))) with
              | Reject reason =>
                  outcome r = Threw (Rejected reason) /\
                  events r = [ hello; runInstances (Resolve ec2Response);
                               created; createBucket (Resolve s3Response);
                               bucket; createQueue (Reject reason) ]
              | Resolve sqsResponse =>
                  outcome r =
                    Returned (InstanceId instance0, bucketName_at w,
                              QueueUrl sqsResponse) /\
                  events r =
                    [ hello; runInstances (Resolve ec2Response); created;
                      createBucket (Resolve s3Response); bucket;
                      createQueue (Resolve sqsResponse);
                      ConsoleLog ("SQS queue created: "
                                  +:+ template (QueueUrl sqsResponse));
                      ConsoleLog "Resources created, waiting for 1 minute...";
                      SetTimeout 60000 ] /\
                  issued (final r) = (3 + issued w)%nat /\
                  replies (final r) = replies w
              end
          end
      end
  end.
Proof.
  cbn zeta. unfold P1.createResources, bucketName_at, queueName_at. run.
  destruct (replies w (issued w)) as [ec2Response|]; [|done].
  destruct (Instances ec2Response) as [[|instance0 instances]|];
    cbn [mbind option_bind head]; run; try done.
  cbn [advance tick replies issued clock reads].
  destruct (replies w (S (issued w))) as [s3Response|]; [|done]. run.
  cbn [advance tick replies issued clock reads].
  destruct (replies w (S (S (issued w)))) as [sqsResponse|]; [|done].
  run. done.
Qed.

(** X1: [createResources] returns exactly when its three calls resolve and
    the RunInstances response lists at least one instance.  It then hands
    back the [InstanceId] of the first instance and the [QueueUrl] of the
    queue response as they are, absent or not, and the bucket name it made
    from the clock. *)
Theorem createResources_identifiers (f : File) (cfg : Config) (w : World)
    (ids : option string * string * option string) :
  outcome (createResources_of f cfg w) = Returned ids <->
  exists ec2Response instance0 s3Response sqsResponse,
    replies w (issued w) = Resolve ec2Response /\
    Instances ec2Response ≫= head = Some instance0 /\
    replies w (1 + issued w)%nat = Resolve s3Response /\
    replies w (2 + issued w)%nat = Resolve sqsResponse /\
    ids = (InstanceId instance0, bucketName_at w, QueueUrl sqsResponse).
Proof.
  rewrite createResources_of_eq.
  pose proof (createResources_run cfg w) as H. cbn zeta in H.
  cbn [Nat.add].
  destruct (replies w (issued w)) as [ec2Response|].
  2:{ destruct H as [-> _]. split; [done|]. by intros (? & ? & ? & ? & [=] & _). }
  destruct (Instances ec2Response ≫= head) as [instance0|] eqn:EI.
  2:{ destruct H as [-> _]. split; [done|].
      intros (? & ? & ? & ? & [= <-] & HI & _). congruence. }
  destruct (replies w (S (issued w))) as [s3Response|].
  2:{ destruct H as [-> _]. split; [done|].
      by intros (? & ? & ? & ? & _ & _ & [=] & _). }
  destruct (replies w (S (S (issued w)))) as [sqsResponse|].
  2:{ destruct H as [-> _]. split; [done|].
      by intros (? & ? & ? & ? & _ & _ & _ & [=] & _). }
  destruct H as (-> & _). split.
  - intros [= <-]. eauto 10.
  - intros (? & ? & ? & ? & [= <-] & HI & _ & [= <-] & ->).
    rewrite EI in HI. by injection HI as <-.
Qed.

Lemma createResources_identifiers_witness :
  outcome (createResources_of p1_js demo_config world_anonymous) =
    Returned (None, bucketName_at world_anonymous, None).
Proof.
  apply (proj2 (createResources_identifiers p1_js demo_config world_anonymous
                  (None, bucketName_at world_anonymous, None))).
  eexists _, _, _, _. split_and!; reflexivity.
Defined.

(** X2: when the RunInstances response lists no instance (the property is
    absent or the list is empty) [createResources] throws a [TypeError]
    right after that call: the line about the instance is not written and
    neither the bucket nor the queue is asked for. *)
Theorem createResources_without_instance (f : File) (cfg : Config) (w : World)
    (ec2Response : Response) :
  replies w (issued w) = Resolve ec2Response ->
  Instances ec2Response = None \/ Instances ec2Response = Some [] ->
  let r := createResources_of f cfg w in
  outcome r = Threw TypeError /\
  calls (events r) =
    [ (ec2Client_of f cfg,
       RunInstancesCommand (ImageId cfg) "t2.micro" 1 1) ] /\
  console (events r) = ["Creating resources..."].
Proof.
  intros Hreply Hnone. rewrite createResources_of_eq, ec2Client_eq.
  pose proof (createResources_run cfg w) as H. cbn zeta in H.
  rewrite Hreply in H.
  replace (Instances ec2Response ≫= head) with (@None Instance) in H
    by (by destruct Hnone as [-> | ->]).
  cbn zeta. destruct H as [-> ->]. done.
Qed.

Lemma createResources_without_instance_witness :
  let r := createResources_of p1_js demo_config world_no_instance in
  outcome r = Threw TypeError /\
  calls (events r) =
    [ (ec2Client_of p1_js demo_config,
       RunInstancesCommand (ImageId demo_config) "t2.micro" 1 1) ] /\
  console (events r) = ["Creating resources..."].
Proof.
  apply (createResources_without_instance p1_js demo_config world_no_instance
           (runInstancesOutput [])).
  - reflexivity.
  - right. reflexivity.
Defined.

Lemma main_of_eq (f : File) (cfg : Config) (fuel : nat) :
  main_of f cfg fuel =
  tryCatch (P1.createResources cfg ≫= after_creation f cfg fuel)
    (fun error => console_error "An error occurred:" error).
Proof. by destruct f. Qed.

(** X3: when the creation fails, [main] makes no call after the failing one:
    its calls are an initial part of the three creation calls, the handler
    writes its line and the run ends.  Whatever was created before the
    failure is neither terminated nor deleted. *)
Theorem main_stops_when_creation_fails (f : File) (cfg : Config) (fuel : nat)
    (w : World) (error : Error) :
  outcome (createResources_of f cfg w) = Threw error ->
  let r := main_of f cfg fuel w in
  outcome r = Returned () /\
  events r = events (createResources_of f cfg w)
             ++ [ConsoleError "An error occurred:" error] /\
  calls (events r) `prefix_of`
    [ (ec2Client_of f cfg, RunInstancesCommand (ImageId cfg) "t2.micro" 1 1);
      (s3Client_of f cfg, CreateBucketCommand (bucketName_at w));
      (sqsClient_of f cfg, CreateQueueCommand (queueName_at w)) ].
Proof.
  rewrite createResources_of_eq, ec2Client_eq, s3Client_eq, sqsClient_eq.
  intros Hcreate. rewrite main_of_eq. cbn zeta.
  assert (tryCatch (P1.createResources cfg ≫= after_creation f cfg fuel)
            (fun error => console_error "An error occurred:" error) w =
          mkRun (Returned ()) (final (P1.createResources cfg w))
            (events (P1.createResources cfg w)
             ++ [ConsoleError "An error occurred:" error])) as ->.
  { unfold tryCatch. rewrite run_bind, Hcreate. reflexivity. }
  cbn [outcome events]. split_and!; [done..|].
  rewrite calls_app. cbn [calls omap list_omap call_of]. rewrite app_nil_r.
  pose proof (createResources_run cfg w) as H. cbn zeta in H.
  destruct (replies w (issued w)) as [ec2Response|].
  2:{ destruct H as [_ ->]. by eexists. }
  destruct (Instances ec2Response ≫= head) as [instance0|].
  2:{ destruct H as [_ ->]. by eexists. }
  destruct (replies w (S (issued w))) as [s3Response|].
  2:{ destruct H as [_ ->]. by eexists. }
  destruct (replies w (S (S (issued w)))) as [sqsResponse|].
  2:{ destruct H as [_ ->]. by eexists. }
  destruct H as (H & _). congruence.
Qed.

Lemma main_stops_when_creation_fails_witness :
  let r := main_of p1_js demo_config 1 world_bucket_refused in
  outcome r = Returned () /\
  events r = events (createResources_of p1_js demo_config world_bucket_refused)
             ++ [ConsoleError "An error occurred:"
                   (Rejected "BucketAlreadyExists")] /\
  calls (events r) `prefix_of`
    [ (ec2Client_of p1_js demo_config,
       RunInstancesCommand (ImageId demo_config) "t2.micro" 1 1);
      (s3Client_of p1_js demo_config,
       CreateBucketCommand (bucketName_at world_bucket_refused));
      (sqsClient_of p1_js demo_config,
       CreateQueueCommand (queueName_at world_bucket_refused)) ].
Proof.
  apply (main_stops_when_creation_fails p1_js demo_config 1
           world_bucket_refused (Rejected "BucketAlreadyExists")).
  vm_compute. reflexivity.
Defined.

(** ** Listing *)

Lemma forEach_log {A} (line : A -> string) (xs : list A) (w : World) :
  forEach xs (fun x => console_log (line x)) w =
  mkRun (Returned ()) w ((fun x => ConsoleLog (line x)) <$> xs).
Proof.
  induction xs as [|x xs IH]; [done|].
  cbn [forEach]. cbn beta.
  change (console_log (line x)) with (emit (ConsoleLog (line x))).
  rewrite bind_emit. rewrite IH. done.
Qed.

Lemma print_running_run (instance : Instance) (w : World) :
  print_running instance w =
  match State instance with
  | None => mkRun (Threw TypeError) w []
  | Some _ =>
      mkRun (Returned ()) w
        (if decide (is_running instance)
         then [ConsoleLog (instance_line instance)] else [])
  end.
Proof.
  unfold print_running. rewrite bind_defined.
  destruct (State instance) as [state|] eqn:ES; [|done].
  destruct (decide (is_running instance)) as [Hr|Hr];
    unfold is_running in Hr; rewrite ES in Hr; cbn in Hr;
    case_bool_decide; done.
Qed.

Lemma print_running_loop (instances : list Instance) (w : World) :
  let r := forEach instances print_running w in
  final r = w /\ calls (events r) = [] /\
  if decide (Forall (fun instance => is_Some (State instance)) instances)
  then outcome r = Returned () /\
       events r = (fun instance => ConsoleLog (instance_line instance))
                    <$> filter is_running instances
  else outcome r = Threw TypeError.
Proof.
  induction instances as [|instance instances IH]; cbn zeta.
  { split_and!; [done..|].
    destruct (decide (Forall _ [])) as [?|Hn];
      [done | destruct Hn; constructor]. }
  cbn [forEach]. rewrite run_bind, print_running_run.
  destruct (State instance) as [state|] eqn:ES.
  2:{ cbn [outcome final events prefix].
      split; [reflexivity|]. split; [reflexivity|].
      destruct (decide (Forall _ (instance :: instances))) as [H|?]; [|done].
      apply Forall_cons in H as [[? H] _]. congruence. }
  cbn [outcome final events prefix]. destruct IH as (-> & Hc & IH).
  split; [done|]. split.
  { rewrite calls_app, Hc. by destruct (decide (is_running instance)). }
  destruct (decide (Forall _ instances)) as [Hall|Hnot].
  - destruct IH as [-> ->].
    destruct (decide (Forall _ (instance :: instances))) as [_|Hn].
    2:{ destruct Hn. constructor; [by rewrite ES|done]. }
    split; [done|]. rewrite filter_cons.
    by destruct (decide (is_running instance)).
  - destruct (decide (Forall _ (instance :: instances))) as [H|_]; [|done].
    by apply Forall_cons in H as [_ H].
Qed.

Lemma listed_instances_cons (reservation : Reservation)
    (reservations : list Reservation) :
  listed_instances (reservation :: reservations) =
  default [] (Reservation_Instances reservation)
  ++ listed_instances reservations.
Proof. reflexivity. Qed.

Lemma print_reservations_running_loop (reservations : list Reservation)
    (w : World) :
  let r := print_reservations_running reservations w in
  final r = w /\ calls (events r) = [] /\
  if decide (Forall complete_reservation reservations)
  then outcome r = Returned () /\
       events r = (fun instance => ConsoleLog (instance_line instance))
                    <$> filter is_running (listed_instances reservations)
  else outcome r = Threw TypeError.
Proof.
  unfold print_reservations_running.
  induction reservations as [|reservation reservations IH]; cbn zeta.
  { split_and!; [done..|].
    destruct (decide (Forall _ [])) as [?|Hn];
      [done | destruct Hn; constructor]. }
  cbn [forEach]. rewrite bind_assoc. rewrite bind_defined.
  unfold complete_reservation at 1.
  destruct (Reservation_Instances reservation) as [instances|] eqn:EI.
  2:{ cbn [outcome final events prefix].
      split; [reflexivity|]. split; [reflexivity|].
      destruct (decide (Forall _ (reservation :: reservations))) as [H|?];
        [|done].
      apply Forall_cons in H as [H _]. unfold complete_reservation in H.
      by rewrite EI in H. }
  rewrite run_bind.
  destruct (print_running_loop instances w) as (Hf & Hc & Hloop).
  destruct (decide (Forall _ instances)) as [Hall|Hnot].
  - destruct Hloop as [Ho He]. rewrite Ho, Hf, He.
    cbn [outcome final events prefix]. destruct IH as (-> & Hc' & IH).
    split; [done|]. split.
    { rewrite calls_app, Hc', <- He, Hc. done. }
    destruct (decide (Forall complete_reservation reservations)) as [Hrs|Hrs].
    + destruct IH as [-> ->].
      destruct (decide (Forall _ (reservation :: reservations))) as [_|Hn].
      2:{ destruct Hn. constructor; [|done].
          unfold complete_reservation. by rewrite EI. }
      split; [done|].
      rewrite listed_instances_cons, EI, filter_app, fmap_app. done.
    + destruct (decide (Forall _ (reservation :: reservations))) as [H|_];
        [|done].
      by apply Forall_cons in H as [_ H].
  - rewrite Hloop, Hf. cbn [outcome final events].
    split_and!; [done..|].
    destruct (decide (Forall _ (reservation :: reservations))) as [H|_]; [|done].
    apply Forall_cons in H as [H _]. unfold complete_reservation in H.
    by rewrite EI in H.
Qed.

Lemma print_reservations_loop (reservations : list Reservation) (w : World) :
  let r := print_reservations reservations w in
  final r = w /\ calls (events r) = [] /\
  if decide (Forall (fun reservation =>
                       is_Some (Reservation_Instances reservation))
               reservations)
  then outcome r = Returned () /\
       events r = (fun instance => ConsoleLog (instance_line instance))
                    <$> listed_instances reservations
  else outcome r = Threw TypeError.
Proof.
  unfold print_reservations.
  induction reservations as [|reservation reservations IH]; cbn zeta.
  { split_and!; [done..|].
    destruct (decide (Forall _ [])) as [?|Hn];
      [done | destruct Hn; constructor]. }
  cbn [forEach]. rewrite bind_assoc. rewrite bind_defined.
  destruct (Reservation_Instances reservation) as [instances|] eqn:EI.
  2:{ cbn [outcome final events prefix].
      split; [reflexivity|]. split; [reflexivity|].
      destruct (decide (Forall _ (reservation :: reservations))) as [H|?];
        [|done].
      apply Forall_cons in H as [[? H] _]. congruence. }
  rewrite run_bind.
  change (forEach instances print_instance)
    with (forEach instances (fun x => console_log (instance_line x))).
  rewrite (forEach_log instance_line).
  cbn [outcome final events prefix]. destruct IH as (-> & Hc & IH).
  split; [done|]. split.
  { rewrite calls_app, Hc. clear. by induction instances. }
  destruct (decide (Forall _ reservations)) as [Hrs|Hrs].
  - destruct IH as [-> ->].
    destruct (decide (Forall _ (reservation :: reservations))) as [_|Hn].
    2:{ destruct Hn. constructor; [by rewrite EI|done]. }
    split; [done|]. by rewrite listed_instances_cons, EI, fmap_app.
  - destruct (decide (Forall _ (reservation :: reservations))) as [H|_];
      [|done].
    by apply Forall_cons in H as [_ H].
Qed.

Lemma console_app (evs evs' : list Event) :
  console (evs ++ evs') = console evs ++ console evs'.
Proof. apply omap_app. Qed.

Lemma console_logs {A} (line : A -> string) (xs : list A) :
  console ((fun x => ConsoleLog (line x)) <$> xs) = line <$> xs.
Proof. induction xs as [|x xs IH]; [done|]. cbn. by f_equal. Qed.

Lemma calls_logs {A} (line : A -> string) (xs : list A) :
  calls ((fun x => ConsoleLog (line x)) <$> xs) = [].
Proof. by induction xs. Qed.

(** How [listResources] of [p1.js] runs. *)
Lemma P1_listResources_run (cfg : Config) (w : World) :
  let r := P1.listResources cfg w in
  let describe := (P1.ec2Client cfg, DescribeInstancesCommand) in
  let listBuckets := (P1.s3Client cfg, ListBucketsCommand) in
  let listQueues := (P1.sqsClient cfg, ListQueuesCommand) in
  match replies w (issued w) with
  | Reject reason =>
      outcome r = Threw (Rejected reason) /\ calls (events r) = [describe]
  | Resolve ec2Response =>
      if decide (Forall complete_reservation
                   (default [] (Reservations ec2Response)))
      then
        match replies w (S (issued w)) with
        | Reject reason =>
            outcome r = Threw (Rejected reason) /\
            calls (events r) = [describe; listBuckets]
        | Resolve s3Response =>
            match replies w (S (S (issued w))) with
            | Reject reason =>
                outcome r = Threw (Rejected reason) /\
                calls (events r) = [describe; listBuckets; listQueues]
            | Resolve sqsResponse =>
                outcome r = Returned () /\
                calls (events r) = [describe; listBuckets; listQueues] /\
                console (events r) =
                  [ "Listing resources..."; "EC2 Instances:" ]
                  ++ (instance_line
                        <$> filter is_running
                              (listed_instances
                                 (default [] (Reservations ec2Response))))
                  ++ [ "S3 Buckets:" ]
                  ++ (bucket_line <$> default [] (Buckets s3Response))
                  ++ [ "SQS Queues:" ]
                  ++ (queue_line <$> default [] (QueueUrls sqsResponse))
            end
        end
      else outcome r = Threw TypeError /\ calls (events r) = [describe]
  end.
Proof.
  cbn zeta. unfold P1.listResources. run.
  destruct (replies w (issued w)) as [ec2Response|]; [|done].
  run.
  change (match Reservations ec2Response with
          | Some reservations => forEach reservations _
          | None => mret ()
          end)
    with (match Reservations ec2Response with
          | Some reservations => print_reservations_running reservations
          | None => mret ()
          end).
  replace (match Reservations ec2Response with
           | Some reservations => print_reservations_running reservations
           | None => mret ()
           end)
    with (print_reservations_running (default [] (Reservations ec2Response)))
    by (by destruct (Reservations ec2Response)).
  rewrite run_bind.
  destruct (print_reservations_running_loop
              (default [] (Reservations ec2Response)) (advance w))
    as (Hf & Hc & Hloop).
  destruct (decide (Forall complete_reservation _)) as [Hall|Hnot].
  2:{ rewrite Hloop. cbn [prefix outcome events].
      split; [done|]. by rewrite calls_app, Hc. }
  destruct Hloop as [Ho He]. rewrite Ho, Hf. run.
  cbn [advance replies issued].
  destruct (replies w (S (issued w))) as [s3Response|].
  2:{ cbn [prefix outcome events]. split; [done|].
      by rewrite !calls_app, Hc. }
  run.
  replace (match Buckets s3Response with
           | Some buckets => forEach buckets _
           | None => mret ()
           end)
    with (forEach (default [] (Buckets s3Response))
            (fun bucket => console_log (bucket_line bucket)))
    by (by destruct (Buckets s3Response)).
  rewrite run_bind. rewrite (forEach_log bucket_line).
  cbn [outcome final events]. run. cbn [advance replies issued].
  destruct (replies w (S (S (issued w)))) as [sqsResponse|].
  2:{ cbn [prefix outcome events]. split; [done|].
      by rewrite !calls_app, Hc, calls_logs. }
  run.
  replace (match QueueUrls sqsResponse with
           | Some queueUrls => forEach queueUrls _
           | None => mret ()
           end)
    with (forEach (default [] (QueueUrls sqsResponse))
            (fun queueUrl => console_log (queue_line queueUrl)))
    by (by destruct (QueueUrls sqsResponse)).
  rewrite (forEach_log queue_line).
  cbn [prefix outcome events]. split; [done|]. split.
  - by rewrite !calls_app, Hc, !calls_logs.
  - rewrite He, !console_app, !console_logs.
    cbn [console omap list_omap line_of]. rewrite <- !app_assoc. reflexivity.
Qed.

(** How [listResources] of [part_000] runs. *)
Lemma Part000_listResources_run (cfg : Config) (w : World) :
  let r := Part000.listResources cfg w in
  let describe := (P1.ec2Client cfg, DescribeInstancesCommand) in
  let listBuckets := (P1.s3Client cfg, ListBucketsCommand) in
  let listQueues := (P1.sqsClient cfg, ListQueuesCommand) in
  match replies w (issued w) with
  | Reject reason =>
      outcome r = Threw (Rejected reason) /\ calls (events r) = [describe]
  | Resolve ec2Response =>
      match Reservations ec2Response with
      | None => outcome r = Threw TypeError /\ calls (events r) = [describe]
      | Some reservations =>
          if decide (Forall (fun reservation =>
                               is_Some (Reservation_Instances reservation))
                       reservations)
          then
            match replies w (S (issued w)) with
            | Reject reason =>
                outcome r = Threw (Rejected reason) /\
                calls (events r) = [describe; listBuckets]
            | Resolve s3Response =>
                match Buckets s3Response with
                | None =>
                    outcome r = Threw TypeError /\
                    calls (events r) = [describe; listBuckets]
                | Some buckets =>
                    match replies w (S (S (issued w))) with
                    | Reject reason =>
                        outcome r = Threw (Rejected reason) /\
                        calls (events r) = [describe; listBuckets; listQueues]
                    | Resolve sqsResponse =>
                        match QueueUrls sqsResponse with
                        | None =>
                            outcome r = Threw TypeError /\
                            calls (events r) =
                              [describe; listBuckets; listQueues]
                        | Some queueUrls =>
                            outcome r = Returned () /\
                            calls (events r) =
                              [describe; listBuckets; listQueues] /\
                            console (events r) =
                              [ "Listing resources..."; "EC2 Instances:" ]
                              ++ (instance_line
                                    <$> listed_instances reservations)
                              ++ [ "S3 Buckets:" ]
                              ++ (bucket_line <$> buckets)
                              ++ [ "SQS Queues:" ]
                              ++ (queue_line <$> queueUrls)
                        end
                    end
                end
            end
          else outcome r = Threw TypeError /\ calls (events r) = [describe]
      end
  end.
Proof.
  cbn zeta. unfold Part000.listResources. run.
  destruct (replies w (issued w)) as [ec2Response|]; [|done].
  run.
  destruct (Reservations ec2Response) as [reservations|]; [|done].
  change (forEach reservations _)
    with (print_reservations reservations).
  rewrite run_bind.
  destruct (print_reservations_loop reservations (advance w))
    as (Hf & Hc & Hloop).
  destruct (decide (Forall _ reservations)) as [Hall|Hnot].
  2:{ rewrite Hloop. cbn [prefix outcome events].
      split; [done|]. by rewrite calls_app, Hc. }
  destruct Hloop as [Ho He]. rewrite Ho, Hf. run.
  cbn [advance replies issued].
  destruct (replies w (S (issued w))) as [s3Response|].
  2:{ cbn [prefix outcome events]. split; [done|].
      by rewrite !calls_app, Hc. }
  run.
  destruct (Buckets s3Response) as [buckets|].
  2:{ cbn [prefix outcome events]. split; [done|].
      by rewrite !calls_app, Hc. }
  change (forEach buckets _)
    with (forEach buckets (fun bucket => console_log (bucket_line bucket))).
  rewrite run_bind. rewrite (forEach_log bucket_line).
  cbn [outcome final events]. run. cbn [advance replies issued].
  destruct (replies w (S (S (issued w)))) as [sqsResponse|].
  2:{ cbn [prefix outcome events]. split; [done|].
      by rewrite !calls_app, Hc, calls_logs. }
  run.
  destruct (QueueUrls sqsResponse) as [queueUrls|].
  2:{ cbn [prefix outcome events]. split; [done|].
      by rewrite !calls_app, Hc, calls_logs. }
  change (forEach queueUrls _)
    with (forEach queueUrls (fun queueUrl => console_log (queue_line queueUrl))).
  rewrite (forEach_log queue_line).
  cbn [prefix outcome events]. split; [done|]. split.
  - by rewrite !calls_app, Hc, !calls_logs.
  - rewrite He, !console_app, !console_logs.
    cbn [console omap list_omap line_of]. rewrite <- !app_assoc. reflexivity.
Qed.





(** X6: however it ends, [listResources] only reads: it starts with the
    instance description and its calls are an initial part of the three
    listing calls, in both files. *)
Theorem listResources_reads_only (f : File) (cfg : Config) (w : World) :
  let describe := (ec2Client_of f cfg, DescribeInstancesCommand) in
  let listBuckets := (s3Client_of f cfg, ListBucketsCommand) in
  let listQueues := (sqsClient_of f cfg, ListQueuesCommand) in
  let r := listResources_of f cfg w in
  head (calls (events r)) = Some describe /\
  calls (events r) `prefix_of` [describe; listBuckets; listQueues].
Proof.
  cbn zeta. rewrite ec2Client_eq, s3Client_eq, sqsClient_eq.
  destruct f; cbn [listResources_of].
  - pose proof (P1_listResources_run cfg w) as H. cbn zeta in H.
    repeat match type of H with
           | match ?x with _ => _ end => destruct x
           | if ?x then _ else _ => destruct x
           end.
    all: destruct H as (_ & H); try destruct H as (H & _); rewrite H.
    all: split; [done | by eexists].
  - pose proof (Part000_listResources_run cfg w) as H. cbn zeta in H.
    repeat match type of H with
           | match ?x with _ => _ end => destruct x
           | if ?x then _ else _ => destruct x
           end.
    all: destruct H as (_ & H); try destruct H as (H & _); rewrite H.
    all: split; [done | by eexists].
Qed.

(** ** The queue: depth and round trip *)

Lemma checkSQSMessages_of_eq (f : File) :
  checkSQSMessages_of f = P1.checkSQSMessages.
Proof. by destruct f. Qed.

Lemma sendMessageToSQS_of_eq (f : File) :
  sendMessageToSQS_of f = P1.sendMessageToSQS.
Proof. by destruct f. Qed.

(** X7: [checkSQSMessages] reads [response.Attributes] without a guard and
    the count without a check: on a response without [Attributes] it throws
    a [TypeError] and prints nothing; otherwise it returns and prints what
    the provider filed under [ApproximateNumberOfMessages], or the word
    [undefined] when the key is missing. *)
Theorem checkSQSMessages_prints_count (f : File) (cfg : Config)
    (queueUrl : option string) (w : World) (response : Response) :
  replies w (issued w) = Resolve response ->
  let r := checkSQSMessages_of f cfg queueUrl w in
  calls (events r) =
    [ (sqsClient_of f cfg,
       GetQueueAttributesCommand queueUrl ["ApproximateNumberOfMessages"]) ] /\
  match Attributes response with
  | None => outcome r = Threw TypeError /\ console (events r) = []
  | Some attributes =>
      outcome r = Returned () /\
      console (events r) =
        [ "Number of messages in SQS queue: "
          +:+ default "undefined" (attributes !! "ApproximateNumberOfMessages") ]
  end.
Proof.
  intros Hreply. rewrite checkSQSMessages_of_eq, sqsClient_eq. cbn zeta.
  unfold P1.checkSQSMessages. run. rewrite Hreply. run.
  destruct (Attributes response) as [attributes|]; run; observe; [|done].
  by destruct (attributes !! "ApproximateNumberOfMessages").
Qed.

Lemma checkSQSMessages_prints_count_witness :
  let r := checkSQSMessages_of p1_js demo_config demo_queueUrl world_no_count in
  calls (events r) =
    [ (sqsClient_of p1_js demo_config,
       GetQueueAttributesCommand demo_queueUrl
         ["ApproximateNumberOfMessages"]) ] /\
  outcome r = Returned () /\
  console (events r) = ["Number of messages in SQS queue: undefined"].
Proof.
  apply (checkSQSMessages_prints_count p1_js demo_config demo_queueUrl
           world_no_count attributesOutput_without_count).
  reflexivity.
Defined.

Lemma sendMessageToSQS_calls (cfg : Config) (queueUrl : option string)
    (w : World) :
  calls (events (P1.sendMessageToSQS cfg queueUrl w)) =
    [ (P1.sqsClient cfg,
       SendMessageCommand queueUrl "This is a test message"
         {[ "Title" := {| DataType := Some "String";
                          StringValue := Some "test message" |} ]}) ].
Proof.
  unfold P1.sendMessageToSQS. run. by destruct (replies w (issued w)).
Qed.

(** X8: the message [sendMessageToSQS] sends is one [receiveSQSMessage] can
    take.  When the receive call hands back, as its first message, a message
    with the attributes and the body of the send call, the routine prints
    the title and the body that were sent and acknowledges that message by
    its receipt handle; the unguarded reads do not fail. *)
Theorem message_round_trip (f : File) (cfg : Config)
    (queueUrl : option string) (w w' : World) (body : string)
    (attributes : gmap string MessageAttributeValue)
    (response : Response) (message : Message) (rest : list Message) :
  (sqsClient_of f cfg, SendMessageCommand queueUrl body attributes)
    ∈ calls (events (sendMessageToSQS_of f cfg queueUrl w)) ->
  replies w' (issued w') = Resolve response ->
  Messages response = Some (message :: rest) ->
  MessageAttributes message = Some attributes ->
  Body message = Some body ->
  let r := receiveSQSMessage_of f cfg queueUrl w' in
  outcome r <> Threw TypeError /\
  console (events r) =
    [ "Receiving message from SQS..."; "Message title: test message";
      "Message body: This is a test message" ] /\
  acks (events r) = [ReceiptHandle message].
Proof.
  rewrite sendMessageToSQS_of_eq, receive_eq, sqsClient_eq.
  rewrite sendMessageToSQS_calls.
  intros Hsent%list_elem_of_singleton Hreply Hmessages Hattributes Hbody.
  injection Hsent as -> ->.
  cbn zeta. rewrite receive_run. cbn zeta. rewrite Hreply, Hmessages.
  unfold Title. rewrite Hattributes. cbn [mbind option_bind].
  rewrite lookup_singleton_eq. rewrite Hbody.
  destruct (replies w' (S (issued w'))); done.
Qed.

Lemma message_round_trip_witness :
  let r := receiveSQSMessage_of p1_js demo_config demo_queueUrl world_titled in
  outcome r <> Threw TypeError /\
  console (events r) =
    [ "Receiving message from SQS..."; "Message title: test message";
      "Message body: This is a test message" ] /\
  acks (events r) = [ReceiptHandle titled_message].
Proof.
  apply (message_round_trip p1_js demo_config demo_queueUrl world_happy
           world_titled "This is a test message"
           {[ "Title" := {| DataType := Some "String";
                            StringValue := Some "test message" |} ]}
           (receiveOutput (Some [titled_message])) titled_message []).
  - vm_compute. left.
  - reflexivity.
  - reflexivity.
  - reflexivity.
  - reflexivity.
Defined.

(** ** Invariants of every run *)

Lemma always_ret {A} (P : Event -> Prop) (a : A) : always P (@mret M _ A a).
Proof. intros w. constructor. Qed.

Lemma always_emit (P : Event -> Prop) (e : Event) : P e -> always P (emit e).
Proof. intros He w. by repeat constructor. Qed.

Lemma always_log (P : Event -> Prop) (line : string) :
  P (ConsoleLog line) -> always P (console_log line).
Proof. apply always_emit. Qed.

Lemma always_sleep (P : Event -> Prop) (ms : Z) :
  P (SetTimeout ms) -> always P (sleep ms).
Proof. apply always_emit. Qed.

Lemma always_error (P : Event -> Prop) (label : string) (error : Error) :
  P (ConsoleError label error) -> always P (console_error label error).
Proof. apply always_emit. Qed.

Lemma always_defined {A} (P : Event -> Prop) (x : option A) :
  always P (defined x).
Proof. intros w. destruct x; constructor. Qed.

Lemma always_Date_now (P : Event -> Prop) : always P Date_now.
Proof. intros w. constructor. Qed.

Lemma always_send (P : Event -> Prop) (client : Client) (command : Command) :
  (forall reply, P (Send client command reply)) ->
  always P (send client command).
Proof.
  intros HP w. rewrite run_send.
  destruct (replies w (issued w)); by repeat constructor.
Qed.

Lemma always_bind {A B} (P : Event -> Prop) (m : M A) (k : A -> M B) :
  always P m -> (forall a, always P (k a)) -> always P (m ≫= k).
Proof.
  intros Hm Hk w. rewrite run_bind. specialize (Hm w).
  destruct (outcome (m w)) as [a| |]; try done.
  cbn [prefix events]. apply Forall_app. split; [done | apply Hk].
Qed.

Lemma always_forEach {A} (P : Event -> Prop) (xs : list A) (f : A -> M unit) :
  (forall x, always P (f x)) -> always P (forEach xs f).
Proof.
  intros Hf. induction xs as [|x xs IH]; [apply always_ret|].
  cbn [forEach]. apply always_bind; [apply Hf | by intros _].
Qed.

Lemma always_while {S} (P : Event -> Prop) (fuel : nat) (cond : S -> bool)
    (body : S -> M S) (s : S) :
  (forall s, always P (body s)) -> always P (while fuel cond body s).
Proof.
  intros Hbody. revert s. induction fuel as [|fuel IH]; intros s; cbn [while].
  - destruct (cond s); [intros w; constructor | apply always_ret].
  - destruct (cond s); [|apply always_ret].
    apply always_bind; [apply Hbody | apply IH].
Qed.

Lemma tryCatch_run {A} (m : M A) (h : Error -> M A) (w : World) :
  tryCatch m h w =
  match outcome (m w) with
  | Threw e => prefix (events (m w)) (h e (final (m w)))
  | _ => m w
  end.
Proof. unfold tryCatch. by destruct (outcome (m w)). Qed.

Lemma always_tryCatch {A} (P : Event -> Prop) (m : M A) (h : Error -> M A) :
  always P m -> (forall e, always P (h e)) -> always P (tryCatch m h).
Proof.
  intros Hm Hh w. rewrite tryCatch_run. specialize (Hm w).
  destruct (outcome (m w)) as [a|e|]; try done.
  cbn [prefix events]. apply Forall_app. split; [done | apply Hh].
Qed.

Ltac always :=
  repeat first
    [ apply always_ret
    | apply always_log
    | apply always_sleep
    | apply always_error
    | apply always_defined
    | apply always_Date_now
    | apply always_send; intros ?
    | apply always_forEach; intros ?
    | apply always_while; intros ?
    | apply always_tryCatch; [|intros ?]
    | apply always_bind; [|intros ?]
    | match goal with
      | |- always _ (match ?x with _ => _ end) => destruct x
      | |- always _ (let '(_, _) := ?x in _) => destruct x
      | |- always _ (if ?x then _ else _) => destruct x
      end ].

(** X9: every call of every run of [main] goes through the client of the
    command's own service (EC2 commands through the EC2 client, and so on),
    and that client carries the file's credentials and region. *)
Theorem calls_are_routed (f : File) (cfg : Config) (fuel : nat) (w : World) :
  Forall (routed cfg) (events (main_of f cfg fuel w)).
Proof.
  revert w. change (always (routed cfg) (main_of f cfg fuel)).
  destruct f; cbn [main_of].
  - unfold P1.main, P1.createResources, P1.listResources, P1.uploadFileToS3,
      P1.sendMessageToSQS, P1.checkSQSMessages, P1.receiveSQSMessage,
      P1.deleteResources.
    always; exact I || reflexivity.
  - unfold Part000.main, Part000.createResources, Part000.listResources,
      Part000.uploadFileToS3, Part000.sendMessageToSQS,
      Part000.checkSQSMessages, Part000.receiveSQSMessage,
      Part000.deleteResources.
    always; exact I || reflexivity.
Qed.

Lemma bind_Forall {A B} (P : Event -> Prop) (m : M A) (k : A -> M B)
    (w : World) :
  Forall P (events (m w)) ->
  (forall a, outcome (m w) = Returned a ->
             Forall P (events (k a (final (m w))))) ->
  Forall P (events ((m ≫= k) w)).
Proof.
  intros Hm Hk. rewrite run_bind.
  destruct (outcome (m w)) as [a| |]; try done.
  cbn [prefix events]. apply Forall_app. split; [done | by apply Hk].
Qed.

Lemma tryCatch_Forall {A} (P : Event -> Prop) (m : M A) (h : Error -> M A)
    (w : World) :
  Forall P (events (m w)) -> (forall e, always P (h e)) ->
  Forall P (events (tryCatch m h w)).
Proof.
  intros Hm Hh. rewrite tryCatch_run.
  destruct (outcome (m w)) as [a|e|]; try done.
  cbn [prefix events]. apply Forall_app. split; [done | apply Hh].
Qed.

Lemma createResources_scoped (cfg : Config) (w : World)
    (instanceId queueUrl : option string) :
  Forall (scoped (instanceId, bucketName_at w, queueUrl))
    (events (P1.createResources cfg w)).
Proof.
  pose proof (createResources_run cfg w) as H. cbn zeta in H.
  repeat match type of H with
         | match ?x with _ => _ end => destruct x
         end.
  all: destruct H as (_ & H); try destruct H as (H & _); rewrite H.
  all: by repeat constructor.
Qed.

Lemma createResources_ids (cfg : Config) (w : World)
    (ids : option string * string * option string) :
  outcome (P1.createResources cfg w) = Returned ids ->
  ids = (instanceId_at w, bucketName_at w, queueUrl_at w).
Proof.
  pose proof (createResources_run cfg w) as H. cbn zeta in H.
  unfold instanceId_at, queueUrl_at. cbn [Nat.add].
  destruct (replies w (issued w)) as [ec2Response|].
  2:{ destruct H as [-> _]. done. }
  destruct (Instances ec2Response ≫= head) as [instance0|].
  2:{ destruct H as [-> _]. done. }
  destruct (replies w (S (issued w))) as [s3Response|].
  2:{ destruct H as [-> _]. done. }
  destruct (replies w (S (S (issued w)))) as [sqsResponse|].
  2:{ destruct H as [-> _]. done. }
  destruct H as (-> & _). by intros [= <-].
Qed.

(** X10: a run of [main] touches no bucket, queue or instance but its own.
    In every run, however it ends, every call that names a bucket names the
    bucket of the creation, every call that names a queue carries the
    [QueueUrl] the queue creation answered with, and the only instance ever
    terminated is the first one of the [RunInstances] response. *)
Theorem main_touches_only_created (f : File) (cfg : Config) (fuel : nat)
    (w : World) :
  Forall (scoped (instanceId_at w, bucketName_at w, queueUrl_at w))
    (events (main_of f cfg fuel w)).
Proof.
  destruct f; cbn [main_of].
  - unfold P1.main. apply tryCatch_Forall.
    + apply bind_Forall; [apply createResources_scoped|].
      intros ids ->%createResources_ids. cbn beta iota.
      generalize (final (P1.createResources cfg w)).
      generalize (instanceId_at w), (bucketName_at w), (queueUrl_at w).
      intros instanceId bucketName queueUrl.
      change (always (scoped (instanceId, bucketName, queueUrl))
                (P1.listResources cfg;;
                 P1.uploadFileToS3 cfg bucketName;;
                 P1.sendMessageToSQS cfg queueUrl;;
                 P1.checkSQSMessages cfg queueUrl;;
                 P1.receiveSQSMessage cfg queueUrl;;
                 P1.checkSQSMessages cfg queueUrl;;
                 console_log "Waiting for 10 seconds...";;
                 sleep 10000;;
                 P1.deleteResources cfg fuel instanceId bucketName queueUrl;;
                 console_log "Waiting for 1 minute...";;
                 sleep 60000;;
                 P1.listResources cfg)).
      unfold P1.listResources, P1.uploadFileToS3,
        P1.sendMessageToSQS, P1.checkSQSMessages, P1.receiveSQSMessage,
        P1.deleteResources.
      always; exact I || reflexivity.
    + intros e. always. exact I.
  - unfold Part000.main. apply tryCatch_Forall.
    + apply bind_Forall; [apply createResources_scoped|].
      intros ids ->%createResources_ids. cbn beta iota.
      generalize (final (Part000.createResources cfg w)).
      generalize (instanceId_at w), (bucketName_at w), (queueUrl_at w).
      intros instanceId bucketName queueUrl.
      change (always (scoped (instanceId, bucketName, queueUrl))
                (Part000.listResources cfg;;
                 Part000.uploadFileToS3 cfg bucketName;;
                 Part000.sendMessageToSQS cfg queueUrl;;
                 Part000.checkSQSMessages cfg queueUrl;;
                 Part000.receiveSQSMessage cfg queueUrl;;
                 Part000.checkSQSMessages cfg queueUrl;;
                 console_log "Waiting for 10 seconds...";;
                 sleep 10000;;
                 Part000.deleteResources cfg fuel instanceId bucketName
                   queueUrl;;
                 console_log "Waiting for 20 seconds...";;
                 sleep 20000;;
                 Part000.listResources cfg)).
      unfold Part000.listResources, Part000.uploadFileToS3,
        Part000.sendMessageToSQS, Part000.checkSQSMessages,
        Part000.receiveSQSMessage, Part000.deleteResources.
      always; exact I || reflexivity.
    + intros e. always. exact I.
Qed.

(** ** Termination *)

Section Late.
Variables (N fuel : nat).

Lemma late_advance (w : World) : late N fuel w -> late N fuel (advance w).
Proof. intros (? & ? & ?). split_and!; [done..|cbn; lia]. Qed.

Lemma late_tick (w : World) : late N fuel w -> late N fuel (tick w).
Proof. intros (? & ? & ?). split_and!; done. Qed.

Lemma late_frame (w w' : World) :
  replies w' = replies w -> (issued w <= issued w')%nat ->
  late N fuel w -> late N fuel w'.
Proof. intros Hr Hi (? & ? & ?). split_and!; [by rewrite Hr|done|lia]. Qed.

Lemma safe_ret {A} (a : A) : safe (late N fuel) (@mret M _ A a).
Proof. by intros w Hw. Qed.

Lemma safe_emit (e : Event) : safe (late N fuel) (emit e).
Proof. by intros w Hw. Qed.

Lemma safe_log (line : string) : safe (late N fuel) (console_log line).
Proof. apply safe_emit. Qed.

Lemma safe_sleep (ms : Z) : safe (late N fuel) (sleep ms).
Proof. apply safe_emit. Qed.

Lemma safe_error (label : string) (error : Error) :
  safe (late N fuel) (console_error label error).
Proof. apply safe_emit. Qed.

Lemma safe_defined {A} (x : option A) : safe (late N fuel) (defined x).
Proof. intros w Hw. by destruct x. Qed.

Lemma safe_Date_now : safe (late N fuel) Date_now.
Proof. intros w Hw. split; [done | by apply late_tick]. Qed.

Lemma safe_send (client : Client) (command : Command) :
  safe (late N fuel) (send client command).
Proof.
  intros w Hw. rewrite run_send.
  destruct (replies w (issued w)); (split; [done | by apply late_advance]).
Qed.

Lemma safe_bind {A B} (m : M A) (k : A -> M B) :
  safe (late N fuel) m -> (forall a, safe (late N fuel) (k a)) ->
  safe (late N fuel) (m ≫= k).
Proof.
  intros Hm Hk w Hw. rewrite run_bind. destruct (Hm w Hw) as [Ho Hf].
  destruct (outcome (m w)) as [a| |]; try done.
  cbn [prefix outcome final]. by apply Hk.
Qed.

Lemma safe_forEach {A} (xs : list A) (f : A -> M unit) :
  (forall x, safe (late N fuel) (f x)) -> safe (late N fuel) (forEach xs f).
Proof.
  intros Hf. induction xs as [|x xs IH]; [apply safe_ret|].
  cbn [forEach]. apply safe_bind; [apply Hf | by intros _].
Qed.

Lemma safe_tryCatch {A} (m : M A) (h : Error -> M A) :
  safe (late N fuel) m -> (forall e, safe (late N fuel) (h e)) ->
  safe (late N fuel) (tryCatch m h).
Proof.
  intros Hm Hh w Hw. rewrite tryCatch_run. destruct (Hm w Hw) as [Ho Hf].
  destruct (outcome (m w)) as [a|e|] eqn:E; try done.
  - by rewrite E.
  - cbn [prefix outcome final]. by apply Hh.
Qed.

Lemma purge_frame (s3Client : Client) (bucketName : string) (fuel' : nat)
    (st : option bool * option string) (w : World) :
  let r := purge s3Client fuel' bucketName st w in
  replies (final r) = replies w /\ (issued w <= issued (final r))%nat.
Proof.
  cbn zeta. revert st w. induction fuel' as [|fuel' IH]; intros st w.
  - rewrite purge_O. by destruct (purge_cond st).
  - rewrite purge_S. destruct (purge_cond st); [|done].
    rewrite run_bind.
    pose proof (purge_body_run s3Client bucketName st w) as Hbody.
    cbn zeta in Hbody.
    destruct (replies w (issued w)) as [page|reason].
    2:{ rewrite Hbody. cbn. split; [done|lia]. }
    destruct Hbody as (_ & Hfin & Hout).
    pose proof (delete_objects_frame s3Client bucketName
                  (default [] (Contents page)) (advance w)) as [Hrep Hiss].
    cbn in Hrep, Hiss.
    rewrite Hout, Hfin.
    destruct (outcome (delete_objects _ _ _ _)) as [[]| |];
      cbn [prefix outcome final]; [|split; [done|lia]..].
    destruct (IH (IsTruncated page, NextContinuationToken page)
                (final (delete_objects s3Client bucketName
                          (default [] (Contents page)) (advance w))))
      as [-> Hle].
    split; [done|lia].
Qed.

End Late.

Ltac safe_step :=
  first
    [ apply safe_ret
    | apply safe_log
    | apply safe_sleep
    | apply safe_error
    | apply safe_defined
    | apply safe_Date_now
    | apply safe_send
    | apply safe_forEach; intros ?
    | apply safe_tryCatch; [|intros ?]
    | apply safe_bind; [|intros ?]
    | match goal with
      | |- safe _ (match ?x with _ => _ end) => destruct x
      | |- safe _ (let '(_, _) := ?x in _) => destruct x
      | |- safe _ (if ?x then _ else _) => destruct x
      end ].

Lemma safe_deleteResources (N fuel : nat) (f : File) (cfg : Config)
    (instanceId : option string) (bucketName : string)
    (queueUrl : option string) :
  safe (late N fuel)
    (deleteResources_of f cfg fuel instanceId bucketName queueUrl).
Proof.
  rewrite deleteResources_eq. apply safe_bind; [apply safe_log|]. intros _.
  apply safe_bind.
  - intros w Hw. split.
    + destruct Hw as (Hlate & Hpos & Hfuel).
      by apply (purge_terminates _ _ N).
    + destruct (purge_frame (s3Client_of f cfg) bucketName fuel
                  (Some true, None) w) as [Hr Hi].
      by apply (late_frame N fuel w).
  - intros _. unfold teardown. repeat safe_step.
Qed.

Ltac safe := repeat first [apply safe_deleteResources | safe_step].

(** X11: [main] settles.  It never throws, whatever the provider answers:
    the statement [main();] at the end of either file leaves no rejection
    unhandled.  And it returns as soon as the purge loop can end: if from the
    [N]-th reply on no reply is a truncated page, [main] returns with any
    bound on the iterations of the loop that reaches the [N]-th call. *)
Theorem main_returns (f : File) (cfg : Config) (fuel : nat) (w : World) :
  let r := main_of f cfg fuel w in
  (forall error, outcome r <> Threw error) /\
  (forall N,
     (0 < fuel)%nat -> (N < issued w + fuel)%nat ->
     (forall n page, (N <= n)%nat -> replies w n = Resolve page ->
                     ~ truncated page) ->
     outcome r = Returned ()).
Proof.
  cbn zeta.
  assert (forall error, outcome (main_of f cfg fuel w) <> Threw error) as Hn.
  { intros error. destruct f; cbn [main_of]; unfold P1.main, Part000.main;
      rewrite tryCatch_run.
    all: match goal with
         | |- context [match outcome ?r with _ => _ end] =>
             destruct (outcome r) eqn:E; rewrite ?E; done
         end. }
  split; [exact Hn|].
  intros N Hpos Hfuel Hlate.
  assert (safe (late N fuel) (main_of f cfg fuel)) as Hsafe.
  { destruct f; cbn [main_of].
    - unfold P1.main.
      change (P1.deleteResources cfg fuel)
        with (deleteResources_of p1_js cfg fuel).
      unfold P1.createResources, P1.listResources, P1.uploadFileToS3,
        P1.sendMessageToSQS, P1.checkSQSMessages, P1.receiveSQSMessage.
      safe.
    - unfold Part000.main.
      change (Part000.deleteResources cfg fuel)
        with (deleteResources_of part_000 cfg fuel).
      unfold Part000.createResources, Part000.listResources,
        Part000.uploadFileToS3, Part000.sendMessageToSQS,
        Part000.checkSQSMessages, Part000.receiveSQSMessage.
      safe. }
  destruct (Hsafe w) as [Hd _]; [done|].
  specialize (Hn).
  destruct (outcome (main_of f cfg fuel w)) as [[]|e|]; [done| |done].
  by destruct (Hn e).
Qed.

Lemma main_returns_witness :
  outcome (main_of p1_js demo_config 1 world_happy) = Returned ().
Proof.
  apply (proj2 (main_returns p1_js demo_config 1 world_happy) 0%nat).
  - lia.
  - cbn. lia.
  - intros n page _ Hn. unfold truncated.
    destruct (decide (n < 20)%nat) as [Hlt|Hge].
    + do 20 (destruct n as [|n]; [injection Hn as <-; discriminate|]).
      cbn in Hlt. lia.
    + unfold world_happy, world_of in Hn. cbn [replies] in Hn.
      rewrite lookup_ge_None_2 in Hn by (cbn; lia).
      injection Hn as <-. discriminate.
Defined.

(** ** The bound on the loop *)







(** ** What can fail *)

Lemma guarded_ret {A} (a : A) : guarded (@mret M _ A a).
Proof. by intros w. Qed.

Lemma guarded_emit (e : Event) : guarded (emit e).
Proof. by intros w. Qed.

Lemma guarded_log (line : string) : guarded (console_log line).
Proof. apply guarded_emit. Qed.

Lemma guarded_send (client : Client) (command : Command) :
  guarded (send client command).
Proof. intros w. rewrite run_send. by destruct (replies w (issued w)). Qed.

Lemma guarded_bind {A B} (m : M A) (k : A -> M B) :
  guarded m -> (forall a, guarded (k a)) -> guarded (m ≫= k).
Proof.
  intros Hm Hk w. rewrite run_bind. specialize (Hm w).
  destruct (outcome (m w)) as [a|e|]; [apply Hk|..|done].
  cbn. congruence.
Qed.

Lemma guarded_forEach {A} (xs : list A) (f : A -> M unit) :
  (forall x, guarded (f x)) -> guarded (forEach xs f).
Proof.
  intros Hf. induction xs as [|x xs IH]; [apply guarded_ret|].
  cbn [forEach]. apply guarded_bind; [apply Hf | by intros _].
Qed.

Lemma guarded_while {S} (fuel : nat) (cond : S -> bool) (body : S -> M S)
    (s : S) :
  (forall s, guarded (body s)) -> guarded (while fuel cond body s).
Proof.
  intros Hbody. revert s. induction fuel as [|fuel IH]; intros s; cbn [while].
  - destruct (cond s); [by intros w | apply guarded_ret].
  - destruct (cond s); [|apply guarded_ret].
    apply guarded_bind; [apply Hbody | apply IH].
Qed.

Ltac guarded :=
  repeat first
    [ apply guarded_ret
    | apply guarded_log
    | apply guarded_send
    | apply guarded_forEach; intros ?
    | apply guarded_while; intros ?
    | apply guarded_bind; [|intros ?]
    | match goal with
      | |- guarded (match ?x with _ => _ end) => destruct x
      | |- guarded (let '(_, _) := ?x in _) => destruct x
      end ].

(** A computation that reads no property of a response it has not checked
    fails only when a call is rejected, on that call. *)
Lemma fails_on_rejection {A} (m : M A) (w : World) :
  guarded m -> orderly m -> fails_by_rejection (m w).
Proof.
  intros Hg Ho error Hthrew. specialize (Hg w). specialize (Ho w).
  unfold disciplined in Ho. rewrite Hthrew in Ho, Hg.
  destruct error as [|reason]; [done|].
  destruct Ho as (pre & client & command & ? & ?). eauto 10.
Qed.

(** X13: [uploadFileToS3], [sendMessageToSQS] and [deleteResources] read
    nothing from a response that they have not tested: they never throw a
    [TypeError].  When one of them throws, what it throws is the rejection of
    the last call it made, and no earlier call of it was rejected. *)
Theorem fail_only_on_rejection (f : File) (cfg : Config) (fuel : nat)
    (instanceId : option string) (bucketName : string)
    (queueUrl : option string) (w : World) :
  fails_by_rejection (uploadFileToS3_of f cfg bucketName w) /\
  fails_by_rejection (sendMessageToSQS_of f cfg queueUrl w) /\
  fails_by_rejection
    (deleteResources_of f cfg fuel instanceId bucketName queueUrl w).
Proof.
  split_and!; apply fails_on_rejection; destruct f; cbn.
  all: unfold P1.uploadFileToS3, Part000.uploadFileToS3,
         P1.sendMessageToSQS, Part000.sendMessageToSQS,
         P1.deleteResources, Part000.deleteResources.
  all: first [progress guarded | orderly].
Qed.

Lemma fail_only_on_rejection_witness :
  exists pre client command reason,
    Rejected "NoSuchBucket" = Rejected reason /\
    events (deleteResources_of p1_js demo_config 1 demo_instanceId
              demo_bucketName demo_queueUrl world_no_bucket) =
      pre ++ [Send client command (Reject reason)] /\
    Forall quiet pre.
Proof.
  apply (proj2 (proj2 (fail_only_on_rejection p1_js demo_config 1
                         demo_instanceId demo_bucketName demo_queueUrl
                         world_no_bucket))).
  vm_compute. reflexivity.
Defined.

(** ** The purge loop, continued *)

Lemma purge_endless (s3Client : Client) (bucketName : string) (fuel : nat)
    (st : option bool * option string) (w : World) :
  (forall n, exists page, replies w n = Resolve page /\ truncated page) ->
  purge_cond st = true ->
  let r := purge s3Client fuel bucketName st w in
  outcome r = Diverged /\ length (pages_of (events r)) = fuel.
Proof.
  cbn zeta. intros Hw. revert st w Hw.
  induction fuel as [|fuel IH]; intros st w Hw Hcond.
  - rewrite purge_O, Hcond. done.
  - rewrite purge_S, Hcond, run_bind.
    pose proof (purge_body_run s3Client bucketName st w) as Hbody.
    cbn zeta in Hbody.
    destruct (Hw (issued w)) as (page & Hreply & Hpage).
    rewrite Hreply in Hbody. destruct Hbody as (Hev & Hfin & Hout).
    destruct (delete_objects_ok s3Client bucketName
                (default [] (Contents page)) (advance w))
      as (Hd & Hrep & _).
    { intros n reason. cbn. destruct (Hw n) as (? & -> & _). done. }
    rewrite Hd in Hout. rewrite Hout, Hfin, Hev.
    cbn [prefix outcome events].
    destruct (IH (IsTruncated page, NextContinuationToken page)
                (final (delete_objects s3Client bucketName
                          (default [] (Contents page)) (advance w))))
      as [-> Hlen].
    { intros n. rewrite Hrep. apply Hw. }
    { by apply truthy_truncated. }
    split; [done|].
    rewrite pages_of_app, length_app, Hlen.
    change (pages_of (?e :: ?evs)) with (pages_of [e] ++ pages_of evs).
    rewrite delete_objects_pages. reflexivity.
Qed.

(** X14: the purge loop has no bound of its own.  Against a provider whose
    every listing response reports more objects to come, [deleteResources]
    never gets past the loop: whatever the bound on the iterations, it is
    exhausted, one page is fetched per iteration, and the instance is never
    terminated. *)
Theorem purge_never_ends (f : File) (cfg : Config) (fuel : nat)
    (instanceId : option string) (bucketName : string)
    (queueUrl : option string) (w : World) :
  (forall n, exists page, replies w n = Resolve page /\ truncated page) ->
  let r := deleteResources_of f cfg fuel instanceId bucketName queueUrl w in
  outcome r = Diverged /\
  length (pages_of (events r)) = fuel /\
  Forall (fun e => ~ is_Terminate e) (events r).
Proof.
  intros Hw. cbn zeta. rewrite deleteResources_run. cbn zeta.
  destruct (purge_endless (s3Client_of f cfg) bucketName fuel
              (Some true, None) w Hw eq_refl) as [Ho Hlen].
  pose proof (purge_events (s3Client_of f cfg) bucketName fuel
                (Some true, None) w) as Hloop.
  apply purge_event_not_Terminate in Hloop as [Hloop _].
  rewrite Ho. cbn [prefix outcome events app]. split_and!; [done..|].
  constructor; [cbn; tauto | done].
Qed.

Lemma purge_never_ends_witness :
  let r := deleteResources_of p1_js demo_config 50 demo_instanceId
             demo_bucketName demo_queueUrl world_endless in
  outcome r = Diverged /\
  length (pages_of (events r)) = 50%nat /\
  Forall (fun e => ~ is_Terminate e) (events r).
Proof.
  apply (purge_never_ends p1_js demo_config 50 demo_instanceId
           demo_bucketName demo_queueUrl world_endless).
  intros n. eexists. split; reflexivity.
Defined.

Lemma delete_objects_rejected (s3Client : Client) (bucketName : string)
    (contents : list S3Object) (k : nat) (w : World) (reason : string) :
  (k < length contents)%nat ->
  (forall j, (j < k)%nat ->
             exists response, replies w (issued w + j)%nat = Resolve response) ->
  replies w (issued w + k)%nat = Reject reason ->
  let d := delete_objects s3Client bucketName contents w in
  outcome d = Threw (Rejected reason) /\
  calls (events d) =
    (fun object => (s3Client, DeleteObjectCommand bucketName (Key object)))
      <$> take (S k) contents.
Proof.
  cbn zeta. revert k w.
  induction contents as [|object contents IH]; intros k w Hk Hbefore Hat;
    [cbn in Hk; lia|].
  rewrite delete_objects_cons. destruct k as [|k].
  - rewrite Nat.add_0_r in Hat. rewrite Hat. cbn. by rewrite take_0.
  - destruct (Hbefore 0%nat) as [response Hreply]; [lia|].
    rewrite Nat.add_0_r in Hreply. rewrite Hreply.
    cbn [prefix outcome events].
    destruct (IH k (advance w)) as [-> Hcalls].
    + cbn in Hk. lia.
    + intros j Hj. destruct (Hbefore (S j)) as [r Hr]; [lia|].
      exists r. cbn. by rewrite <- Hr, Nat.add_succ_r.
    + cbn. by rewrite <- Hat, Nat.add_succ_r.
    + split; [done|]. rewrite calls_app, Hcalls. reflexivity.
Qed.

(** X15: the purge stops at the first object whose delete call is rejected.
    The objects listed after it are not asked to be deleted, the bucket is
    not listed again and nothing is torn down: the calls are the listing
    call and the delete calls up to the rejected one. *)
Theorem purge_stops_at_rejected_delete (f : File) (cfg : Config) (fuel : nat)
    (instanceId : option string) (bucketName : string)
    (queueUrl : option string) (w : World)
    (page : Response) (contents : list S3Object) (k : nat) (reason : string) :
  (0 < fuel)%nat ->
  replies w (issued w) = Resolve page ->
  Contents page = Some contents ->
  (k < length contents)%nat ->
  (forall j, (j < k)%nat ->
             exists response,
               replies w (S (issued w) + j)%nat = Resolve response) ->
  replies w (S (issued w) + k)%nat = Reject reason ->
  let r := deleteResources_of f cfg fuel instanceId bucketName queueUrl w in
  outcome r = Threw (Rejected reason) /\
  calls (events r) =
    (s3Client_of f cfg, ListObjectsV2Command bucketName None)
    :: ((fun object =>
           (s3Client_of f cfg, DeleteObjectCommand bucketName (Key object)))
        <$> take (S k) contents).
Proof.
  intros Hfuel Hreply Hcontents Hk Hbefore Hat. cbn zeta.
  rewrite deleteResources_run. cbn zeta.
  destruct fuel as [|fuel]; [lia|].
  rewrite purge_S. cbn [purge_cond truthy]. rewrite run_bind.
  pose proof (purge_body_run (s3Client_of f cfg) bucketName (Some true, None) w)
    as Hbody.
  cbn zeta in Hbody. rewrite Hreply, Hcontents in Hbody.
  cbn [from_option id snd] in Hbody. destruct Hbody as (Hev & Hfin & Hout).
  destruct (delete_objects_rejected (s3Client_of f cfg) bucketName contents k
              (advance w) reason Hk Hbefore Hat) as [Hd Hcalls].
  rewrite Hd in Hout. rewrite Hout, Hev.
  cbn [prefix outcome events app]. split; [done|].
  rewrite calls_log. cbn [calls omap list_omap call_of].
  f_equal. exact Hcalls.
Qed.

Lemma purge_stops_at_rejected_delete_witness :
  let r := deleteResources_of p1_js demo_config 1 demo_instanceId
             demo_bucketName demo_queueUrl world_second_refused in
  outcome r = Threw (Rejected "AccessDenied") /\
  calls (events r) =
    (s3Client_of p1_js demo_config, ListObjectsV2Command demo_bucketName None)
    :: ((fun object =>
           (s3Client_of p1_js demo_config,
            DeleteObjectCommand demo_bucketName (Key object)))
        <$> take 2 three_objects).
Proof.
  apply (purge_stops_at_rejected_delete p1_js demo_config 1 demo_instanceId
           demo_bucketName demo_queueUrl world_second_refused
           (listOutput (Some three_objects) (Some false) None)
           three_objects 1 "AccessDenied").
  - lia.
  - reflexivity.
  - reflexivity.
  - cbn. lia.
  - intros j Hj. assert (j = 0%nat) as -> by lia. eexists. reflexivity.
  - reflexivity.
Defined.

(** ** The teardown *)

Lemma purge_event_not_DeleteQueue (s3Client : Client) (bucketName : string)
    (evs : list Event) :
  Forall (purge_event s3Client bucketName) evs ->
  Forall (fun e => ~ is_DeleteQueue e) evs.
Proof.
  intros H. eapply Forall_impl; [exact H|].
  intros [client [] reply|ms|line|label error]; cbn; tauto.
Qed.

(** X16: the queue is deleted last.  A queue-delete call in a run of
    [deleteResources] comes right after the instance termination and then
    the bucket deletion have both resolved and been logged, and no call
    follows it. *)
Theorem queue_deleted_last (f : File) (cfg : Config) (fuel : nat)
    (instanceId : option string) (bucketName : string)
    (queueUrl : option string) (w : World)
    (pre post : list Event) (reply : Settled) :
  events (deleteResources_of f cfg fuel instanceId bucketName queueUrl w) =
    pre ++ Send (sqsClient_of f cfg) (DeleteQueueCommand queueUrl) reply
        :: post ->
  calls post = [] /\
  exists pre' terminated deleted,
    pre = pre'
          ++ [ Send (ec2Client_of f cfg)
                 (TerminateInstancesCommand [instanceId]) (Resolve terminated);
               ConsoleLog ("EC2 instance " +:+ template instanceId
                           +:+ " termination initiated");
               Send (s3Client_of f cfg) (DeleteBucketCommand bucketName)
                 (Resolve deleted);
               ConsoleLog ("S3 bucket " +:+ bucketName +:+ " deleted") ] /\
    Forall (fun e => ~ is_Terminate e) pre' /\
    Forall (fun e => ~ is_DeleteBucket e) pre'.
Proof.
  rewrite deleteResources_run. cbn zeta.
  pose proof (purge_events (s3Client_of f cfg) bucketName fuel
                (Some true, None) w) as Hloop.
  pose proof (purge_event_not_DeleteQueue _ _ _ Hloop) as Hq.
  apply purge_event_not_Terminate in Hloop as [Ht Hb].
  set (loop := purge _ _ _ _ _) in *.
  assert (forall evs, Forall (fun e => ~ is_DeleteQueue e) evs ->
            evs = pre ++ Send (sqsClient_of f cfg)
                           (DeleteQueueCommand queueUrl) reply :: post ->
            False) as Habsurd.
  { intros evs Hall Heq.
    by apply (not_in_split is_DeleteQueue _ _ _ _ Hall Heq). }
  destruct (outcome loop) as [st'| |]; cbn [prefix events app].
  2,3: intros Heq; exfalso; refine (Habsurd _ _ Heq);
    (constructor; [cbn; tauto | done]).
  rewrite teardown_run.
  destruct (replies (final loop) (issued (final loop))) as [r1|];
    cbn [prefix events app].
  2:{ intros Heq; exfalso; refine (Habsurd _ _ Heq).
      constructor; [cbn; tauto|]. apply Forall_app. split; [done|].
      not_events. }
  destruct (replies (final loop) (S (issued (final loop)))) as [r2|];
    cbn [prefix events app].
  2:{ intros Heq; exfalso; refine (Habsurd _ _ Heq).
      constructor; [cbn; tauto|]. apply Forall_app. split; [done|].
      not_events. }
  intros Heq.
  set (T := Send (ec2Client_of f cfg) (TerminateInstancesCommand [instanceId])
              (Resolve r1)) in *.
  set (L1 := ConsoleLog ("EC2 instance " +:+ template instanceId
                         +:+ " termination initiated")) in *.
  set (B := Send (s3Client_of f cfg) (DeleteBucketCommand bucketName)
              (Resolve r2)) in *.
  set (L2 := ConsoleLog ("S3 bucket " +:+ bucketName +:+ " deleted")) in *.
  destruct (replies (final loop) (S (S (issued (final loop))))) as [r3|];
    cbn [events app] in Heq.
  all: match type of Heq with
       | ?l :: ?evs ++ ?t :: ?l1 :: ?b :: ?l2 :: ?Q :: ?rest = _ =>
           change (l :: evs ++ t :: l1 :: b :: l2 :: Q :: rest)
             with ((l :: evs) ++ [t; l1; b; l2] ++ Q :: rest) in Heq
       end.
  all: rewrite app_assoc in Heq.
  all: apply (unique_split is_DeleteQueue) in Heq as (-> & _ & ->);
    [ | apply Forall_app; split;
          [constructor; [cbn; tauto | done] | subst T L1 B L2; not_events]
      | not_events | done ].
  all: split; [done|].
  all: exists (ConsoleLog "Deleting resources..." :: events loop), r1, r2.
  all: split_and!; [done | ..]; (constructor; [cbn; tauto | done]).
Qed.

Lemma queue_deleted_last_witness :
  calls (drop 7 happy_teardown_events) = [] /\
  exists pre' terminated deleted,
    take 6 happy_teardown_events =
      pre'
      ++ [ Send (ec2Client_of p1_js demo_config)
             (TerminateInstancesCommand [demo_instanceId])
             (Resolve terminated);
           ConsoleLog ("EC2 instance " +:+ template demo_instanceId
                       +:+ " termination initiated");
           Send (s3Client_of p1_js demo_config)
             (DeleteBucketCommand demo_bucketName) (Resolve deleted);
           ConsoleLog ("S3 bucket " +:+ demo_bucketName +:+ " deleted") ] /\
    Forall (fun e => ~ is_Terminate e) pre' /\
    Forall (fun e => ~ is_DeleteBucket e) pre'.
Proof.
  apply (queue_deleted_last p1_js demo_config 1 demo_instanceId
           demo_bucketName demo_queueUrl world_empty_bucket
           (take 6 happy_teardown_events) (drop 7 happy_teardown_events)
           (Resolve emptyResponse)).
  vm_compute. reflexivity.
Defined.

(** ** Names *)

(** X17: the bucket name is unique only as far as the clock is.  Two runs of
    [createResources] that return hand back the same bucket name exactly when
    they read the same time at their first [Date.now()]. *)
Theorem bucket_names_follow_clock (f : File) (cfg : Config) (w w' : World)
    (instanceId instanceId' : option string) (bucketName bucketName' : string)
    (queueUrl queueUrl' : option string) :
  outcome (createResources_of f cfg w) =
    Returned (instanceId, bucketName, queueUrl) ->
  outcome (createResources_of f cfg w') =
    Returned (instanceId', bucketName', queueUrl') ->
  bucketName = bucketName' <-> clock w (reads w) = clock w' (reads w').
Proof.
  rewrite createResources_of_eq.
  intros [= _ -> _]%createResources_ids [= _ -> _]%createResources_ids.
  unfold bucketName_at. split; [|by intros ->].
  intros H%String.app_inj. by apply pretty_Z_inj in H.
Qed.

Lemma bucket_names_follow_clock_witness :
  bucketName_at world_happy = bucketName_at world_later <->
  clock world_happy (reads world_happy) = clock world_later (reads world_later).
Proof.
  apply (bucket_names_follow_clock p1_js demo_config world_happy world_later
           (InstanceId (demo_instance "pending")) (InstanceId (demo_instance "pending"))
           (bucketName_at world_happy) (bucketName_at world_later)
           (Some demo_queue) (Some demo_queue)).
  - vm_compute. reflexivity.
  - vm_compute. reflexivity.
Defined.

(** ** The skeleton of a run *)

Section Seen.
Context {X : Type} (obs : Step -> option X).

Lemma seen_app (evs evs' : list Event) :
  seen obs (evs ++ evs') = seen obs evs ++ seen obs evs'.
Proof. unfold seen. by rewrite steps_app, omap_app. Qed.

Lemma seen_unseen (evs : list Event) :
  Forall (fun e => step_of e ≫= obs = None) evs -> seen obs evs = [].
Proof.
  unfold seen, steps. induction 1 as [|e evs He _ IH]; [done|].
  cbn [omap list_omap]. destruct (step_of e) as [s|]; [|done].
  cbn in He. cbn [omap list_omap]. by rewrite He.
Qed.

Lemma exactly_nil {A} (m : M A) :
  always (fun e => step_of e ≫= obs = None) m -> exactly obs [] m.
Proof. intros H w. rewrite (seen_unseen _ (H w)). done. Qed.

Lemma exactly_send (client : Client) (command : Command) :
  exactly obs (option_list (obs (Call client command))) (send client command).
Proof.
  intros w. rewrite run_send. unfold seen.
  destruct (replies w (issued w)); cbn;
    destruct (obs (Call client command)); done.
Qed.

Lemma exactly_sleep (ms : Z) :
  exactly obs (option_list (obs (Pause ms))) (sleep ms).
Proof. intros w. unfold seen. cbn. destruct (obs (Pause ms)); done. Qed.

Lemma exactly_bind {A B} (L1 L2 : list X) (m : M A) (k : A -> M B) :
  exactly obs L1 m -> (forall a, exactly obs L2 (k a)) ->
  exactly obs (L1 ++ L2) (m ≫= k).
Proof.
  intros Hm Hk w. rewrite run_bind. destruct (Hm w) as [Hp Hr].
  destruct (outcome (m w)) as [a| |].
  - cbn [prefix outcome events]. rewrite seen_app, (Hr a eq_refl).
    destruct (Hk a (final (m w))) as [Hp' Hr']. split.
    + by apply prefix_app.
    + intros b Hb. by rewrite (Hr' b Hb).
  - cbn [outcome events]. split; [|done]. by apply prefix_app_r.
  - cbn [outcome events]. split; [|done]. by apply prefix_app_r.
Qed.

Lemma exactly_eq {A} (L L' : list X) (m : M A) :
  exactly obs L m -> L = L' -> exactly obs L' m.
Proof. by intros H <-. Qed.

Lemma seen_prefix (evs : list Event) (L : list Step) :
  steps evs `prefix_of` L -> seen obs evs `prefix_of` omap obs L.
Proof. intros [rest ->]. unfold seen. rewrite omap_app. by eexists. Qed.

End Seen.

Lemma createResources_steps (cfg : Config) (w : World) :
  let r := P1.createResources cfg w in
  steps (events r) `prefix_of` creation_steps cfg w /\
  forall ids, outcome r = Returned ids -> steps (events r) = creation_steps cfg w.
Proof.
  pose proof (createResources_run cfg w) as H. cbn zeta in H. cbn zeta.
  repeat match type of H with
         | match ?x with _ => _ end => destruct x
         end.
  all: destruct H as (Ho & H); try destruct H as (H & _); rewrite H, Ho.
  all: split; [by eexists | done].
Qed.

(** What a run of [main] shows through [obs], given what the statements
    after the creation show. *)
Lemma main_seen {X} (obs : Step -> option X) (f : File) (cfg : Config)
    (fuel : nat) (w : World) (L : list X) :
  exactly obs L
    (after_creation f cfg fuel
       (instanceId_at w, bucketName_at w, queueUrl_at w)) ->
  seen obs (events (main_of f cfg fuel w))
    `prefix_of` omap obs (creation_steps cfg w) ++ L.
Proof.
  intros Hafter. rewrite main_of_eq, tryCatch_run, run_bind.
  destruct (createResources_steps cfg w) as [Hp Hr]. cbn zeta in Hp, Hr.
  pose proof (createResources_ids cfg w) as Hids.
  apply (seen_prefix obs) in Hp.
  destruct (outcome (P1.createResources cfg w)) as [ids|e|].
  - rewrite (Hids ids eq_refl). specialize (Hr _ eq_refl).
    destruct (Hafter (final (P1.createResources cfg w))) as [Hp' _].
    assert (seen obs (events (P1.createResources cfg w))
            = omap obs (creation_steps cfg w)) as Hc
      by (unfold seen; by rewrite Hr).
    cbn [prefix outcome final events].
    destruct (outcome (after_creation f cfg fuel _ _)) as [[]|e|];
      cbn [prefix events]; rewrite ?seen_app, Hc.
    + by apply prefix_app.
    + change (seen obs (events (console_error _ e _))) with (@nil X).
      rewrite app_nil_r. by apply prefix_app.
    + by apply prefix_app.
  - cbn [prefix outcome final events]. rewrite seen_app.
    change (seen obs (events (console_error _ e _))) with (@nil X).
    rewrite app_nil_r. by apply prefix_app_r.
  - cbn [events]. by apply prefix_app_r.
Qed.

Ltac unseen := apply exactly_nil; always; reflexivity.

Ltac exactly :=
  repeat first
    [ solve [unseen]
    | apply exactly_send
    | apply exactly_sleep
    | eapply exactly_bind; [|intros ?] ].

Ltac after_creation f :=
  destruct f; cbn [after_creation];
  unfold P1.listResources, P1.uploadFileToS3, P1.sendMessageToSQS,
    P1.checkSQSMessages, P1.receiveSQSMessage, P1.deleteResources,
    Part000.listResources, Part000.uploadFileToS3, Part000.sendMessageToSQS,
    Part000.checkSQSMessages, Part000.receiveSQSMessage,
    Part000.deleteResources;
  (eapply exactly_eq; [exactly | reflexivity]).

(** What the statements after the creation show of their steps. *)
Lemma after_creation_skeleton (f : File) (cfg : Config) (fuel : nat)
    (instanceId : option string) (bucketName : string)
    (queueUrl : option string) :
  exactly skeleton_of
    [ Call (P1.ec2Client cfg) DescribeInstancesCommand;
      Call (P1.s3Client cfg) ListBucketsCommand;
      Call (P1.sqsClient cfg) ListQueuesCommand;
      Call (P1.s3Client cfg) (PutObjectCommand bucketName "CSE546test.txt" "");
      Call (P1.sqsClient cfg)
        (SendMessageCommand queueUrl "This is a test message"
           {[ "Title" := {| DataType := Some "String";
                            StringValue := Some "test message" |} ]});
      Call (P1.sqsClient cfg)
        (GetQueueAttributesCommand queueUrl ["ApproximateNumberOfMessages"]);
      Call (P1.sqsClient cfg) (ReceiveMessageCommand queueUrl 1 ["All"]);
      Call (P1.sqsClient cfg)
        (GetQueueAttributesCommand queueUrl ["ApproximateNumberOfMessages"]);
      Pause 10000;
      Call (P1.ec2Client cfg) (TerminateInstancesCommand [instanceId]);
      Call (P1.s3Client cfg) (DeleteBucketCommand bucketName);
      Call (P1.sqsClient cfg) (DeleteQueueCommand queueUrl);
      Pause (final_pause f);
      Call (P1.ec2Client cfg) DescribeInstancesCommand;
      Call (P1.s3Client cfg) ListBucketsCommand;
      Call (P1.sqsClient cfg) ListQueuesCommand ]
    (after_creation f cfg fuel (instanceId, bucketName, queueUrl)).
Proof. after_creation f. Qed.

(** X18: every run of [main] follows one fixed course.  Leaving aside the
    steps whose number depends on the replies (the acknowledgement of a
    received message and the listing and delete calls of the purge loop),
    the calls and pauses of a run, however it ends, are an initial part of:
    the three creation calls and a pause of a minute, the three listing
    calls, upload, send, queue depth, receive, queue depth, a pause of ten
    seconds, terminate, delete bucket, delete queue, the final pause, and
    the three listing calls again. *)
Theorem main_skeleton (f : File) (cfg : Config) (fuel : nat) (w : World) :
  let ec2 := ec2Client_of f cfg in
  let s3 := s3Client_of f cfg in
  let sqs := sqsClient_of f cfg in
  let instanceId := instanceId_at w in
  let bucketName := bucketName_at w in
  let queueUrl := queueUrl_at w in
  seen skeleton_of (events (main_of f cfg fuel w)) `prefix_of`
    [ Call ec2 (RunInstancesCommand (ImageId cfg) "t2.micro" 1 1);
      Call s3 (CreateBucketCommand bucketName);
      Call sqs (CreateQueueCommand (queueName_at w));
      Pause 60000;
      Call ec2 DescribeInstancesCommand;
      Call s3 ListBucketsCommand;
      Call sqs ListQueuesCommand;
      Call s3 (PutObjectCommand bucketName "CSE546test.txt" "");
      Call sqs (SendMessageCommand queueUrl "This is a test message"
                  {[ "Title" := {| DataType := Some "String";
                                   StringValue := Some "test message" |} ]});
      Call sqs (GetQueueAttributesCommand queueUrl
                  ["ApproximateNumberOfMessages"]);
      Call sqs (ReceiveMessageCommand queueUrl 1 ["All"]);
      Call sqs (GetQueueAttributesCommand queueUrl
                  ["ApproximateNumberOfMessages"]);
      Pause 10000;
      Call ec2 (TerminateInstancesCommand [instanceId]);
      Call s3 (DeleteBucketCommand bucketName);
      Call sqs (DeleteQueueCommand queueUrl);
      Pause (final_pause f);
      Call ec2 DescribeInstancesCommand;
      Call s3 ListBucketsCommand;
      Call sqs ListQueuesCommand ].
Proof.
  cbn zeta. rewrite ec2Client_eq, s3Client_eq, sqsClient_eq.
  pose proof (main_seen skeleton_of f cfg fuel w) as Hmain.
  cbn [creation_steps omap list_omap skeleton_of app] in Hmain.
  apply Hmain. apply after_creation_skeleton.
Qed.

(** ** Runs in which every call is well answered *)

Section Smooth.
Variable f : File.

Lemma smooth_ret {A} (a : A) : smooth f (@mret M _ A a).
Proof. by intros w _ error. Qed.

Lemma smooth_emit (e : Event) : smooth f (emit e).
Proof. by intros w _ error. Qed.

Lemma smooth_log (line : string) : smooth f (console_log line).
Proof. apply smooth_emit. Qed.

Lemma smooth_sleep (ms : Z) : smooth f (sleep ms).
Proof. apply smooth_emit. Qed.

Lemma smooth_Date_now : smooth f Date_now.
Proof. by intros w _ error. Qed.

Lemma smooth_Returned {A} (m : M A) :
  (forall w, exists a, outcome (m w) = Returned a) -> smooth f m.
Proof. intros H w _ error. destruct (H w) as [a ->]. done. Qed.

Lemma smooth_bind {A B} (m : M A) (k : A -> M B) :
  smooth f m -> (forall a, smooth f (k a)) -> smooth f (m ≫= k).
Proof.
  intros Hm Hk w. rewrite run_bind. specialize (Hm w).
  destruct (outcome (m w)) as [a|e|].
  - cbn [prefix outcome events]. intros [_ H]%Forall_app. by apply Hk.
  - cbn [outcome events]. intros H. by destruct (Hm H e).
  - done.
Qed.

Lemma smooth_send_bind {B} (client : Client) (command : Command)
    (k : Response -> M B) :
  (forall response,
     well_answered f (Send client command (Resolve response)) ->
     smooth f (k response)) ->
  smooth f (send client command ≫= k).
Proof.
  intros Hk w. rewrite bind_send.
  destruct (replies w (issued w)) as [response|reason].
  - cbn [prefix outcome events]. intros [H H']%Forall_app.
    apply Forall_cons in H as [H _]. by apply Hk.
  - cbn [events]. intros H. by apply Forall_cons in H as [H _].
Qed.

Lemma smooth_send (client : Client) (command : Command) :
  smooth f (send client command).
Proof.
  intros w. rewrite run_send.
  destruct (replies w (issued w)) as [response|reason]; [done|].
  cbn [events]. intros H. by apply Forall_cons in H as [H _].
Qed.

Lemma smooth_forEach {A} (xs : list A) (g : A -> M unit) :
  (forall x, smooth f (g x)) -> smooth f (forEach xs g).
Proof.
  intros Hg. induction xs as [|x xs IH]; [apply smooth_ret|].
  cbn [forEach]. apply smooth_bind; [apply Hg | by intros _].
Qed.

Lemma smooth_while {S} (fuel : nat) (cond : S -> bool) (body : S -> M S)
    (s : S) :
  (forall s, smooth f (body s)) -> smooth f (while fuel cond body s).
Proof.
  intros Hbody. revert s. induction fuel as [|fuel IH]; intros s; cbn [while].
  - destruct (cond s); [by intros w _ error | apply smooth_ret].
  - destruct (cond s); [|apply smooth_ret].
    apply smooth_bind; [apply Hbody | apply IH].
Qed.

Lemma smooth_defined_bind {A B} (x : option A) (a : A) (k : A -> M B) :
  x = Some a -> smooth f (k a) -> smooth f (defined x ≫= k).
Proof. intros -> Hk w. rewrite bind_defined. apply Hk. Qed.

End Smooth.

Ltac smooth :=
  repeat first
    [ apply smooth_ret
    | apply smooth_log
    | apply smooth_sleep
    | apply smooth_Date_now
    | apply smooth_send
    | apply smooth_forEach; intros ?
    | apply smooth_while; intros ?
    | apply smooth_bind; [|intros ?]
    | match goal with
      | |- smooth _ (match ?x with _ => _ end) => destruct x
      | |- smooth _ (let '(_, _) := ?x in _) => destruct x
      end ].

Lemma smooth_createResources (f : File) (cfg : Config) :
  smooth f (P1.createResources cfg).
Proof.
  unfold P1.createResources.
  apply smooth_bind; [apply smooth_log|]. intros _.
  apply smooth_send_bind. intros ec2Response [instance0 Hinstance].
  destruct (Instances ec2Response) as [instances|] eqn:E; [|done].
  cbn in Hinstance.
  apply (smooth_defined_bind _ _ instances); [done|].
  apply (smooth_defined_bind _ _ instance0); [done|].
  smooth.
Qed.

Lemma smooth_listResources (f : File) (cfg : Config) :
  smooth f (listResources_of f cfg).
Proof.
  destruct f; cbn [listResources_of].
  - unfold P1.listResources.
    apply smooth_bind; [apply smooth_log|]. intros _.
    apply smooth_send_bind. intros ec2Response Hcomplete.
    cbn [well_answered] in Hcomplete.
    apply smooth_bind; [apply smooth_log|]. intros _.
    apply smooth_bind.
    { destruct (Reservations ec2Response) as [reservations|];
        [|apply smooth_ret].
      apply smooth_Returned. intros w. exists ().
      destruct (print_reservations_running_loop reservations w)
        as (_ & _ & H).
      cbn [default from_option id] in Hcomplete.
      destruct (decide (Forall complete_reservation reservations)); [|done].
      apply H. }
    intros _. smooth.
  - unfold Part000.listResources.
    apply smooth_bind; [apply smooth_log|]. intros _.
    apply smooth_send_bind.
    intros ec2Response (reservations & Hreservations & Hcomplete).
    apply smooth_bind; [apply smooth_log|]. intros _.
    apply (smooth_defined_bind _ _ reservations); [done|].
    apply smooth_bind.
    { apply smooth_Returned. intros w. exists ().
      destruct (print_reservations_loop reservations w) as (_ & _ & H).
      destruct (decide (Forall _ reservations)); [|done].
      apply H. }
    intros _.
    apply smooth_send_bind. intros s3Response [buckets Hbuckets].
    apply smooth_bind; [apply smooth_log|]. intros _.
    apply (smooth_defined_bind _ _ buckets); [done|].
    apply smooth_bind; [smooth|]. intros _.
    apply smooth_send_bind. intros sqsResponse [queueUrls HqueueUrls].
    apply smooth_bind; [apply smooth_log|]. intros _.
    apply (smooth_defined_bind _ _ queueUrls); [done|].
    smooth.
Qed.

Lemma smooth_checkSQSMessages (f : File) (cfg : Config)
    (queueUrl : option string) :
  smooth f (P1.checkSQSMessages cfg queueUrl).
Proof.
  unfold P1.checkSQSMessages.
  apply smooth_send_bind. intros response [attributes Hattributes].
  apply (smooth_defined_bind _ _ attributes); [done|].
  smooth.
Qed.

Lemma smooth_receiveSQSMessage (f : File) (cfg : Config)
    (queueUrl : option string) :
  smooth f (P1.receiveSQSMessage cfg queueUrl).
Proof.
  unfold P1.receiveSQSMessage.
  apply smooth_bind; [apply smooth_log|]. intros _.
  apply smooth_send_bind. intros response Htitle. cbn [well_answered] in Htitle.
  destruct (Messages response) as [[|message rest]|]; [smooth| |smooth].
  destruct (Htitle message eq_refl) as [title Htitle'].
  unfold Title in Htitle'.
  destruct (MessageAttributes message) as [attributes|]; [|done].
  cbn in Htitle'.
  apply (smooth_defined_bind _ _ attributes); [done|].
  apply (smooth_defined_bind _ _ title); [done|].
  smooth.
Qed.

Lemma smooth_after_creation (f : File) (cfg : Config) (fuel : nat)
    (ids : option string * string * option string) :
  smooth f (after_creation f cfg fuel ids).
Proof.
  destruct ids as [[instanceId bucketName] queueUrl].
  destruct f; cbn [after_creation].
  - apply smooth_bind; [apply (smooth_listResources p1_js)|]. intros _.
    apply smooth_bind; [unfold P1.uploadFileToS3; smooth|]. intros _.
    apply smooth_bind; [unfold P1.sendMessageToSQS; smooth|]. intros _.
    apply smooth_bind; [apply smooth_checkSQSMessages|]. intros _.
    apply smooth_bind; [apply smooth_receiveSQSMessage|]. intros _.
    apply smooth_bind; [apply smooth_checkSQSMessages|]. intros _.
    apply smooth_bind; [apply smooth_log|]. intros _.
    apply smooth_bind; [apply smooth_sleep|]. intros _.
    apply smooth_bind; [unfold P1.deleteResources; smooth|]. intros _.
    apply smooth_bind; [apply smooth_log|]. intros _.
    apply smooth_bind; [apply smooth_sleep|]. intros _.
    apply (smooth_listResources p1_js).
  - apply smooth_bind; [apply (smooth_listResources part_000)|]. intros _.
    apply smooth_bind; [unfold Part000.uploadFileToS3; smooth|]. intros _.
    apply smooth_bind; [unfold Part000.sendMessageToSQS; smooth|]. intros _.
    apply smooth_bind; [apply smooth_checkSQSMessages|]. intros _.
    apply smooth_bind; [apply smooth_receiveSQSMessage|]. intros _.
    apply smooth_bind; [apply smooth_checkSQSMessages|]. intros _.
    apply smooth_bind; [apply smooth_log|]. intros _.
    apply smooth_bind; [apply smooth_sleep|]. intros _.
    apply smooth_bind; [unfold Part000.deleteResources; smooth|]. intros _.
    apply smooth_bind; [apply smooth_log|]. intros _.
    apply smooth_bind; [apply smooth_sleep|]. intros _.
    apply (smooth_listResources part_000).
Qed.

Lemma main_inner_smooth (f : File) (cfg : Config) (fuel : nat) :
  smooth f (P1.createResources cfg ≫= after_creation f cfg fuel).
Proof.
  apply smooth_bind; [apply smooth_createResources|].
  intros ids. apply smooth_after_creation.
Qed.

Lemma main_inner_no_error (f : File) (cfg : Config) (fuel : nat) :
  always (fun e => ~ is_ConsoleError e)
    (P1.createResources cfg ≫= after_creation f cfg fuel).
Proof.
  apply always_bind.
  - unfold P1.createResources. always; cbn; tauto.
  - intros [[instanceId bucketName] queueUrl].
    destruct f; cbn [after_creation];
      unfold P1.listResources, P1.uploadFileToS3, P1.sendMessageToSQS,
        P1.checkSQSMessages, P1.receiveSQSMessage, P1.deleteResources,
        Part000.listResources, Part000.uploadFileToS3,
        Part000.sendMessageToSQS, Part000.checkSQSMessages,
        Part000.receiveSQSMessage, Part000.deleteResources.
    all: always; cbn; tauto.
Qed.

(** X19: [main] fails only on a call that was rejected or badly answered.
    The reads the scripts make without a test are: the first instance of the
    [RunInstances] response; in [p1.js] the instances of a listed reservation
    and the state of a listed instance, in [part_000] the three lists of the
    listing responses and the instances of a reservation; the [Attributes] of
    a queue-attributes response; the [Title] attribute of a received message.
    In a run that ends in which every call was accepted and answered with
    these in place, the handler is not entered and the whole course is run,
    teardown and final listing included. *)
Theorem main_completes (f : File) (cfg : Config) (fuel : nat) (w : World) :
  let ec2 := ec2Client_of f cfg in
  let s3 := s3Client_of f cfg in
  let sqs := sqsClient_of f cfg in
  let instanceId := instanceId_at w in
  let bucketName := bucketName_at w in
  let queueUrl := queueUrl_at w in
  let r := main_of f cfg fuel w in
  outcome r = Returned () ->
  Forall (well_answered f) (events r) ->
  Forall (fun e => ~ is_ConsoleError e) (events r) /\
  seen skeleton_of (events r) =
    [ Call ec2 (RunInstancesCommand (ImageId cfg) "t2.micro" 1 1);
      Call s3 (CreateBucketCommand bucketName);
      Call sqs (CreateQueueCommand (queueName_at w));
      Pause 60000;
      Call ec2 DescribeInstancesCommand;
      Call s3 ListBucketsCommand;
      Call sqs ListQueuesCommand;
      Call s3 (PutObjectCommand bucketName "CSE546test.txt" "");
      Call sqs (SendMessageCommand queueUrl "This is a test message"
                  {[ "Title" := {| DataType := Some "String";
                                   StringValue := Some "test message" |} ]});
      Call sqs (GetQueueAttributesCommand queueUrl
                  ["ApproximateNumberOfMessages"]);
      Call sqs (ReceiveMessageCommand queueUrl 1 ["All"]);
      Call sqs (GetQueueAttributesCommand queueUrl
                  ["ApproximateNumberOfMessages"]);
      Pause 10000;
      Call ec2 (TerminateInstancesCommand [instanceId]);
      Call s3 (DeleteBucketCommand bucketName);
      Call sqs (DeleteQueueCommand queueUrl);
      Pause (final_pause f);
      Call ec2 DescribeInstancesCommand;
      Call s3 ListBucketsCommand;
      Call sqs ListQueuesCommand ].
Proof.
  cbn zeta. rewrite ec2Client_eq, s3Client_eq, sqsClient_eq.
  rewrite main_of_eq, tryCatch_run.
  pose proof (main_inner_smooth f cfg fuel w) as Hsmooth.
  pose proof (main_inner_no_error f cfg fuel w) as Hquiet.
  destruct (outcome ((P1.createResources cfg ≫= after_creation f cfg fuel) w))
    as [[]|error|] eqn:Hinner.
  - intros _ _. split; [exact Hquiet|].
    apply bind_Returned in Hinner as (ids & Hcreate & Hafter & ->).
    rewrite seen_app.
    destruct (createResources_steps cfg w) as [_ Hsteps].
    unfold seen at 1. rewrite (Hsteps ids Hcreate).
    apply createResources_ids in Hcreate as ->.
    destruct (after_creation_skeleton f cfg fuel (instanceId_at w)
                (bucketName_at w) (queueUrl_at w)
                (final (P1.createResources cfg w))) as [_ Hfull].
    rewrite (Hfull () Hafter). reflexivity.
  - cbn [prefix outcome events]. intros _ [Hall _]%Forall_app.
    by destruct (Hsmooth Hall error).
  - rewrite Hinner. discriminate.
Qed.

Lemma main_completes_witness :
  Forall (fun e => ~ is_ConsoleError e)
    (events (main_of p1_js demo_config 1 world_happy)) /\
  length (seen skeleton_of (events (main_of p1_js demo_config 1 world_happy)))
    = 20%nat.
Proof.
  destruct (main_completes p1_js demo_config 1 world_happy) as [Hquiet Hseen].
  - vm_compute. reflexivity.
  - change (events (main_of p1_js demo_config 1 world_happy)) with happy_events.
    unfold happy_events.
    repeat (apply List.Forall_cons;
            [first [exact I | by eexists
                   | by intros ? [= <-]; eexists
                   | by repeat constructor; eexists ]|]).
    apply List.Forall_nil.
  - split; [exact Hquiet|]. by rewrite Hseen.
Defined.

(** ** What the purge deletes *)

Lemma deletes_listed_app (bucketName : string) (evs evs' : list Event) :
  deletes_listed bucketName evs -> deletes_listed bucketName evs' ->
  deletes_listed bucketName (evs ++ evs').
Proof.
  intros H H' pre client bucket key reply post Heq.
  apply app_eq_app in Heq as [l [[-> Heq] | [-> Heq]]].
  - destruct l as [|e l].
    + cbn in Heq. symmetry in Heq.
      destruct (H' [] client bucket key reply post Heq)
        as (-> & page & ? & ? & Hpage & _).
      by apply elem_of_nil in Hpage.
    + injection Heq as <- ->.
      by apply (H pre client bucket key reply l).
  - destruct (H' l client bucket key reply post Heq)
      as (-> & page & contents & object & Hpage & ? & ? & ?).
    split; [done|]. exists page, contents, object. split_and!; try done.
    rewrite pages_of_app. apply elem_of_app. by right.
Qed.

Lemma deletes_listed_none (bucketName : string) (evs : list Event) :
  Forall (fun e => match e with
                   | Send _ (DeleteObjectCommand _ _) _ => False
                   | _ => True
                   end) evs ->
  deletes_listed bucketName evs.
Proof.
  intros Hall pre client bucket key reply post ->.
  apply Forall_app in Hall as [_ Hall]. by apply Forall_cons in Hall as [? _].
Qed.

(** The delete calls of one page, the listing call that fetched it in front. *)
Lemma delete_objects_listed (s3Client : Client) (bucketName : string)
    (token : option string) (page : Response) (w : World) :
  deletes_listed bucketName
    (Send s3Client (ListObjectsV2Command bucketName token) (Resolve page)
     :: events (delete_objects s3Client bucketName
                  (default [] (Contents page)) w)).
Proof.
  assert (forall contents w pre client bucket key reply post,
            events (delete_objects s3Client bucketName contents w) =
              pre ++ Send client (DeleteObjectCommand bucket key) reply :: post ->
            bucket = bucketName /\
            exists object, object ∈ contents /\ Key object = key) as Hkeys.
  { clear. induction contents as [|object contents IH];
      intros w pre client bucket key reply post.
    { intros Heq. by destruct pre. }
    rewrite delete_objects_cons.
    destruct (replies w (issued w)) as [response|reason];
      cbn [prefix events app].
    - destruct pre as [|e pre]; cbn [app].
      { intros [= <- <- <- <-]. split; [done|]. exists object.
        split; [left|done]. }
      intros [= <- Heq]. destruct pre as [|e pre]; [done|].
      injection Heq as <- Heq.
      destruct (IH _ _ _ _ _ _ _ Heq) as (-> & object' & ? & ?).
      split; [done|]. exists object'. split; [by right|done].
    - destruct pre as [|e [|e' pre]]; cbn [app]; [|done..].
      intros [= <- <- <- <-]. split; [done|]. exists object.
      split; [left|done]. }
  intros pre client bucket key reply post Heq.
  destruct pre as [|e pre]; [done|]. injection Heq as <- Heq.
  destruct (Hkeys _ _ _ _ _ _ _ _ Heq) as (-> & object & Hobject & Hkey).
  split; [done|].
  destruct (Contents page) as [contents|] eqn:Hcontents;
    [|by apply elem_of_nil in Hobject].
  exists page, contents, object. split_and!; try done.
  cbn. left.
Qed.

Lemma purge_deletes_listed (s3Client : Client) (bucketName : string)
    (fuel : nat) (st : option bool * option string) (w : World) :
  deletes_listed bucketName (events (purge s3Client fuel bucketName st w)).
Proof.
  revert st w. induction fuel as [|fuel IH]; intros st w.
  - rewrite purge_O. destruct (purge_cond st); by apply deletes_listed_none.
  - rewrite purge_S. destruct (purge_cond st);
      [|by apply deletes_listed_none].
    rewrite run_bind.
    pose proof (purge_body_run s3Client bucketName st w) as Hbody.
    cbn zeta in Hbody.
    destruct (replies w (issued w)) as [page|reason].
    2:{ rewrite Hbody. cbn. apply deletes_listed_none. by repeat constructor. }
    destruct Hbody as (Hev & _ & _).
    assert (deletes_listed bucketName
              (events (purge_body s3Client bucketName st w))) as Hb.
    { rewrite Hev. apply delete_objects_listed. }
    destruct (outcome (purge_body s3Client bucketName st w)); cbn; try done.
    apply deletes_listed_app; [done | apply IH].
Qed.

(** X20: [deleteResources] deletes only what it was shown.  Every
    object-delete call of a run, however the run ends, is for the bucket the
    routine was given and names the key of an object on a listing page that
    the run received before the call. *)
Theorem deletes_only_listed (f : File) (cfg : Config) (fuel : nat)
    (instanceId : option string) (bucketName : string)
    (queueUrl : option string) (w : World)
    (pre post : list Event) (client : Client) (bucket : string)
    (key : option string) (reply : Settled) :
  events (deleteResources_of f cfg fuel instanceId bucketName queueUrl w) =
    pre ++ Send client (DeleteObjectCommand bucket key) reply :: post ->
  bucket = bucketName /\
  exists page contents object,
    page ∈ pages_of pre /\ Contents page = Some contents /\
    object ∈ contents /\ Key object = key.
Proof.
  revert pre client bucket key reply post.
  change (deletes_listed bucketName
            (events (deleteResources_of f cfg fuel instanceId bucketName
                       queueUrl w))).
  rewrite deleteResources_run. cbn zeta.
  pose proof (purge_deletes_listed (s3Client_of f cfg) bucketName fuel
                (Some true, None) w) as Hloop.
  set (loop := purge _ _ _ _ _) in *.
  change (prefix [ConsoleLog "Deleting resources..."] ?r)
    with (mkRun (outcome r) (final r)
            ([ConsoleLog "Deleting resources..."] ++ events r)).
  cbn [events].
  apply deletes_listed_app; [by apply deletes_listed_none; repeat constructor|].
  destruct (outcome loop); cbn [prefix events]; [|done..].
  apply deletes_listed_app; [done|].
  apply deletes_listed_none. rewrite teardown_run.
  repeat match goal with
         | |- context [match ?x with Resolve _ => _ | Reject _ => _ end] =>
             destruct x; cbn [prefix events app]
         end.
  all: by repeat constructor.
Qed.

Lemma deletes_only_listed_witness :
  demo_bucketName = demo_bucketName /\
  exists page contents object,
    page ∈ pages_of (take 4 two_pages_events) /\
    Contents page = Some contents /\
    object ∈ contents /\ Key object = Some "b.txt".
Proof.
  apply (deletes_only_listed p1_js demo_config 2 demo_instanceId
           demo_bucketName demo_queueUrl world_two_pages
           (take 4 two_pages_events) (drop 5 two_pages_events)
           (P1.s3Client demo_config) demo_bucketName (Some "b.txt")
           (Resolve emptyResponse)).
  vm_compute. reflexivity.
Defined.
